(** * picoquic_sp: the test-selection, execution and retry harness

    A shallow embedding of [src/picoquic_sp.c], the [main] of the
    picoquic_in_space test driver, and the properties of its selection
    resolver, default sweep and retry pass.

    Conventions of the embedding.
    - C [int] values are [Z]; [size_t] indices into the tables are [nat] and
      the [size_t] bounds [first_test], [last_test] are non-negative [Z].  The
      counters [nb_test_tried] and [nb_test_failed] are incremented at most
      once per registry entry and [get_test_number] casts an index below
      [nb_tests] to [int]; the registry is a static table, so these stay far
      below [INT_MAX] and no wrap-around is written out.  [atoi] is given on
      the digits it reads (its overflow is undefined in C).
    - [int] variables that only ever hold 0 or 1 ([do_stress], [auto_bypass],
      ...) are [bool].
    - The test bodies are external: a test is a function on an abstract
      [World], returning its result code and the new world.
    - Everything the program does to the outside (each [fprintf] to [stdout]
      or [stderr], each call of a test function, each call into the
      debug-print library) is appended, in order, to the [trace] of the
      state.  [fflush] leaves no mark.  [PRIst], picoquic's format for a
      [size_t], prints it in decimal.
    - [getopt] is libc; it is modelled as POSIX.1 describes it (scanning
      stops at the first non-option token, no permutation of [argv]), with
      glibc's reset of [optarg] to NULL on entry.  On the command lines
      used as samples below the options come first, so a permuting
      [getopt] reads them the same way.
    - The non-Windows value of [DEFAULT_PICOQUIC_DIR] is taken. *)

From Stdlib Require Import ZArith String Ascii List Lia Bool DecimalString.
From stdpp Require Import base list strings.

(** ** Data model *)

(** [test_status_t] (picoquic_sp.c:48). *)
Inductive test_status_t : Set :=
| test_not_run
| test_excluded
| test_success
| test_failed.

Definition test_status_eqb (a b : test_status_t) : bool :=
  match a, b with
  | test_not_run, test_not_run => true
  | test_excluded, test_excluded => true
  | test_success, test_success => true
  | test_failed, test_failed => true
  | _, _ => false
  end.

(** [picoquic_test_def_t] (picoquic_sp.c:43): a name and a test body. *)
Record picoquic_test_def_t (World : Type) : Type := mk_test_def {
  test_name : string;
  test_fn : World -> Z * World
}.
Arguments mk_test_def {World} _ _.
Arguments test_name {World} _.
Arguments test_fn {World} _ _.

(** The two output streams the program writes to. *)
Inductive FILE : Set := stdout | stderr.

(** Observable actions, in the order the program performs them. *)
Inductive event : Type :=
| ev_fprintf (F : FILE) (text : string)
| ev_test_fn (i : nat) (r : Z)
| ev_debug_printf_push_stream (F : FILE)
| ev_debug_printf_suspend
| ev_debug_printf_resume
| ev_picoquic_set_solution_dir (dir : string)
| ev_getopt_diagnostic (c : ascii).

(** How a run of a piece of [main] can end: it falls through, it calls
    [exit], or it reads through a NULL / past the end of [argv]. *)
Inductive outcome (A : Type) : Type :=
| Normal (a : A)
| Exited (code : Z) (a : A)
| Undefined (a : A).
Arguments Normal {A} _.
Arguments Exited {A} _ _.
Arguments Undefined {A} _.

(** ** libc helpers *)

Definition DEFAULT_PICOQUIC_DIR : string := "../picoquic".

(** The characters that cannot be written inside a string literal. *)
Definition nl : string := String (ascii_of_nat 10) EmptyString.
Definition dquote : string := String (ascii_of_nat 34) EmptyString.

(** [%d] and [%zu]. *)
Definition dec_int (z : Z) : string := NilZero.string_of_int (Z.to_int z).
Definition dec_size (n : nat) : string := NilZero.string_of_uint (Nat.to_uint n).

(** [%s] of a possibly NULL pointer (glibc prints "(null)"). *)
Definition show_ptr (p : option string) : string :=
  match p with
  | Some a => a
  | None => "(null)"
  end.

Definition is_space (c : ascii) : bool :=
  let n := nat_of_ascii c in (n =? 32) || ((9 <=? n) && (n <=? 13)).

Definition digit_of (c : ascii) : option Z :=
  let n := nat_of_ascii c in
  if (48 <=? n) && (n <=? 57) then Some (Z.of_nat (n - 48)) else None.

Fixpoint atoi_digits (s : string) (acc : Z) : Z :=
  match s with
  | EmptyString => acc
  | String c rest =>
      match digit_of c with
      | Some d => atoi_digits rest (10 * acc + d)%Z
      | None => acc
      end
  end.

Fixpoint skip_spaces (s : string) : string :=
  match s with
  | EmptyString => EmptyString
  | String c rest => if is_space c then skip_spaces rest else s
  end.

Definition atoi (s : string) : Z :=
  match skip_spaces s with
  | String "-" rest => (- atoi_digits rest 0)%Z
  | String "+" rest => atoi_digits rest 0
  | t => atoi_digits t 0
  end.

(** [tn[0] == '-'] *)
Definition starts_with_dash (tn : string) : bool :=
  match tn with
  | String "-" _ => true
  | _ => false
  end.

(** The option string handed to [getopt] (picoquic_sp.c:174). *)
Definition optstring : string := "c:d:f:F:s:S:x:o:nrh".

(** [Some true]: an option taking an argument; [Some false]: a plain flag;
    [None]: not an option character. *)
Fixpoint optstring_lookup (c : ascii) (spec : string) : option bool :=
  match spec with
  | EmptyString => None
  | String o rest =>
      match rest with
      | String ":" rest' =>
          if Ascii.eqb c o then Some true else optstring_lookup c rest'
      | _ => if Ascii.eqb c o then Some false else optstring_lookup c rest
      end
  end.

(** A token [getopt] scans as a cluster of options: "-" followed by at
    least one character. *)
Definition is_option_token (tok : string) : bool :=
  match tok with
  | String "-" (String _ _) => true
  | _ => false
  end.

(** [for (size_t i = 0; i < n; i++) body] *)
Definition for_loop {S : Type} (n : nat) (body : nat -> S -> S) (s : S) : S :=
  foldl (fun acc i => body i acc) s (seq 0 n).

Section Harness.

Context {World : Type}.

(** [main]'s local variables, libc's [optind] / [optarg] and the scanning
    cursor of [getopt] inside a cluster such as "-nr" ([nextchar], 0 when
    the next call starts a new token), the world the tests act on and the
    trace of what has been done so far. *)
Record state : Type := mk_state {
  ret : Z;
  nb_test_tried : Z;
  nb_test_failed : Z;
  stress_minutes : Z;
  auto_bypass : bool;
  cf_rounds : Z;
  test_status : list test_status_t;
  do_fuzz : bool;
  do_stress : bool;
  do_cnx_stress : bool;
  do_cnx_ddos : bool;
  do_cf_fuzz : bool;
  disable_debug : bool;
  retry_failed_test : bool;
  cnx_stress_minutes : Z;
  cnx_stress_nb_cnx : Z;
  cnx_ddos_packets : Z;
  cnx_ddos_interval : Z;
  first_test : Z;
  last_test : Z;
  cnx_ddos_dir : option string;
  optind : nat;
  optarg : option string;
  nextchar : nat;
  world : World;
  trace : list event
}.

(** Assignments to one variable. *)
Definition set_ret (v : Z) (s : state) : state :=
  mk_state v (nb_test_tried s) (nb_test_failed s) (stress_minutes s)
    (auto_bypass s) (cf_rounds s) (test_status s) (do_fuzz s) (do_stress s)
    (do_cnx_stress s) (do_cnx_ddos s) (do_cf_fuzz s) (disable_debug s)
    (retry_failed_test s) (cnx_stress_minutes s) (cnx_stress_nb_cnx s)
    (cnx_ddos_packets s) (cnx_ddos_interval s) (first_test s) (last_test s)
    (cnx_ddos_dir s) (optind s) (optarg s) (nextchar s) (world s) (trace s).
Definition set_nb_test_tried (v : Z) (s : state) : state :=
  mk_state (ret s) v (nb_test_failed s) (stress_minutes s) (auto_bypass s)
    (cf_rounds s) (test_status s) (do_fuzz s) (do_stress s) (do_cnx_stress s)
    (do_cnx_ddos s) (do_cf_fuzz s) (disable_debug s) (retry_failed_test s)
    (cnx_stress_minutes s) (cnx_stress_nb_cnx s) (cnx_ddos_packets s)
    (cnx_ddos_interval s) (first_test s) (last_test s) (cnx_ddos_dir s) (optind
    s) (optarg s) (nextchar s) (world s) (trace s).
Definition set_nb_test_failed (v : Z) (s : state) : state :=
  mk_state (ret s) (nb_test_tried s) v (stress_minutes s) (auto_bypass s)
    (cf_rounds s) (test_status s) (do_fuzz s) (do_stress s) (do_cnx_stress s)
    (do_cnx_ddos s) (do_cf_fuzz s) (disable_debug s) (retry_failed_test s)
    (cnx_stress_minutes s) (cnx_stress_nb_cnx s) (cnx_ddos_packets s)
    (cnx_ddos_interval s) (first_test s) (last_test s) (cnx_ddos_dir s) (optind
    s) (optarg s) (nextchar s) (world s) (trace s).
Definition set_stress_minutes (v : Z) (s : state) : state :=
  mk_state (ret s) (nb_test_tried s) (nb_test_failed s) v (auto_bypass s)
    (cf_rounds s) (test_status s) (do_fuzz s) (do_stress s) (do_cnx_stress s)
    (do_cnx_ddos s) (do_cf_fuzz s) (disable_debug s) (retry_failed_test s)
    (cnx_stress_minutes s) (cnx_stress_nb_cnx s) (cnx_ddos_packets s)
    (cnx_ddos_interval s) (first_test s) (last_test s) (cnx_ddos_dir s) (optind
    s) (optarg s) (nextchar s) (world s) (trace s).
Definition set_auto_bypass (v : bool) (s : state) : state :=
  mk_state (ret s) (nb_test_tried s) (nb_test_failed s) (stress_minutes s) v
    (cf_rounds s) (test_status s) (do_fuzz s) (do_stress s) (do_cnx_stress s)
    (do_cnx_ddos s) (do_cf_fuzz s) (disable_debug s) (retry_failed_test s)
    (cnx_stress_minutes s) (cnx_stress_nb_cnx s) (cnx_ddos_packets s)
    (cnx_ddos_interval s) (first_test s) (last_test s) (cnx_ddos_dir s) (optind
    s) (optarg s) (nextchar s) (world s) (trace s).
Definition set_cf_rounds (v : Z) (s : state) : state :=
  mk_state (ret s) (nb_test_tried s) (nb_test_failed s) (stress_minutes s)
    (auto_bypass s) v (test_status s) (do_fuzz s) (do_stress s) (do_cnx_stress
    s) (do_cnx_ddos s) (do_cf_fuzz s) (disable_debug s) (retry_failed_test s)
    (cnx_stress_minutes s) (cnx_stress_nb_cnx s) (cnx_ddos_packets s)
    (cnx_ddos_interval s) (first_test s) (last_test s) (cnx_ddos_dir s) (optind
    s) (optarg s) (nextchar s) (world s) (trace s).
Definition set_test_status (v : list test_status_t) (s : state) : state :=
  mk_state (ret s) (nb_test_tried s) (nb_test_failed s) (stress_minutes s)
    (auto_bypass s) (cf_rounds s) v (do_fuzz s) (do_stress s) (do_cnx_stress s)
    (do_cnx_ddos s) (do_cf_fuzz s) (disable_debug s) (retry_failed_test s)
    (cnx_stress_minutes s) (cnx_stress_nb_cnx s) (cnx_ddos_packets s)
    (cnx_ddos_interval s) (first_test s) (last_test s) (cnx_ddos_dir s) (optind
    s) (optarg s) (nextchar s) (world s) (trace s).
Definition set_do_fuzz (v : bool) (s : state) : state :=
  mk_state (ret s) (nb_test_tried s) (nb_test_failed s) (stress_minutes s)
    (auto_bypass s) (cf_rounds s) (test_status s) v (do_stress s) (do_cnx_stress
    s) (do_cnx_ddos s) (do_cf_fuzz s) (disable_debug s) (retry_failed_test s)
    (cnx_stress_minutes s) (cnx_stress_nb_cnx s) (cnx_ddos_packets s)
    (cnx_ddos_interval s) (first_test s) (last_test s) (cnx_ddos_dir s) (optind
    s) (optarg s) (nextchar s) (world s) (trace s).
Definition set_do_stress (v : bool) (s : state) : state :=
  mk_state (ret s) (nb_test_tried s) (nb_test_failed s) (stress_minutes s)
    (auto_bypass s) (cf_rounds s) (test_status s) (do_fuzz s) v (do_cnx_stress
    s) (do_cnx_ddos s) (do_cf_fuzz s) (disable_debug s) (retry_failed_test s)
    (cnx_stress_minutes s) (cnx_stress_nb_cnx s) (cnx_ddos_packets s)
    (cnx_ddos_interval s) (first_test s) (last_test s) (cnx_ddos_dir s) (optind
    s) (optarg s) (nextchar s) (world s) (trace s).
Definition set_do_cnx_stress (v : bool) (s : state) : state :=
  mk_state (ret s) (nb_test_tried s) (nb_test_failed s) (stress_minutes s)
    (auto_bypass s) (cf_rounds s) (test_status s) (do_fuzz s) (do_stress s) v
    (do_cnx_ddos s) (do_cf_fuzz s) (disable_debug s) (retry_failed_test s)
    (cnx_stress_minutes s) (cnx_stress_nb_cnx s) (cnx_ddos_packets s)
    (cnx_ddos_interval s) (first_test s) (last_test s) (cnx_ddos_dir s) (optind
    s) (optarg s) (nextchar s) (world s) (trace s).
Definition set_do_cnx_ddos (v : bool) (s : state) : state :=
  mk_state (ret s) (nb_test_tried s) (nb_test_failed s) (stress_minutes s)
    (auto_bypass s) (cf_rounds s) (test_status s) (do_fuzz s) (do_stress s)
    (do_cnx_stress s) v (do_cf_fuzz s) (disable_debug s) (retry_failed_test s)
    (cnx_stress_minutes s) (cnx_stress_nb_cnx s) (cnx_ddos_packets s)
    (cnx_ddos_interval s) (first_test s) (last_test s) (cnx_ddos_dir s) (optind
    s) (optarg s) (nextchar s) (world s) (trace s).
Definition set_do_cf_fuzz (v : bool) (s : state) : state :=
  mk_state (ret s) (nb_test_tried s) (nb_test_failed s) (stress_minutes s)
    (auto_bypass s) (cf_rounds s) (test_status s) (do_fuzz s) (do_stress s)
    (do_cnx_stress s) (do_cnx_ddos s) v (disable_debug s) (retry_failed_test s)
    (cnx_stress_minutes s) (cnx_stress_nb_cnx s) (cnx_ddos_packets s)
    (cnx_ddos_interval s) (first_test s) (last_test s) (cnx_ddos_dir s) (optind
    s) (optarg s) (nextchar s) (world s) (trace s).
Definition set_disable_debug (v : bool) (s : state) : state :=
  mk_state (ret s) (nb_test_tried s) (nb_test_failed s) (stress_minutes s)
    (auto_bypass s) (cf_rounds s) (test_status s) (do_fuzz s) (do_stress s)
    (do_cnx_stress s) (do_cnx_ddos s) (do_cf_fuzz s) v (retry_failed_test s)
    (cnx_stress_minutes s) (cnx_stress_nb_cnx s) (cnx_ddos_packets s)
    (cnx_ddos_interval s) (first_test s) (last_test s) (cnx_ddos_dir s) (optind
    s) (optarg s) (nextchar s) (world s) (trace s).
Definition set_retry_failed_test (v : bool) (s : state) : state :=
  mk_state (ret s) (nb_test_tried s) (nb_test_failed s) (stress_minutes s)
    (auto_bypass s) (cf_rounds s) (test_status s) (do_fuzz s) (do_stress s)
    (do_cnx_stress s) (do_cnx_ddos s) (do_cf_fuzz s) (disable_debug s) v
    (cnx_stress_minutes s) (cnx_stress_nb_cnx s) (cnx_ddos_packets s)
    (cnx_ddos_interval s) (first_test s) (last_test s) (cnx_ddos_dir s) (optind
    s) (optarg s) (nextchar s) (world s) (trace s).
Definition set_cnx_stress_minutes (v : Z) (s : state) : state :=
  mk_state (ret s) (nb_test_tried s) (nb_test_failed s) (stress_minutes s)
    (auto_bypass s) (cf_rounds s) (test_status s) (do_fuzz s) (do_stress s)
    (do_cnx_stress s) (do_cnx_ddos s) (do_cf_fuzz s) (disable_debug s)
    (retry_failed_test s) v (cnx_stress_nb_cnx s) (cnx_ddos_packets s)
    (cnx_ddos_interval s) (first_test s) (last_test s) (cnx_ddos_dir s) (optind
    s) (optarg s) (nextchar s) (world s) (trace s).
Definition set_cnx_stress_nb_cnx (v : Z) (s : state) : state :=
  mk_state (ret s) (nb_test_tried s) (nb_test_failed s) (stress_minutes s)
    (auto_bypass s) (cf_rounds s) (test_status s) (do_fuzz s) (do_stress s)
    (do_cnx_stress s) (do_cnx_ddos s) (do_cf_fuzz s) (disable_debug s)
    (retry_failed_test s) (cnx_stress_minutes s) v (cnx_ddos_packets s)
    (cnx_ddos_interval s) (first_test s) (last_test s) (cnx_ddos_dir s) (optind
    s) (optarg s) (nextchar s) (world s) (trace s).
Definition set_cnx_ddos_packets (v : Z) (s : state) : state :=
  mk_state (ret s) (nb_test_tried s) (nb_test_failed s) (stress_minutes s)
    (auto_bypass s) (cf_rounds s) (test_status s) (do_fuzz s) (do_stress s)
    (do_cnx_stress s) (do_cnx_ddos s) (do_cf_fuzz s) (disable_debug s)
    (retry_failed_test s) (cnx_stress_minutes s) (cnx_stress_nb_cnx s) v
    (cnx_ddos_interval s) (first_test s) (last_test s) (cnx_ddos_dir s) (optind
    s) (optarg s) (nextchar s) (world s) (trace s).
Definition set_cnx_ddos_interval (v : Z) (s : state) : state :=
  mk_state (ret s) (nb_test_tried s) (nb_test_failed s) (stress_minutes s)
    (auto_bypass s) (cf_rounds s) (test_status s) (do_fuzz s) (do_stress s)
    (do_cnx_stress s) (do_cnx_ddos s) (do_cf_fuzz s) (disable_debug s)
    (retry_failed_test s) (cnx_stress_minutes s) (cnx_stress_nb_cnx s)
    (cnx_ddos_packets s) v (first_test s) (last_test s) (cnx_ddos_dir s) (optind
    s) (optarg s) (nextchar s) (world s) (trace s).
Definition set_first_test (v : Z) (s : state) : state :=
  mk_state (ret s) (nb_test_tried s) (nb_test_failed s) (stress_minutes s)
    (auto_bypass s) (cf_rounds s) (test_status s) (do_fuzz s) (do_stress s)
    (do_cnx_stress s) (do_cnx_ddos s) (do_cf_fuzz s) (disable_debug s)
    (retry_failed_test s) (cnx_stress_minutes s) (cnx_stress_nb_cnx s)
    (cnx_ddos_packets s) (cnx_ddos_interval s) v (last_test s) (cnx_ddos_dir s)
    (optind s) (optarg s) (nextchar s) (world s) (trace s).
Definition set_last_test (v : Z) (s : state) : state :=
  mk_state (ret s) (nb_test_tried s) (nb_test_failed s) (stress_minutes s)
    (auto_bypass s) (cf_rounds s) (test_status s) (do_fuzz s) (do_stress s)
    (do_cnx_stress s) (do_cnx_ddos s) (do_cf_fuzz s) (disable_debug s)
    (retry_failed_test s) (cnx_stress_minutes s) (cnx_stress_nb_cnx s)
    (cnx_ddos_packets s) (cnx_ddos_interval s) (first_test s) v (cnx_ddos_dir s)
    (optind s) (optarg s) (nextchar s) (world s) (trace s).
Definition set_cnx_ddos_dir (v : option string) (s : state) : state :=
  mk_state (ret s) (nb_test_tried s) (nb_test_failed s) (stress_minutes s)
    (auto_bypass s) (cf_rounds s) (test_status s) (do_fuzz s) (do_stress s)
    (do_cnx_stress s) (do_cnx_ddos s) (do_cf_fuzz s) (disable_debug s)
    (retry_failed_test s) (cnx_stress_minutes s) (cnx_stress_nb_cnx s)
    (cnx_ddos_packets s) (cnx_ddos_interval s) (first_test s) (last_test s) v
    (optind s) (optarg s) (nextchar s) (world s) (trace s).
Definition set_optind (v : nat) (s : state) : state :=
  mk_state (ret s) (nb_test_tried s) (nb_test_failed s) (stress_minutes s)
    (auto_bypass s) (cf_rounds s) (test_status s) (do_fuzz s) (do_stress s)
    (do_cnx_stress s) (do_cnx_ddos s) (do_cf_fuzz s) (disable_debug s)
    (retry_failed_test s) (cnx_stress_minutes s) (cnx_stress_nb_cnx s)
    (cnx_ddos_packets s) (cnx_ddos_interval s) (first_test s) (last_test s)
    (cnx_ddos_dir s) v (optarg s) (nextchar s) (world s) (trace s).
Definition set_optarg (v : option string) (s : state) : state :=
  mk_state (ret s) (nb_test_tried s) (nb_test_failed s) (stress_minutes s)
    (auto_bypass s) (cf_rounds s) (test_status s) (do_fuzz s) (do_stress s)
    (do_cnx_stress s) (do_cnx_ddos s) (do_cf_fuzz s) (disable_debug s)
    (retry_failed_test s) (cnx_stress_minutes s) (cnx_stress_nb_cnx s)
    (cnx_ddos_packets s) (cnx_ddos_interval s) (first_test s) (last_test s)
    (cnx_ddos_dir s) (optind s) v (nextchar s) (world s) (trace s).
Definition set_nextchar (v : nat) (s : state) : state :=
  mk_state (ret s) (nb_test_tried s) (nb_test_failed s) (stress_minutes s)
    (auto_bypass s) (cf_rounds s) (test_status s) (do_fuzz s) (do_stress s)
    (do_cnx_stress s) (do_cnx_ddos s) (do_cf_fuzz s) (disable_debug s)
    (retry_failed_test s) (cnx_stress_minutes s) (cnx_stress_nb_cnx s)
    (cnx_ddos_packets s) (cnx_ddos_interval s) (first_test s) (last_test s)
    (cnx_ddos_dir s) (optind s) (optarg s) v (world s) (trace s).
Definition set_world (v : World) (s : state) : state :=
  mk_state (ret s) (nb_test_tried s) (nb_test_failed s) (stress_minutes s)
    (auto_bypass s) (cf_rounds s) (test_status s) (do_fuzz s) (do_stress s)
    (do_cnx_stress s) (do_cnx_ddos s) (do_cf_fuzz s) (disable_debug s)
    (retry_failed_test s) (cnx_stress_minutes s) (cnx_stress_nb_cnx s)
    (cnx_ddos_packets s) (cnx_ddos_interval s) (first_test s) (last_test s)
    (cnx_ddos_dir s) (optind s) (optarg s) (nextchar s) v (trace s).
Definition set_trace (v : list event) (s : state) : state :=
  mk_state (ret s) (nb_test_tried s) (nb_test_failed s) (stress_minutes s)
    (auto_bypass s) (cf_rounds s) (test_status s) (do_fuzz s) (do_stress s)
    (do_cnx_stress s) (do_cnx_ddos s) (do_cf_fuzz s) (disable_debug s)
    (retry_failed_test s) (cnx_stress_minutes s) (cnx_stress_nb_cnx s)
    (cnx_ddos_packets s) (cnx_ddos_interval s) (first_test s) (last_test s)
    (cnx_ddos_dir s) (optind s) (optarg s) (nextchar s) (world s) v.

Definition emit (evs : list event) (s : state) : state :=
  set_trace (trace s ++ evs) s.

Definition fprintf (F : FILE) (text : string) (s : state) : state :=
  emit [ev_fprintf F text] s.

(** [test_status[i] = v] *)
Definition set_status (i : nat) (v : test_status_t) (s : state) : state :=
  set_test_status (<[i := v]> (test_status s)) s.

(** The registry, [test_table] (picoquic_sp.c:56).  The source fills it
    with the four DTN tests (see [dtn_test_table] below); the harness itself
    only relies on it being a table of named tests. *)
Variable test_table : list (picoquic_test_def_t World).

Definition nb_tests : nat := length test_table.

(** [do_one_test] (picoquic_sp.c:65). *)
Definition do_one_test (i : nat) (F : FILE) (s : state) : Z * state :=
  match test_table !! i with
  | None =>
      ((-1)%Z, fprintf F ("Invalid test number " +:+ dec_size i +:+ nl) s)
  | Some d =>
      let s1 :=
        fprintf F ("Starting test number " +:+ dec_size i +:+ ", "
                   +:+ test_name d +:+ nl) s in
      let '(r, w) := test_fn d (world s1) in
      let s2 := emit [ev_test_fn i r] (set_world w s1) in
      if (r =? 0)%Z
      then (r, fprintf F ("    Success." +:+ nl) s2)
      else (r, fprintf F ("    Fails, error: " +:+ dec_int r +:+ "." +:+ nl) s2)
  end.

(** The name lines of [usage]: both the outer and the inner loop advance
    [x], so after each row of four names one name is stepped over. *)
Fixpoint usage_names (names : list string) : list event :=
  match names with
  | [] => []
  | a :: l1 =>
      ev_fprintf stderr "    " :: ev_fprintf stderr (a +:+ ", ") ::
      match l1 with
      | [] => [ev_fprintf stderr nl]
      | b :: l2 =>
          ev_fprintf stderr (b +:+ ", ") ::
          match l2 with
          | [] => [ev_fprintf stderr nl]
          | c :: l3 =>
              ev_fprintf stderr (c +:+ ", ") ::
              match l3 with
              | [] => [ev_fprintf stderr nl]
              | d :: l4 =>
                  ev_fprintf stderr (d +:+ ", ") :: ev_fprintf stderr nl ::
                  match l4 with
                  | [] => []
                  | _ :: l5 => usage_names l5
                  end
              end
          end
      end
  end.

(** What [usage] writes (picoquic_sp.c:90). *)
Definition usage_text (argv0 : string) : list event :=
  [ ev_fprintf stderr ("PicoQUIC test execution" +:+ nl);
    ev_fprintf stderr
      ("Usage: picoquic_ct [-x <excluded>] [<list of tests]" +:+ nl);
    ev_fprintf stderr
      (nl +:+ "Usage: " +:+ argv0 +:+ " [test1 [test2 ..[testN]]]" +:+ nl +:+ nl);
    ev_fprintf stderr ("   Or: " +:+ argv0 +:+ " [-x test]*");
    ev_fprintf stderr ("Valid test names are: " +:+ nl) ]
  ++ usage_names (map test_name test_table) ++
  [ ev_fprintf stderr ("Options: " +:+ nl);
    ev_fprintf stderr
      ("  -x test           Do not run the specified test." +:+ nl);
    ev_fprintf stderr
      "  -o n1 n2          Only run test numbers in range [n1,n2]";
    ev_fprintf stderr ("  -s nnn            Run stress for nnn minutes." +:+ nl);
    ev_fprintf stderr ("  -f nnn            Run fuzz for nnn minutes." +:+ nl);
    ev_fprintf stderr
      ("  -c nnn ccc        Run connection stress for nnn minutes, ccc connections."
       +:+ nl);
    ev_fprintf stderr
      ("  -d ppp uuu dir    Run connection ddoss for ppp packets, uuu usec intervals,"
       +:+ nl);
    ev_fprintf stderr
      ("  -F nnn            Run the corrupt file fuzzer nnn times," +:+ nl);
    ev_fprintf stderr
      ("                    logs in dir. No logs if dir=" +:+ dquote +:+ "-"
       +:+ dquote);
    ev_fprintf stderr ("  -n                Disable debug prints." +:+ nl);
    ev_fprintf stderr
      ("  -r                Retry failed tests with debug print enabled." +:+ nl);
    ev_fprintf stderr ("  -h                Print this help message" +:+ nl);
    ev_fprintf stderr
      ("  -S solution_dir   Set the path to the source files to find the default files"
       +:+ nl) ].

(** [usage] (picoquic_sp.c:90): writes the help text, returns -1. *)
Definition usage (argv0 : string) (s : state) : Z * state :=
  ((-1)%Z, emit (usage_text argv0) s).

(** [get_test_number] (picoquic_sp.c:122): the loop does not stop at the
    first match, so the last entry carrying the name wins. *)
Fixpoint get_test_number_from (i : nat)
    (table : list (picoquic_test_def_t World)) (name : string)
    (test_number : Z) : Z :=
  match table with
  | [] => test_number
  | d :: rest =>
      get_test_number_from (S i) rest name
        (if String.eqb name (test_name d) then Z.of_nat i else test_number)
  end.

Definition get_test_number (name : string) : Z :=
  get_test_number_from 0 test_table name (-1).

(** [ret = usage(argv[0])] *)
Definition ret_usage (argv : list string) (s : state) : state :=
  let '(r, s1) := usage (show_ptr (argv !! 0)) s in set_ret r s1.

(** ** Option scanning *)

(** One call of [getopt(argc, argv, optstring)]: the option character
    returned ([None] for -1) and the updated [optind], [optarg] and cursor.
    An unknown option character or a missing argument yields ['?'] and a
    diagnostic of libc's own on [stderr]. *)
Definition getopt (argv : list string) (s0 : state) : option ascii * state :=
  let s := set_optarg None s0 in
  match argv !! optind s with
  | None => (None, s)
  | Some tok =>
      if (nextchar s =? 0) && negb (is_option_token tok) then (None, s)
      else if (nextchar s =? 0) && String.eqb tok "--"
      then (None, set_optind (S (optind s)) s)
      else
        let pos := if nextchar s =? 0 then 1 else nextchar s in
        match String.get pos tok with
        | None => (None, s)
        | Some c =>
            let last := String.length tok <=? S pos in
            let next_token x := set_nextchar 0 (set_optind (S (optind x)) x) in
            let advance x := if last then next_token x else set_nextchar (S pos) x in
            match optstring_lookup c optstring with
            | None => (Some "?"%char, advance (emit [ev_getopt_diagnostic c] s))
            | Some false => (Some c, advance s)
            | Some true =>
                if last then
                  match argv !! S (optind s) with
                  | Some a =>
                      (Some c,
                       set_nextchar 0
                         (set_optind (2 + optind s) (set_optarg (Some a) s)))
                  | None =>
                      (Some "?"%char,
                       next_token (emit [ev_getopt_diagnostic c] s))
                  end
                else
                  (Some c,
                   next_token
                     (set_optarg
                        (Some (substring (S pos) (String.length tok - S pos) tok))
                        s))
            end
        end
  end.

(** The scan of one [-x] group (picoquic_sp.c:178): [tokens] is
    [argv] from [optind] on. *)
Fixpoint exclude_loop (argv tokens : list string) (s : state) : state :=
  match tokens with
  | [] => s
  | tn :: rest =>
      if starts_with_dash tn then s
      else
        let test_number := get_test_number tn in
        let s1 :=
          if (test_number <? 0)%Z
          then ret_usage argv
                 (fprintf stderr ("Incorrect test name: " +:+ tn +:+ nl) s)
          else set_status (Z.to_nat test_number) test_excluded s in
        exclude_loop argv rest (set_optind (S (optind s1)) s1)
  end.

(** [case 'x'] *)
Definition option_x (argv : list string) (s : state) : outcome state :=
  let s1 := set_optind (optind s - 1) s in
  Normal (exclude_loop argv (drop (optind s1) argv) s1).

(** [case 'o'] *)
Definition option_o (argv : list string) (s : state) : outcome state :=
  if length argv <? optind s + 1 then
    Normal (ret_usage argv
              (fprintf stderr ("option requires more arguments -- o" +:+ nl) s))
  else
    match optarg s, argv !! optind s with
    | Some a, Some b =>
        let i_first_test := atoi a in
        let i_last_test := atoi b in
        let s1 := set_optind (S (optind s)) s in
        if (i_first_test <? 0)%Z || (i_last_test <? 0)%Z then
          Normal (ret_usage argv
                    (fprintf stderr
                       ("Incorrect first/last: " +:+ a +:+ " " +:+ b +:+ nl) s1))
        else
          Normal (set_last_test i_last_test (set_first_test i_first_test s1))
    | _, _ => Undefined s
    end.

(** [case 'f'] and [case 's'] differ in the flag they raise only. *)
Definition option_minutes (argv : list string) (raise : state -> state)
    (s : state) : outcome state :=
  let s1 := raise s in
  match optarg s1 with
  | None => Undefined s1
  | Some a =>
      let s2 := set_stress_minutes (atoi a) s1 in
      if (stress_minutes s2 <=? 0)%Z then
        Normal (ret_usage argv
                  (fprintf stderr ("Incorrect stress minutes: " +:+ a +:+ nl) s2))
      else Normal s2
  end.

(** [case 'F'] *)
Definition option_F (argv : list string) (s : state) : outcome state :=
  let s1 := set_do_cf_fuzz true s in
  match optarg s1 with
  | None => Undefined s1
  | Some a =>
      let s2 := set_cf_rounds (atoi a) s1 in
      if (cf_rounds s2 <=? 0)%Z then
        Normal (ret_usage argv
                  (fprintf stderr
                     ("Incorrect number of cf_fuzz rounds: " +:+ a +:+ nl) s2))
      else Normal s2
  end.

(** [case 'c']: the missing-argument test does not stop the case, so
    [atoi(argv[optind++])] reads [argv[argc]], which is NULL. *)
Definition option_c (argv : list string) (s : state) : outcome state :=
  let s1 :=
    if length argv <? optind s + 1
    then ret_usage argv
           (fprintf stderr ("option requires more arguments -- c" +:+ nl) s)
    else s in
  let s2 := set_do_cnx_stress true s1 in
  match optarg s2, argv !! optind s2 with
  | Some a, Some b =>
      let s3 :=
        set_optind (S (optind s2))
          (set_cnx_stress_nb_cnx (atoi b) (set_cnx_stress_minutes (atoi a) s2)) in
      if (cnx_stress_minutes s3 <=? 0)%Z then
        Normal (ret_usage argv
                  (fprintf stderr ("Incorrect cnx stress minutes: " +:+ a +:+ nl) s3))
      else if (cnx_stress_nb_cnx s3 <? 0)%Z then
        Normal (ret_usage argv
                  (fprintf stderr
                     ("Incorrect cnx stress number of connections: " +:+ b +:+ nl)
                     s3))
      else Normal s3
  | _, _ => Undefined s2
  end.

(** [case 'd']: as in [case 'c'] the argument count is reported but not
    acted upon; [argv[argc]] may be read as the (NULL) directory.  The
    second test looks at [cnx_stress_nb_cnx], as the source does. *)
Definition option_d (argv : list string) (s : state) : outcome state :=
  let s1 :=
    if length argv <? optind s + 2
    then ret_usage argv
           (fprintf stderr ("option requires more arguments -- c" +:+ nl) s)
    else s in
  let s2 := set_do_cnx_ddos true s1 in
  match optarg s2, argv !! optind s2 with
  | Some a, Some b =>
      let s3 :=
        set_optind (2 + optind s2)
          (set_cnx_ddos_dir (argv !! S (optind s2))
             (set_cnx_ddos_interval (atoi b) (set_cnx_ddos_packets (atoi a) s2))) in
      if (cnx_ddos_packets s3 <=? 0)%Z then
        Normal (ret_usage argv
                  (fprintf stderr ("Incorrect cnx ddos packets: " +:+ a +:+ nl) s3))
      else if (cnx_stress_nb_cnx s3 <? 0)%Z then
        Normal (ret_usage argv
                  (fprintf stderr
                     ("Incorrect cnx ddos interval: "
                      +:+ show_ptr (cnx_ddos_dir s3) +:+ nl) s3))
      else Normal s3
  | _, _ => Undefined s2
  end.

(** [case 'S'] *)
Definition option_S (s : state) : outcome state :=
  match optarg s with
  | Some dir => Normal (emit [ev_picoquic_set_solution_dir dir] s)
  | None => Undefined s
  end.

(** The [switch (opt)] of the option loop (picoquic_sp.c:175). *)
Definition handle_option (argv : list string) (opt : ascii) (s : state)
    : outcome state :=
  if Ascii.eqb opt "x" then option_x argv s
  else if Ascii.eqb opt "o" then option_o argv s
  else if Ascii.eqb opt "f" then option_minutes argv (set_do_fuzz true) s
  else if Ascii.eqb opt "F" then option_F argv s
  else if Ascii.eqb opt "s" then option_minutes argv (set_do_stress true) s
  else if Ascii.eqb opt "c" then option_c argv s
  else if Ascii.eqb opt "d" then option_d argv s
  else if Ascii.eqb opt "S" then option_S s
  else if Ascii.eqb opt "n" then Normal (set_disable_debug true s)
  else if Ascii.eqb opt "r" then Normal (set_retry_failed_test true s)
  else if Ascii.eqb opt "h"
  then Exited 0 (snd (usage (show_ptr (argv !! 0)) s))
  else Normal (ret_usage argv s).

(** [while (ret == 0 && (opt = getopt(...)) != -1) switch ...]
    (picoquic_sp.c:174).  A [-x] with its argument attached ("-xname")
    is read again and again, so the loop is run on fuel; [None] is fuel
    running out. *)
Fixpoint option_loop (fuel : nat) (argv : list string) (s : state)
    : option (outcome state) :=
  match fuel with
  | 0 => None
  | S fuel' =>
      if (ret s =? 0)%Z then
        match getopt argv s with
        | (None, s1) => Some (Normal s1)
        | (Some opt, s1) =>
            match handle_option argv opt s1 with
            | Normal s2 => option_loop fuel' argv s2
            | Exited code s2 => Some (Exited code s2)
            | Undefined s2 => Some (Undefined s2)
            end
        end
      else Some (Normal s)
  end.

(** ** Selection resolver *)

(** [for (i = 0; i < nb_tests; i++) test_status[i] = test_excluded;] *)
Definition exclude_all (s : state) : state :=
  for_loop nb_tests (fun i acc => set_status i test_excluded acc) s.

(** If one of the stressers was specified, do not run any other test by
    default (picoquic_sp.c:293). *)
Definition stresser_bypass (s : state) : state :=
  if do_stress s || do_fuzz s || do_cnx_stress s || do_cnx_ddos s
     || do_cf_fuzz s
  then exclude_all (set_auto_bypass true s)
  else s.

(** The scan of the trailing list (picoquic_sp.c:307); [names] is [argv]
    from [optind] on.  The message shows [optarg], not the name. *)
Fixpoint select_loop (argv names : list string) (s : state) : state :=
  match names with
  | [] => s
  | name :: rest =>
      let test_number := get_test_number name in
      let s1 :=
        if (test_number <? 0)%Z
        then ret_usage argv
               (fprintf stderr
                  ("Incorrect test name: " +:+ show_ptr (optarg s) +:+ nl) s)
        else set_status (Z.to_nat test_number) test_not_run s in
      select_loop argv rest (set_optind (S (optind s1)) s1)
  end.

(** If the argument list ends with a list of selected tests, mark all other
    tests as excluded (picoquic_sp.c:301). *)
Definition select_listed (argv : list string) (s : state) : state :=
  if optind s <? length argv
  then select_loop argv (drop (optind s) argv)
         (exclude_all (set_auto_bypass true s))
  else s.

Definition select_tests (argv : list string) (s : state) : state :=
  select_listed argv (stresser_bypass s).

(** picoquic_sp.c:321 *)
Definition set_debug (s : state) : state :=
  if disable_debug s
  then emit [ev_debug_printf_suspend] s
  else emit [ev_debug_printf_resume] s.

(** ** Executor *)

(** [i >= first_test && i <= last_test] *)
Definition in_range (i : nat) (s : state) : bool :=
  (first_test s <=? Z.of_nat i)%Z && (Z.of_nat i <=? last_test s)%Z.

(** The body of the sweep loop (picoquic_sp.c:331). *)
Definition sweep_step (i : nat) (s : state) : state :=
  match test_status s !! i with
  | Some test_not_run =>
      let s1 := set_nb_test_tried (nb_test_tried s + 1) s in
      if in_range i s1 then
        let '(r, s2) := do_one_test i stdout s1 in
        if (r =? 0)%Z
        then set_status i test_success s2
        else set_ret (-1)
               (set_nb_test_failed (nb_test_failed s2 + 1)
                  (set_status i test_failed s2))
      else set_status i test_success s1
  | Some test_excluded =>
      if negb (auto_bypass s) then
        match test_table !! i with
        | Some d =>
            fprintf stdout
              ("Test number " +:+ dec_int (Z.of_nat i) +:+ " ("
               +:+ test_name d +:+ ") is bypassed." +:+ nl) s
        | None => s
        end
      else s
  | _ => s
  end.

(** Execute now all the tests that were not excluded (picoquic_sp.c:328). *)
Definition sweep (s : state) : state :=
  if (ret s =? 0)%Z then for_loop nb_tests sweep_step s else s.

(** ** Reporter and retrier *)

(** The word after the failure count: ["fail%s"] with
    [(nb_test_failed > 1) ? "" : "s"]. *)
Definition fail_word (failed : Z) : string :=
  "fail" +:+ (if (1 <? failed)%Z then "" else "s").

Definition summary_line (tried failed : Z) : string :=
  "Tried " +:+ dec_int tried +:+ " tests, " +:+ dec_int failed +:+ " "
  +:+ fail_word failed +:+ "." +:+ nl.

(** [for (i...) if (test_status[i] == test_failed) fprintf(stdout, "%s ", name)] *)
Definition print_failed_step (i : nat) (s : state) : state :=
  match test_status s !! i, test_table !! i with
  | Some test_failed, Some d => fprintf stdout (test_name d +:+ " ") s
  | _, _ => s
  end.

(** The names that are refused a second run (picoquic_sp.c:370). *)
Definition cannot_retry (name : string) : bool :=
  String.eqb "stress" name || String.eqb "fuzz" name
  || String.eqb "fuzz_initial" name || String.eqb name "cnx_stress"
  || String.eqb name "cnx_ddos" || String.eqb name "eccf_corrupted_fuzz".

(** The body of the retry loop (picoquic_sp.c:369). *)
Definition retry_step (i : nat) (s : state) : state :=
  match test_status s !! i, test_table !! i with
  | Some test_failed, Some d =>
      if cannot_retry (test_name d) then
        set_ret (-1)
          (fprintf stdout ("Cannot retry " +:+ test_name d +:+ ":" +:+ nl) s)
      else
        let s1 := fprintf stdout ("Retrying " +:+ test_name d +:+ ":" +:+ nl) s in
        let '(r, s2) := do_one_test i stdout s1 in
        if (r =? 0)%Z
        then set_status i test_success s2
        else set_ret (-1) (set_status i test_failed s2)
  | _, _ => s
  end.

Definition retry_pass (s : state) : state :=
  for_loop nb_tests retry_step s.

(** picoquic_sp.c:365-405 *)
Definition retry_failed (s : state) : state :=
  if disable_debug s && retry_failed_test s then
    let s1 := set_ret 0 (emit [ev_debug_printf_resume] s) in
    let s2 := retry_pass s1 in
    if (ret s2 =? 0)%Z then
      fprintf stdout ("All tests pass after second try." +:+ nl) s2
    else
      fprintf stdout nl
        (for_loop nb_tests print_failed_step
           (fprintf stdout "Still failing: " s2))
  else s.

(** Report status, and if specified retry (picoquic_sp.c:348-406). *)
Definition report (s : state) : state :=
  let s1 :=
    if (1 <? nb_test_tried s)%Z
    then fprintf stdout (summary_line (nb_test_tried s) (nb_test_failed s)) s
    else s in
  if (0 <? nb_test_failed s1)%Z then
    retry_failed
      (fprintf stdout nl
         (for_loop nb_tests print_failed_step
            (fprintf stdout "Failed test(s): " s1)))
  else s1.

(** ** [main] *)

(** The variables as [main] declares them, [calloc]'s zeroed table, and
    libc's [optind = 1]. *)
Definition initial_state (w : World) : state :=
  mk_state 0 0 0 0 false 0 (replicate nb_tests test_not_run)
    false false false false false false false 0 0 0 0 0 10000 None
    1 None 0 w [].

(** The state in which option scanning starts (picoquic_sp.c:161-172). *)
Definition entry_state (w : World) : state :=
  emit [ev_debug_printf_push_stream stderr;
        ev_picoquic_set_solution_dir DEFAULT_PICOQUIC_DIR]
    (initial_state w).

(** Everything from the end of option scanning to [return (ret)]. *)
Definition run_selected (argv : list string) (s : state) : state :=
  report (sweep (set_debug (select_tests argv s))).

(** [main] (picoquic_sp.c:135).  [calloc_ok] says whether the status table
    could be allocated.  [Normal s] is [return (ret s)]; the [test_status]
    of [s] is the table as it is when it is freed. *)
Definition main (calloc_ok : bool) (fuel : nat) (argv : list string)
    (w : World) : option (outcome state) :=
  let s0 := entry_state w in
  if calloc_ok then
    match option_loop fuel argv s0 with
    | Some (Normal s1) => Some (Normal (run_selected argv s1))
    | other => other
    end
  else
    Some (Normal (set_ret (-1)
                    (fprintf stderr ("Could not allocate memory." +:+ nl) s0))).

(** The exit status of the process. *)
Definition exit_status (o : outcome state) : option Z :=
  match o with
  | Normal s => Some (ret s)
  | Exited code _ => Some code
  | Undefined _ => None
  end.

End Harness.

Arguments state : clear implicits.

(** ** The registry of the source, and test bodies to run it on *)

(** [test_table] as picoquic_sp.c:56 fills it; the four bodies are defined
    outside this repository. *)
Definition dtn_test_table {World : Type}
    (dtn_basic_test dtn_data_test dtn_silence_test dtn_twenty_test
       : World -> Z * World) : list (picoquic_test_def_t World) :=
  [ mk_test_def "dtn_basic" dtn_basic_test;
    mk_test_def "dtn_data" dtn_data_test;
    mk_test_def "dtn_silence" dtn_silence_test;
    mk_test_def "dtn_twenty" dtn_twenty_test ].

(** Sample bodies over a world that counts the test calls made so far:
    a test that passes, one that fails with a given code, and one that
    fails with that code until [after] calls have been made. *)
Definition passes (w : nat) : Z * nat := (0%Z, S w).
Definition fails (code : Z) (w : nat) : Z * nat := (code, S w).
Definition heisenbug (code : Z) (after : nat) (w : nat) : Z * nat :=
  (if w <? after then code else 0%Z, S w).

Definition all_pass : list (picoquic_test_def_t nat) :=
  dtn_test_table passes passes passes passes.

(** The test calls of a trace, in order. *)
Definition calls_of (tr : list event) : list (nat * Z) :=
  omap (fun e => match e with ev_test_fn i r => Some (i, r) | _ => None end) tr.

(** The calls of test [i] in a trace, with their results, and their number. *)
Definition calls_to (i : nat) (tr : list event) : list (nat * Z) :=
  filter (fun c => fst c = i) (calls_of tr).

Definition calls (i : nat) (tr : list event) : nat := length (calls_to i tr).

(** The lines written to a stream, concatenated. *)
Definition written (F : FILE) (tr : list event) : string :=
  foldr (fun e acc =>
           match e, F with
           | ev_fprintf stdout text, stdout => text +:+ acc
           | ev_fprintf stderr text, stderr => text +:+ acc
           | _, _ => acc
           end) EmptyString tr.

Global Instance test_status_eq_dec : EqDecision test_status_t.
Proof. solve_decision. Defined.

(** The number of [test_not_run] entries of a status table. *)
Definition not_run_count (l : list test_status_t) : Z :=
  Z.of_nat (length (filter (fun v => v = test_not_run) l)).

(** The "bypassed" notices of the sweep (picoquic_sp.c:343). *)
Definition is_bypass_notice (e : event) : bool :=
  match e with
  | ev_fprintf stdout text => String.prefix "Test number " text
  | _ => false
  end.

(** The names the retry pass refuses, as a list. *)
Definition non_retryable : list string :=
  ["stress"; "fuzz"; "fuzz_initial"; "cnx_stress"; "cnx_ddos";
   "eccf_corrupted_fuzz"].


(** ** Sample runs *)

(** The state in which option scanning ends, and the state in which the
    sweep ends, for runs that reach them. *)
Definition scanned {World : Type} (tt : list (picoquic_test_def_t World))
    (fuel : nat) (argv : list string) (w : World) : state World :=
  match option_loop tt fuel argv (entry_state tt w) with
  | Some (Normal s1) => s1
  | _ => entry_state tt w
  end.

Definition swept {World : Type} (tt : list (picoquic_test_def_t World))
    (fuel : nat) (argv : list string) (w : World) : state World :=
  sweep tt (set_debug (select_tests tt argv (scanned tt fuel argv w))).

(** A registry holding a test named as one of the stressers, which fails. *)
Definition stress_table : list (picoquic_test_def_t nat) :=
  [ mk_test_def "dtn_basic" passes; mk_test_def "stress" (fails 7) ].

(** The DTN registry with a second test that fails on its first run only. *)
Definition flaky_table : list (picoquic_test_def_t nat) :=
  dtn_test_table passes (heisenbug 3 4) passes passes.

Definition argv_plain : list string := ["picoquic_sp"].
Definition argv_retry : list string := ["picoquic_sp"; "-n"; "-r"].
Definition argv_range : list string := ["picoquic_sp"; "-o"; "1"; "2"].
Definition argv_empty_range : list string := ["picoquic_sp"; "-o"; "2"; "1"].
Definition argv_range_list : list string :=
  ["picoquic_sp"; "-o"; "1"; "2"; "dtn_basic"].
Definition argv_exclude_then_list : list string :=
  ["picoquic_sp"; "-x"; "dtn_basic"; "-n"; "dtn_basic"].
Definition argv_help_first : list string :=
  ["picoquic_sp"; "-h"; "-x"; "nosuch"].

(** ** Vocabulary of the statements *)

(** The tokens a [-x] scans when [tokens] follow it: those before the first
    token that starts with a dash. *)
Fixpoint x_group (tokens : list string) : list string :=
  match tokens with
  | [] => []
  | tn :: rest => if starts_with_dash tn then [] else tn :: x_group rest
  end.

Section Vocabulary.
Context {World : Type} (tt : list (picoquic_test_def_t World)).

(** The variables no iteration of the sweep assigns. *)
Definition same_config (s s' : state World) : Prop :=
  first_test s' = first_test s /\ last_test s' = last_test s /\
  auto_bypass s' = auto_bypass s /\ disable_debug s' = disable_debug s /\
  retry_failed_test s' = retry_failed_test s.

(** The variables the retry pass does not assign. *)
Definition same_counts (s s' : state World) : Prop :=
  nb_test_tried s' = nb_test_tried s /\ nb_test_failed s' = nb_test_failed s /\
  disable_debug s' = disable_debug s /\
  retry_failed_test s' = retry_failed_test s.

(** The states agree on every variable; only what has been written may
    differ. *)
Definition same_vars (s s' : state World) : Prop :=
  set_trace [] s' = set_trace [] s.

(** The states agree on every variable but the status table and [optind]. *)
Definition same_but_selection (s s' : state World) : Prop :=
  set_optind 0 (set_test_status [] s') = set_optind 0 (set_test_status [] s).

(** From [s] to [s'] no test was tried, failed or called, and the status
    table kept its size. *)
Definition quiet (s s' : state World) : Prop :=
  nb_test_tried s' = nb_test_tried s /\ nb_test_failed s' = nb_test_failed s /\
  length (test_status s') = length (test_status s) /\
  world s' = world s /\
  exists new, trace s' = trace s ++ new /\ calls_of new = [].

(** The help text of [usage] is part of what has been written. *)
Definition usage_printed (argv : list string) (tr : list event) : Prop :=
  exists before after,
    tr = before ++ usage_text tt (show_ptr (argv !! 0)) ++ after.

(** From [s] to [f] the only entries that changed were [test_failed] and
    became [test_success]; the table kept its size, the two counters their
    values, and what had been written stayed written. *)
Definition only_clears_failures (s f : state World) : Prop :=
  (forall i v, test_status s !! i = Some v -> v <> test_failed ->
               test_status f !! i = Some v) /\
  (forall i, test_status s !! i = Some test_failed ->
             test_status f !! i = Some test_failed \/
             test_status f !! i = Some test_success) /\
  (forall i, test_status s !! i = None -> test_status f !! i = None) /\
  nb_test_tried f = nb_test_tried s /\
  nb_test_failed f = nb_test_failed s /\
  exists new, trace f = trace s ++ new.

(** The states in which the condition of the option loop is evaluated,
    for the command line [argv] and the initial world [w]. *)
Inductive loop_head (argv : list string) (w : World) : state World -> Prop :=
| loop_head_entry : loop_head argv w (entry_state tt w)
| loop_head_next (s s1 s2 : state World) (opt : ascii) :
    loop_head argv w s -> ret s = 0%Z ->
    getopt argv s = (Some opt, s1) ->
    handle_option tt argv opt s1 = Normal s2 ->
    loop_head argv w s2.


(** What one iteration of the sweep does at its own index. *)
Inductive sweep_effect (j : nat) (s s' : state World) : Prop :=
| sweep_skip :
    test_status s !! j <> Some test_not_run ->
    test_status s' = test_status s -> nb_test_tried s' = nb_test_tried s ->
    nb_test_failed s' = nb_test_failed s -> ret s' = ret s ->
    world s' = world s ->
    (exists new, trace s' = trace s ++ new /\ calls_of new = [] /\
       (auto_bypass s = true \/ test_status s !! j <> Some test_excluded ->
        new = [])) ->
    sweep_effect j s s'
| sweep_out_of_range :
    test_status s !! j = Some test_not_run -> in_range j s = false ->
    test_status s' = <[j := test_success]> (test_status s) ->
    nb_test_tried s' = (nb_test_tried s + 1)%Z ->
    nb_test_failed s' = nb_test_failed s -> ret s' = ret s ->
    world s' = world s -> trace s' = trace s ->
    sweep_effect j s s'
| sweep_run (r : Z) (l1 l2 : string) :
    test_status s !! j = Some test_not_run -> in_range j s = true ->
    (exists d, tt !! j = Some d /\ test_fn d (world s) = (r, world s')) ->
    trace s' = trace s ++ [ev_fprintf stdout l1; ev_test_fn j r; ev_fprintf stdout l2] ->
    String.prefix "Test number " l1 = false ->
    String.prefix "Test number " l2 = false ->
    nb_test_tried s' = (nb_test_tried s + 1)%Z ->
    (r = 0%Z /\ test_status s' = <[j := test_success]> (test_status s) /\
       nb_test_failed s' = nb_test_failed s /\ ret s' = ret s
     \/ r <> 0%Z /\ test_status s' = <[j := test_failed]> (test_status s) /\
       nb_test_failed s' = (nb_test_failed s + 1)%Z /\ ret s' = (-1)%Z) ->
    sweep_effect j s s'.

(** What the whole sweep loop has done to entry [i]. *)
Definition entry_swept (i : nat) (s s' : state World) : Prop :=
  match test_status s !! i with
  | Some test_not_run =>
      if in_range i s then
        calls i (trace s') = calls i (trace s) + 1 /\
        (test_status s' !! i = Some test_success \/
         test_status s' !! i = Some test_failed)
      else
        calls i (trace s') = calls i (trace s) /\
        test_status s' !! i = Some test_success
  | v => calls i (trace s') = calls i (trace s) /\ test_status s' !! i = v
  end.

(** What one iteration of the retry loop does at its own index. *)
Inductive retry_effect (j : nat) (s s' : state World) : Prop :=
| retry_skip :
    test_status s !! j <> Some test_failed -> s' = s -> retry_effect j s s'
| retry_refused (d : picoquic_test_def_t World) (line : string) :
    test_status s !! j = Some test_failed -> tt !! j = Some d ->
    cannot_retry (test_name d) = true ->
    test_status s' = test_status s -> ret s' = (-1)%Z ->
    trace s' = trace s ++ [ev_fprintf stdout line] ->
    retry_effect j s s'
| retry_run (d : picoquic_test_def_t World) (r : Z) (l0 l1 l2 : string) :
    test_status s !! j = Some test_failed -> tt !! j = Some d ->
    cannot_retry (test_name d) = false ->
    test_fn d (world s) = (r, world s') ->
    trace s' = trace s ++ [ev_fprintf stdout l0; ev_fprintf stdout l1;
                           ev_test_fn j r; ev_fprintf stdout l2] ->
    (r = 0%Z /\ test_status s' = <[j := test_success]> (test_status s) /\
       ret s' = ret s
     \/ r <> 0%Z /\ test_status s' = <[j := test_failed]> (test_status s) /\
       ret s' = (-1)%Z) ->
    retry_effect j s s'.

(** The call records [cs] are those of the test functions themselves:
    starting from the world [w], each test recorded was applied to the
    world left by the calls before it and returned the result recorded;
    [w'] is the world left by the last call. *)
Fixpoint genuine (w : World) (cs : list (nat * Z)) (w' : World) : Prop :=
  match cs with
  | [] => w' = w
  | (i, r) :: rest =>
      exists d wa,
        tt !! i = Some d /\ test_fn d w = (r, wa) /\ genuine wa rest w'
  end.

End Vocabulary.

(** Reading a variable after a sequence of assignments. *)
Ltac st_simpl :=
  cbn [ret nb_test_tried nb_test_failed stress_minutes auto_bypass
       cf_rounds test_status do_fuzz do_stress do_cnx_stress do_cnx_ddos
       do_cf_fuzz disable_debug retry_failed_test cnx_stress_minutes
       cnx_stress_nb_cnx cnx_ddos_packets cnx_ddos_interval first_test
       last_test cnx_ddos_dir optind optarg nextchar world trace
       fprintf emit set_status
       set_ret set_nb_test_tried set_nb_test_failed set_stress_minutes
       set_auto_bypass set_cf_rounds set_test_status set_do_fuzz
       set_do_stress set_do_cnx_stress set_do_cnx_ddos set_do_cf_fuzz
       set_disable_debug set_retry_failed_test set_cnx_stress_minutes
       set_cnx_stress_nb_cnx set_cnx_ddos_packets set_cnx_ddos_interval
       set_first_test set_last_test set_cnx_ddos_dir set_optind set_optarg
       set_nextchar set_world set_trace] in *.

(** ** Vocabulary of the further properties *)

(** The last character of a string. *)
Definition last_char (s : string) : option ascii :=
  String.get (String.length s - 1) s.

(** The calls of a trace that returned a failure code. *)
Definition failures (cs : list (nat * Z)) : list (nat * Z) :=
  filter (fun c => snd c <> 0%Z) cs.

(** The entries the sweep runs: those selected and within the range. *)
Definition runs_in_sweep {World : Type} (s : state World) (i : nat) : Prop :=
  test_status s !! i = Some test_not_run /\ in_range i s = true.

Global Instance runs_in_sweep_dec {World : Type} (s : state World) (i : nat) :
  Decision (runs_in_sweep s i).
Proof. unfold runs_in_sweep. apply _. Defined.

(** The states agree on every variable of [main] and of libc; the world of
    the tests and what has been written may differ. *)
Definition same_locals {World : Type} (s s' : state World) : Prop :=
  set_world (world s) (set_trace [] s') = set_trace [] s.

(** The names of the entries that are [test_failed], in ordinal order,
    among the first [n] entries. *)
Definition failed_names {World : Type} (tt : list (picoquic_test_def_t World))
    (status : list test_status_t) (n : nat) : list string :=
  omap (fun i =>
          match status !! i, tt !! i with
          | Some test_failed, Some d => Some (test_name d)
          | _, _ => None
          end) (seq 0 n).

(** Entry [i] is run again by a retry pass that starts in [s]: it is
    [test_failed] and its name is not one the pass refuses. *)
Definition retried_in_pass {World : Type} (tt : list (picoquic_test_def_t World))
    (s : state World) (i : nat) : Prop :=
  test_status s !! i = Some test_failed /\
  match tt !! i with
  | Some d => cannot_retry (test_name d) = false
  | None => False
  end.

Global Instance retried_in_pass_dec {World : Type}
    (tt : list (picoquic_test_def_t World)) (s : state World) (i : nat) :
  Decision (retried_in_pass tt s i).
Proof. unfold retried_in_pass. destruct (tt !! i); apply _. Defined.

(** [ret] is 0, or it is -1 and the help text has been written. *)
Definition clean_or_usage {World : Type} (tt : list (picoquic_test_def_t World))
    (argv : list string) (s : state World) : Prop :=
  ret s = 0%Z \/ ret s = (-1)%Z /\ usage_printed tt argv (trace s).

(** A status that is not a result: the entry is selected or excluded. *)
Definition unsettled (v : test_status_t) : Prop :=
  v = test_not_run \/ v = test_excluded.

(** A registry of five tests, one more than the source's: the help text
    leaves out the fifth name. *)
Definition five_table : list (picoquic_test_def_t nat) :=
  all_pass ++ [mk_test_def "dtn_fifth" passes].

(** The state in which the sweep starts. *)
Definition selected {World : Type} (tt : list (picoquic_test_def_t World))
    (fuel : nat) (argv : list string) (w : World) : state World :=
  set_debug (select_tests tt argv (scanned tt fuel argv w)).

Definition argv_exclude_first : list string :=
  ["picoquic_sp"; "-x"; "dtn_basic"].
Definition argv_exclude_group : list string :=
  ["picoquic_sp"; "-x"; "dtn_basic"; "dtn_twenty"; "-n"].
Definition argv_short_range : list string := ["picoquic_sp"; "-o"; "1"].
Definition argv_short_cnx : list string := ["picoquic_sp"; "-c"; "5"].
Definition argv_attached : list string :=
  ["picoquic_sp"; "-xdtn_basic"; "dtn_data"].
Definition argv_ddos : list string :=
  ["picoquic_sp"; "-d"; "5"; "-7"; "dir"].

(** * Properties *)

(** ** Loops and traces *)

Lemma for_loop_S {S : Type} (n : nat) (body : nat -> S -> S) (s : S) :
  for_loop (Datatypes.S n) body s = body n (for_loop n body s).
Proof.
  unfold for_loop. rewrite seq_S, foldl_app. reflexivity.
Qed.

(** Loop invariants: [P k a] holds of the state [a] before iteration [k]. *)
Lemma for_loop_ind {S : Type} (P : nat -> S -> Prop) (n : nat)
    (body : nat -> S -> S) (s : S) :
  P 0 s ->
  (forall k a, k < n -> P k a -> P (Datatypes.S k) (body k a)) ->
  P n (for_loop n body s).
Proof.
  intros H0 Hstep. induction n as [|n IH].
  - exact H0.
  - rewrite for_loop_S. apply Hstep; [lia|]. apply IH.
    intros k a Hk. apply Hstep. lia.
Qed.

Lemma calls_of_app (a b : list event) :
  calls_of (a ++ b) = calls_of a ++ calls_of b.
Proof. unfold calls_of. apply omap_app. Qed.

Lemma calls_to_app (i : nat) (a b : list event) :
  calls_to i (a ++ b) = calls_to i a ++ calls_to i b.
Proof. unfold calls_to. rewrite calls_of_app, filter_app. reflexivity. Qed.

Lemma calls_app (i : nat) (a b : list event) :
  calls i (a ++ b) = calls i a + calls i b.
Proof. unfold calls. rewrite calls_to_app, length_app. reflexivity. Qed.

Lemma calls_of_nil_calls (i : nat) (tr : list event) :
  calls_of tr = [] -> calls i tr = 0.
Proof. unfold calls, calls_to. intros ->. reflexivity. Qed.


Lemma calls_cons_fprintf i F text tr :
  calls i (ev_fprintf F text :: tr) = calls i tr.
Proof. reflexivity. Qed.

Lemma calls_test_fn i j r :
  calls i [ev_test_fn j r] = if decide (j = i) then 1 else 0.
Proof.
  unfold calls, calls_to, calls_of. cbn. unfold filter. cbn.
  destruct (decide (j = i)); reflexivity.
Qed.

(** ** The sweep *)

Section Executor.
Context {World : Type} (tt : list (picoquic_test_def_t World)).
Implicit Types s : state World.

Lemma do_one_test_spec i F s d :
  tt !! i = Some d ->
  exists l1 l2,
    do_one_test tt i F s =
      (fst (test_fn d (world s)),
       set_trace (trace s ++ [ev_fprintf F l1;
                              ev_test_fn i (fst (test_fn d (world s)));
                              ev_fprintf F l2])
         (set_world (snd (test_fn d (world s))) s)) /\
    String.prefix "Test number " l1 = false /\
    String.prefix "Test number " l2 = false.
Proof.
  intros Hd. unfold do_one_test. rewrite Hd. st_simpl.
  destruct (test_fn d (world s)) as [r w] eqn:E.
  eexists. destruct (r =? 0)%Z; eexists;
    unfold fprintf, emit, set_trace, set_world; st_simpl;
    rewrite <- !app_assoc; (split; [reflexivity | split; reflexivity]).
Qed.



Lemma sweep_step_effect j s :
  j < nb_tests tt ->
  sweep_effect tt j s (sweep_step tt j s) /\ same_config s (sweep_step tt j s).
Proof.
  intros Hj. apply lookup_lt_is_Some_2 in Hj as [d Hd].
  unfold sweep_step, same_config.
  destruct (test_status s !! j) as [[]|] eqn:Hst.
  - (* test_not_run *)
    destruct (in_range j _) eqn:Hr.
    + destruct (do_one_test_spec j stdout (set_nb_test_tried (nb_test_tried s + 1) s) d Hd)
        as (l1 & l2 & -> & Hl1 & Hl2).
      st_simpl. destruct (test_fn d (world s)) as [r w] eqn:E. cbn [fst snd].
      destruct (r =? 0)%Z eqn:Hr0; st_simpl.
      * split; [|tauto]. apply Z.eqb_eq in Hr0. subst r.
        eapply sweep_run with (r := 0%Z); eauto.
      * split; [|tauto]. apply Z.eqb_neq in Hr0.
        eapply sweep_run with (r := r); eauto 8.
    + st_simpl. split; [|tauto]. apply sweep_out_of_range; auto.
  - (* test_excluded *)
    destruct (negb (auto_bypass s)) eqn:Hb.
    + rewrite Hd. st_simpl. split; [|tauto].
      apply sweep_skip; auto; try congruence.
      eexists; split; [reflexivity|]. split; [reflexivity|].
      intros [H|H]; [rewrite H in Hb; discriminate | congruence].
    + split; [|tauto]. apply sweep_skip; auto; try congruence.
      exists []. rewrite app_nil_r. auto.
  - split; [|tauto]. apply sweep_skip; auto; try congruence.
    exists []. rewrite app_nil_r. auto.
  - split; [|tauto]. apply sweep_skip; auto; try congruence.
    exists []. rewrite app_nil_r. auto.
  - split; [|tauto]. apply sweep_skip; auto; try congruence.
    exists []. rewrite app_nil_r. auto.
Qed.

Lemma in_range_config i s s' : same_config s s' -> in_range i s' = in_range i s.
Proof. intros (Hf & Hl & _). unfold in_range. rewrite Hf, Hl. reflexivity. Qed.

Lemma same_config_refl s : same_config s s.
Proof. unfold same_config. tauto. Qed.

Lemma same_config_trans s1 s2 s3 :
  same_config s1 s2 -> same_config s2 s3 -> same_config s1 s3.
Proof. unfold same_config. intuition congruence. Qed.

Lemma sweep_loop_config n s :
  n <= nb_tests tt -> same_config s (for_loop n (sweep_step tt) s).
Proof.
  intros Hn. apply (for_loop_ind (fun _ a => same_config s a)).
  - apply same_config_refl.
  - intros k a Hk Ha. eapply same_config_trans; [exact Ha|].
    apply sweep_step_effect. lia.
Qed.

Lemma sweep_effect_length j s s' :
  sweep_effect tt j s s' -> length (test_status s') = length (test_status s).
Proof.
  intros [ | | ]; intros;
    repeat match goal with
           | H : _ /\ _ |- _ => destruct H
           | H : _ \/ _ |- _ => destruct H
           | H : test_status s' = _ |- _ => rewrite H
           end; rewrite ?length_insert; reflexivity.
Qed.

Lemma sweep_effect_other j i s s' :
  sweep_effect tt j s s' -> i <> j ->
  test_status s' !! i = test_status s !! i /\
  calls i (trace s') = calls i (trace s).
Proof.
  intros [Hne Hst _ _ _ _ (new & Htr & Hnew & _)
         | _ _ Hst _ _ _ _ Htr
         | r l1 l2 _ _ _ Htr _ _ _ Hres] Hij.
  - rewrite Hst, Htr, calls_app, (calls_of_nil_calls i new Hnew). split; [reflexivity|lia].
  - rewrite Hst, Htr. split; [|reflexivity].
    apply list_lookup_insert_ne. congruence.
  - rewrite Htr, calls_app. split.
    + destruct Hres as [(_ & -> & _) | (_ & -> & _)];
        apply list_lookup_insert_ne; congruence.
    + rewrite calls_cons_fprintf.
      change (ev_test_fn j r :: [ev_fprintf stdout l2])
        with ([ev_test_fn j r] ++ [ev_fprintf stdout l2]).
      rewrite calls_app, calls_test_fn.
      destruct (decide (j = i)); [congruence|]. cbn. lia.
Qed.


Lemma sweep_effect_self i s s' : sweep_effect tt i s s' -> entry_swept i s s'.
Proof.
  unfold entry_swept.
  intros [Hne Hst _ _ _ _ (new & Htr & Hnew & _)
         | Hnr Hout Hst _ _ _ _ Htr
         | r l1 l2 Hnr Hin _ Htr _ _ _ Hres].
  - assert (calls i (trace s') = calls i (trace s)) as Hc.
    { rewrite Htr, calls_app, (calls_of_nil_calls i new Hnew). lia. }
    rewrite Hst. destruct (test_status s !! i) as [[]|]; try congruence; auto.
  - rewrite Hnr, Hout, Hst, Htr. split; [reflexivity|].
    apply list_lookup_insert_eq. eapply lookup_lt_Some; eauto.
  - rewrite Hnr, Hin, Htr. split.
    + rewrite calls_app, calls_cons_fprintf.
      change (ev_test_fn i r :: [ev_fprintf stdout l2])
        with ([ev_test_fn i r] ++ [ev_fprintf stdout l2]).
      rewrite calls_app, calls_test_fn.
      destruct (decide (i = i)); [|congruence]. cbn. lia.
    + apply lookup_lt_Some in Hnr.
      destruct Hres as [(_ & -> & _) | (_ & -> & _)];
        rewrite list_lookup_insert_eq; auto.
Qed.

Lemma entry_swept_proper i s1 s1' s2 s2' :
  test_status s1 !! i = test_status s2 !! i ->
  in_range i s1 = in_range i s2 ->
  calls i (trace s1) = calls i (trace s2) ->
  test_status s1' !! i = test_status s2' !! i ->
  calls i (trace s1') = calls i (trace s2') ->
  entry_swept i s1 s1' -> entry_swept i s2 s2'.
Proof.
  unfold entry_swept. intros -> -> -> -> ->. auto.
Qed.

Lemma sweep_loop_at i n s :
  n <= nb_tests tt ->
  let s' := for_loop n (sweep_step tt) s in
  (n <= i -> test_status s' !! i = test_status s !! i /\
             calls i (trace s') = calls i (trace s)) /\
  (i < n -> entry_swept i s s').
Proof.
  intros Hn s'.
  enough (same_config s s' /\
          (n <= i -> test_status s' !! i = test_status s !! i /\
                     calls i (trace s') = calls i (trace s)) /\
          (i < n -> entry_swept i s s')) by tauto.
  subst s'.
  apply (for_loop_ind (fun k a =>
    same_config s a /\
    (k <= i -> test_status a !! i = test_status s !! i /\
               calls i (trace a) = calls i (trace s)) /\
    (i < k -> entry_swept i s a))).
  - split; [apply same_config_refl|]. split; [auto|lia].
  - intros k a Hk (Hcfg & Hbefore & Hafter).
    destruct (sweep_step_effect k a) as [Heff Hcfg']; [lia|].
    split; [eapply same_config_trans; eauto|]. split.
    + intros Hi. destruct Hbefore as [Hst Hc]; [lia|].
      destruct (sweep_effect_other k i a _ Heff) as [Hst' Hc']; [lia|].
      split; congruence.
    + intros Hi. destruct (decide (i = k)) as [->|Hik].
      * destruct Hbefore as [Hst Hc]; [lia|].
        eapply (entry_swept_proper k a _ s _); eauto.
        -- apply in_range_config. exact Hcfg.
        -- apply sweep_effect_self. exact Heff.
      * destruct (sweep_effect_other k i a _ Heff) as [Hst' Hc']; [lia|].
        eapply (entry_swept_proper i s a s _); eauto.
        apply Hafter. lia.
Qed.

Lemma drop_S_eq {A : Type} (k : nat) (l1 l2 : list A) :
  drop k l1 = drop k l2 -> drop (S k) l1 = drop (S k) l2.
Proof.
  intros H. replace (S k) with (k + 1) by lia.
  rewrite <- !drop_drop, H. reflexivity.
Qed.

(** The tests tried: one per [test_not_run] entry met. *)
Lemma sweep_loop_tried n s :
  n <= nb_tests tt ->
  let s' := for_loop n (sweep_step tt) s in
  nb_test_tried s' =
    (nb_test_tried s + not_run_count (take n (test_status s)))%Z.
Proof.
  intros Hn s'.
  enough (nb_test_tried s' =
            (nb_test_tried s + not_run_count (take n (test_status s)))%Z /\
          drop n (test_status s') = drop n (test_status s)) by tauto.
  subst s'.
  apply (for_loop_ind (fun k a =>
    nb_test_tried a =
      (nb_test_tried s + not_run_count (take k (test_status s)))%Z /\
    drop k (test_status a) = drop k (test_status s))).
  - split; [|reflexivity]. rewrite take_0. unfold not_run_count. cbn. lia.
  - intros k a Hk (Htried & Hdrop).
    assert (test_status a !! k = test_status s !! k) as Hlook.
    { rewrite <- (Nat.add_0_r k), <- !lookup_drop, Hdrop. reflexivity. }
    assert (forall v, drop (S k) (<[k := v]> (test_status a))
                      = drop (S k) (test_status s)) as Hins.
    { intros v. rewrite drop_insert_lt by lia. apply drop_S_eq, Hdrop. }
    assert (forall v, test_status s !! k = Some v ->
              not_run_count (take (S k) (test_status s)) =
              (not_run_count (take k (test_status s))
               + if decide (v = test_not_run) then 1 else 0)%Z) as Hcount.
    { intros v Hv. erewrite take_S_r by exact Hv.
      unfold not_run_count. rewrite filter_app, length_app.
      unfold filter at 2. cbn.
      destruct (decide (v = test_not_run)); cbn [length]; lia. }
    destruct (sweep_step_effect k a) as [Heff _]; [lia|].
    destruct Heff as [Hne Hst Ht _ _ _ _
                     | Hnr _ Hst Ht _ _ _ _
                     | r l1 l2 Hnr _ _ _ _ _ Ht Hres].
    + rewrite Hst, Ht, Htried. split.
      * destruct (test_status s !! k) as [v|] eqn:Hv.
        -- rewrite (Hcount v eq_refl).
           destruct (decide (v = test_not_run)); [congruence|lia].
        -- apply lookup_ge_None in Hv.
           rewrite !take_ge by lia. reflexivity.
      * apply drop_S_eq, Hdrop.
    + rewrite Hst, Ht, Htried, Hins. split; [|reflexivity].
      rewrite (Hcount test_not_run) by congruence.
      destruct (decide (test_not_run = test_not_run)); [lia|congruence].
    + rewrite Ht, Htried. split.
      * rewrite (Hcount test_not_run) by congruence.
        destruct (decide (test_not_run = test_not_run)); [lia|congruence].
      * destruct Hres as [(_ & -> & _) | (_ & -> & _)]; apply Hins.
Qed.

Lemma lookup_of_drop {A : Type} (k : nat) (l1 l2 : list A) :
  drop k l1 = drop k l2 -> l1 !! k = l2 !! k.
Proof.
  intros H. rewrite <- (Nat.add_0_r k), <- !lookup_drop, H. reflexivity.
Qed.

(** Entries that are not both selected and in range make no call, no
    failure and leave [ret] alone. *)
Lemma sweep_loop_quiet n s :
  n <= nb_tests tt ->
  (forall j, j < n -> test_status s !! j = Some test_not_run ->
             in_range j s = false) ->
  let s' := for_loop n (sweep_step tt) s in
  calls_of (trace s') = calls_of (trace s) /\
  nb_test_failed s' = nb_test_failed s /\ ret s' = ret s /\
  world s' = world s.
Proof.
  intros Hn Hout s'.
  enough ((calls_of (trace s') = calls_of (trace s) /\
           nb_test_failed s' = nb_test_failed s /\ ret s' = ret s /\
           world s' = world s) /\
          same_config s s' /\
          drop n (test_status s') = drop n (test_status s)) by tauto.
  subst s'.
  apply (for_loop_ind (fun k a =>
    (calls_of (trace a) = calls_of (trace s) /\
     nb_test_failed a = nb_test_failed s /\ ret a = ret s /\
     world a = world s) /\
    same_config s a /\
    drop k (test_status a) = drop k (test_status s))).
  - split; [auto|]. split; [apply same_config_refl|reflexivity].
  - intros k a Hk ((Hc & Hf & Hr & Hw) & Hcfg & Hdrop).
    pose proof (lookup_of_drop _ _ _ Hdrop) as Hlook.
    destruct (sweep_step_effect k a) as [Heff Hcfg']; [lia|].
    split; [|split; [eapply same_config_trans; eauto|]].
    + destruct Heff as [_ _ _ Hf' Hr' Hw' (new & Htr & Hnew & _)
                       | _ _ _ _ Hf' Hr' Hw' Htr
                       | r l1 l2 Hnr Hin _ _ _ _ _ _].
      * rewrite Htr, calls_of_app, Hnew, app_nil_r. repeat split; congruence.
      * rewrite Htr. repeat split; congruence.
      * rewrite (in_range_config k s a Hcfg), Hout in Hin;
          [discriminate | lia | congruence].
    + destruct Heff as [_ Hst _ _ _ _ _
                       | _ _ Hst _ _ _ _ _
                       | r l1 l2 _ _ _ _ _ _ _ Hres].
      * rewrite Hst. apply drop_S_eq, Hdrop.
      * rewrite Hst, drop_insert_lt by lia. apply drop_S_eq, Hdrop.
      * destruct Hres as [(_ & -> & _) | (_ & -> & _)];
          rewrite drop_insert_lt by lia; apply drop_S_eq, Hdrop.
Qed.


(** Under auto-bypass the sweep writes no "bypassed" notice. *)
Lemma sweep_loop_no_notice n s :
  n <= nb_tests tt -> auto_bypass s = true ->
  exists new,
    trace (for_loop n (sweep_step tt) s) = trace s ++ new /\
    Forall (fun e => is_bypass_notice e = false) new.
Proof.
  intros Hn Hb.
  enough (same_config s (for_loop n (sweep_step tt) s) /\
          exists new,
            trace (for_loop n (sweep_step tt) s) = trace s ++ new /\
            Forall (fun e => is_bypass_notice e = false) new) by tauto.
  apply (for_loop_ind (fun k a =>
    same_config s a /\
    exists new, trace a = trace s ++ new /\
                Forall (fun e => is_bypass_notice e = false) new)).
  - split; [apply same_config_refl|]. exists []. rewrite app_nil_r. auto.
  - intros k a Hk (Hcfg & new & Htr & Hnew).
    destruct (sweep_step_effect k a) as [Heff Hcfg']; [lia|].
    split; [eapply same_config_trans; eauto|].
    assert (auto_bypass a = true) as Hb'.
    { destruct Hcfg as (_ & _ & -> & _). exact Hb. }
    destruct Heff as [_ _ _ _ _ _ (new' & Htr' & _ & Hnil)
                     | _ _ _ _ _ _ _ Htr'
                     | r l1 l2 _ _ _ Htr' Hl1 Hl2 _ _].
    + rewrite (Hnil (or_introl Hb')), app_nil_r in Htr'.
      exists new. rewrite Htr'. auto.
    + exists new. rewrite Htr'. auto.
    + exists (new ++ [ev_fprintf stdout l1; ev_test_fn k r; ev_fprintf stdout l2]).
      rewrite Htr', Htr, app_assoc. split; [reflexivity|].
      apply Forall_app. split; [exact Hnew|].
      repeat constructor; assumption.
Qed.

End Executor.

(** ** The retry pass *)

Section Retrier.
Context {World : Type} (tt : list (picoquic_test_def_t World)).
Implicit Types s : state World.



Lemma retry_step_effect j s :
  j < nb_tests tt ->
  retry_effect tt j s (retry_step tt j s) /\ same_counts s (retry_step tt j s).
Proof.
  intros Hj. apply lookup_lt_is_Some_2 in Hj as [d Hd].
  unfold retry_step, same_counts. rewrite Hd.
  destruct (test_status s !! j) as [[]|] eqn:Hst;
    try (split; [apply retry_skip; congruence | tauto]).
  destruct (cannot_retry (test_name d)) eqn:Hcr.
  - st_simpl. split; [|tauto]. eapply retry_refused; eauto.
  - destruct (do_one_test_spec tt j stdout
                (fprintf stdout ("Retrying " +:+ test_name d +:+ ":" +:+ nl) s)
                d Hd) as (l1 & l2 & -> & _ & _).
    st_simpl. destruct (test_fn d (world s)) as [r w] eqn:E. cbn [fst snd].
    destruct (r =? 0)%Z eqn:Hr0; st_simpl; (split; [|tauto]).
    + apply Z.eqb_eq in Hr0. subst r.
      eapply retry_run with (r := 0%Z); eauto.
      st_simpl. rewrite <- app_assoc. reflexivity.
    + apply Z.eqb_neq in Hr0.
      eapply retry_run with (r := r); eauto 8.
      st_simpl. rewrite <- app_assoc. reflexivity.
Qed.

Lemma calls_to_fprintf i F text tr :
  calls_to i (ev_fprintf F text :: tr) = calls_to i tr.
Proof. reflexivity. Qed.

Lemma calls_to_test_fn i j r tr :
  calls_to i (ev_test_fn j r :: tr) =
    if decide (j = i) then (j, r) :: calls_to i tr else calls_to i tr.
Proof.
  unfold calls_to, calls_of. cbn. unfold filter. cbn.
  destruct (decide (j = i)); reflexivity.
Qed.

Lemma same_counts_refl s : same_counts s s.
Proof. unfold same_counts. tauto. Qed.

Lemma same_counts_trans s1 s2 s3 :
  same_counts s1 s2 -> same_counts s2 s3 -> same_counts s1 s3.
Proof. unfold same_counts. intuition congruence. Qed.

(** An iteration leaves the other entries and their calls alone. *)
Lemma retry_effect_other j i s s' :
  retry_effect tt j s s' -> i <> j ->
  test_status s' !! i = test_status s !! i /\
  exists new, trace s' = trace s ++ new /\ calls_to i new = [].
Proof.
  intros [_ -> | d line _ _ _ Hst _ Htr | d r l0 l1 l2 _ _ _ _ Htr Hres] Hij.
  - split; [reflexivity|]. exists []. rewrite app_nil_r. auto.
  - rewrite Hst. split; [reflexivity|]. eexists; split; [exact Htr|reflexivity].
  - split.
    + destruct Hres as [(_ & -> & _) | (_ & -> & _)];
        apply list_lookup_insert_ne; congruence.
    + eexists; split; [exact Htr|].
      rewrite !calls_to_fprintf, calls_to_test_fn.
      destruct (decide (j = i)); [congruence|reflexivity].
Qed.

(** A failed test on the refusal list is not called again, stays failed
    and forces the result. *)
Lemma retry_loop_refused i d n s :
  n <= nb_tests tt -> tt !! i = Some d -> cannot_retry (test_name d) = true ->
  test_status s !! i = Some test_failed ->
  let s' := for_loop n (retry_step tt) s in
  test_status s' !! i = Some test_failed /\
  calls i (trace s') = calls i (trace s) /\
  (i < n -> ret s' = (-1)%Z).
Proof.
  intros Hn Hd Hcr Hst.
  apply (for_loop_ind (fun k a =>
    test_status a !! i = Some test_failed /\
    calls i (trace a) = calls i (trace s) /\
    (i < k -> ret a = (-1)%Z))).
  - split; [exact Hst|]. split; [reflexivity|lia].
  - intros k a Hk (Hsta & Hc & Hr).
    destruct (retry_step_effect k a) as [Heff _]; [lia|].
    destruct (decide (i = k)) as [->|Hik].
    + destruct Heff as [Hne _ | d' line _ _ _ Hst' Hret Htr
                       | d' r l0 l1 l2 _ Hd' Hcr' _ _ _].
      * congruence.
      * rewrite Hst', Htr, calls_app. cbn. split; [exact Hsta|]. split; [lia|auto].
      * congruence.
    + destruct (retry_effect_other k i a _ Heff Hik) as (Hst' & new & Htr & Hnew).
      rewrite Hst', Htr, calls_app. unfold calls at 2. rewrite Hnew. cbn.
      split; [exact Hsta|]. split; [lia|]. intros Hi.
      assert (ret a = (-1)%Z) as Hra by (apply Hr; lia).
      destruct Heff as [_ -> | ? ? _ _ _ _ Hret _ | ? ? ? ? ? _ _ _ _ _ Hres]; auto.
      destruct Hres as [(_ & _ & ->) | (_ & _ & ->)]; auto.
Qed.

(** A failed test off the refusal list is called exactly once; its status
    follows the result of that call. *)
Lemma retry_loop_retried i d n s :
  i < n -> n <= nb_tests tt -> tt !! i = Some d ->
  cannot_retry (test_name d) = false ->
  test_status s !! i = Some test_failed ->
  let s' := for_loop n (retry_step tt) s in
  exists new r,
    trace s' = trace s ++ new /\ calls_to i new = [(i, r)] /\
    test_status s' !! i =
      Some (if (r =? 0)%Z then test_success else test_failed).
Proof.
  intros Hi Hn Hd Hcr Hst s'.
  enough (exists new, trace s' = trace s ++ new /\
            (n <= i -> calls_to i new = [] /\
                       test_status s' !! i = Some test_failed) /\
            (i < n -> exists r, calls_to i new = [(i, r)] /\
               test_status s' !! i =
                 Some (if (r =? 0)%Z then test_success else test_failed)))
    as (new & Htr & _ & Hdone).
  { destruct (Hdone Hi) as (r & ? & ?). eauto. }
  subst s'.
  apply (for_loop_ind (fun k a =>
    exists new, trace a = trace s ++ new /\
      (k <= i -> calls_to i new = [] /\
                 test_status a !! i = Some test_failed) /\
      (i < k -> exists r, calls_to i new = [(i, r)] /\
         test_status a !! i =
           Some (if (r =? 0)%Z then test_success else test_failed)))).
  - exists []. rewrite app_nil_r. split; [reflexivity|]. split; [auto|lia].
  - intros k a Hk (new & Htr & Hbefore & Hafter).
    destruct (retry_step_effect k a) as [Heff _]; [lia|].
    destruct (decide (i = k)) as [->|Hik].
    + destruct Hbefore as [Hnew Hsta]; [lia|].
      destruct Heff as [Hne _ | d' line _ Hd' Hcr' _ _ _
                       | d' r l0 l1 l2 _ _ _ _ Htr' Hres]; [congruence..|].
      exists (new ++ [ev_fprintf stdout l0; ev_fprintf stdout l1;
                      ev_test_fn k r; ev_fprintf stdout l2]).
      rewrite Htr', Htr, app_assoc. split; [reflexivity|]. split; [lia|].
      intros _. exists r. rewrite calls_to_app, Hnew.
      rewrite !calls_to_fprintf, calls_to_test_fn.
      destruct (decide (k = k)); [|congruence]. split; [reflexivity|].
      apply lookup_lt_Some in Hsta.
      destruct Hres as [(-> & -> & _) | (Hr & -> & _)].
      * rewrite list_lookup_insert_eq by exact Hsta. reflexivity.
      * rewrite list_lookup_insert_eq by exact Hsta.
        apply Z.eqb_neq in Hr. rewrite Hr. reflexivity.
    + destruct (retry_effect_other k i a _ Heff Hik) as (Hst' & new' & Htr' & Hnew').
      exists (new ++ new'). rewrite Htr', Htr, app_assoc.
      split; [reflexivity|]. rewrite calls_to_app, Hnew', app_nil_r, Hst'.
      split; intros Hki; [apply Hbefore | apply Hafter]; lia.
Qed.

(** The pass ends with [ret] at 0, or at -1 with an entry still failed. *)
Lemma retry_loop_ret n s :
  n <= nb_tests tt -> ret s = 0%Z ->
  let s' := for_loop n (retry_step tt) s in
  ret s' = 0%Z \/
  ret s' = (-1)%Z /\ exists j, j < n /\ test_status s' !! j = Some test_failed.
Proof.
  intros Hn H0.
  apply (for_loop_ind (fun k a =>
    ret a = 0%Z \/
    ret a = (-1)%Z /\ exists j, j < k /\ test_status a !! j = Some test_failed)).
  - left. exact H0.
  - intros k a Hk Hinv.
    destruct (retry_step_effect k a) as [Heff _]; [lia|].
    destruct Heff as [_ -> | d line Hf _ _ Hst Hret _
                     | d r l0 l1 l2 Hf _ _ _ _ Hres].
    + destruct Hinv as [|(? & j & ? & ?)]; [auto|].
      right. split; [assumption|]. exists j. split; [lia|assumption].
    + right. split; [exact Hret|]. exists k. rewrite Hst. split; [lia|exact Hf].
    + apply lookup_lt_Some in Hf as Hlen.
      destruct Hres as [(_ & Hst & Hret) | (_ & Hst & Hret)].
      * rewrite Hret. destruct Hinv as [|(? & j & Hj & Hjf)]; [auto|].
        right. split; [assumption|]. exists j. split; [lia|].
        rewrite Hst, list_lookup_insert_ne by lia. exact Hjf.
      * right. split; [exact Hret|]. exists k. split; [lia|].
        rewrite Hst. apply list_lookup_insert_eq. exact Hlen.
Qed.

(** The pass only turns failed entries into successes, and leaves the
    counters and what has been written alone. *)
Lemma retry_loop_frame n s :
  n <= nb_tests tt ->
  let s' := for_loop n (retry_step tt) s in
  same_counts s s' /\
  (exists new, trace s' = trace s ++ new) /\
  forall i,
    test_status s' !! i = test_status s !! i \/
    test_status s !! i = Some test_failed /\
    test_status s' !! i = Some test_success.
Proof.
  intros Hn.
  apply (for_loop_ind (fun k a =>
    same_counts s a /\
    (exists new, trace a = trace s ++ new) /\
    forall i,
      test_status a !! i = test_status s !! i \/
      test_status s !! i = Some test_failed /\
      test_status a !! i = Some test_success)).
  - split; [apply same_counts_refl|]. split; [|auto].
    exists []. rewrite app_nil_r. reflexivity.
  - intros k a Hk (Hcnt & (new & Htr) & Hst).
    destruct (retry_step_effect k a) as [Heff Hcnt']; [lia|].
    split; [eapply same_counts_trans; eauto|]. split.
    + destruct Heff as [_ -> | ? ? _ _ _ _ _ Htr' | ? ? ? ? ? _ _ _ _ Htr' _].
      * eauto.
      * eexists. rewrite Htr', Htr, <- app_assoc. reflexivity.
      * eexists. rewrite Htr', Htr, <- app_assoc. reflexivity.
    + intros i. destruct (decide (i = k)) as [->|Hik].
      * destruct Heff as [_ -> | ? ? _ _ _ -> _ _ | ? r ? ? ? Hf _ _ _ _ Hres];
          [apply Hst..|].
        apply lookup_lt_Some in Hf as Hlen.
        destruct (Hst k) as [Heq | [_ Hs]]; [|congruence].
        destruct Hres as [(_ & -> & _) | (_ & -> & _)];
          rewrite list_lookup_insert_eq by exact Hlen.
        -- right. split; congruence.
        -- left. congruence.
      * destruct (retry_effect_other k i a _ Heff Hik) as (-> & _). apply Hst.
Qed.

End Retrier.

(** ** The report *)

Section Reporter.
Context {World : Type} (tt : list (picoquic_test_def_t World)).
Implicit Types s : state World.

Lemma same_vars_refl s : same_vars s s.
Proof. reflexivity. Qed.

Lemma same_vars_trans s1 s2 s3 :
  same_vars s1 s2 -> same_vars s2 s3 -> same_vars s1 s3.
Proof. unfold same_vars. congruence. Qed.

Lemma same_vars_fprintf F text s : same_vars s (fprintf F text s).
Proof. reflexivity. Qed.

Lemma same_vars_emit evs s : same_vars s (emit evs s).
Proof. reflexivity. Qed.

Lemma same_vars_fields s s' :
  same_vars s s' ->
  ret s' = ret s /\ test_status s' = test_status s /\
  nb_test_tried s' = nb_test_tried s /\ nb_test_failed s' = nb_test_failed s /\
  disable_debug s' = disable_debug s /\
  retry_failed_test s' = retry_failed_test s /\ world s' = world s /\
  first_test s' = first_test s /\ last_test s' = last_test s /\
  auto_bypass s' = auto_bypass s.
Proof.
  intros H. unfold same_vars in H.
  repeat split;
    [ exact (f_equal ret H) | exact (f_equal test_status H)
    | exact (f_equal nb_test_tried H) | exact (f_equal nb_test_failed H)
    | exact (f_equal disable_debug H) | exact (f_equal retry_failed_test H)
    | exact (f_equal world H) | exact (f_equal first_test H)
    | exact (f_equal last_test H) | exact (f_equal auto_bypass H) ].
Qed.

(** Listing the failed tests only writes. *)
Lemma print_failed_loop n s :
  let s' := for_loop n (print_failed_step tt) s in
  same_vars s s' /\ exists new, trace s' = trace s ++ new /\ calls_of new = [].
Proof.
  apply (for_loop_ind (fun _ a =>
    same_vars s a /\ exists new, trace a = trace s ++ new /\ calls_of new = [])).
  - split; [reflexivity|]. exists []. rewrite app_nil_r. auto.
  - intros k a _ (Hv & new & Htr & Hnew). unfold print_failed_step.
    destruct (test_status a !! k) as [[]|]; eauto.
    destruct (tt !! k) as [d|]; eauto.
    split; [eapply same_vars_trans; [exact Hv|reflexivity]|].
    eexists. st_simpl. rewrite Htr, <- app_assoc. split; [reflexivity|].
    rewrite calls_of_app, Hnew. reflexivity.
Qed.

(** Without a retry pass the report only writes. *)
Lemma report_without_retry s :
  (nb_test_failed s <= 0)%Z \/
  disable_debug s && retry_failed_test s = false ->
  same_vars s (report tt s) /\
  exists new, trace (report tt s) = trace s ++ new /\ calls_of new = [].
Proof.
  intros Hno. unfold report.
  set (s1 := if (1 <? nb_test_tried s)%Z then _ else s).
  assert (same_vars s s1 /\
          exists new, trace s1 = trace s ++ new /\ calls_of new = [])
    as (Hv1 & new1 & Htr1 & Hnew1).
  { subst s1. destruct (1 <? nb_test_tried s)%Z.
    - split; [reflexivity|]. eexists. split; reflexivity.
    - split; [reflexivity|]. exists []. rewrite app_nil_r. auto. }
  destruct (same_vars_fields _ _ Hv1) as (_ & _ & _ & Hf1 & Hd1 & Hr1 & _).
  rewrite Hf1. destruct (0 <? nb_test_failed s)%Z eqn:Hf; [|eauto].
  destruct Hno as [Hno|Hno]; [apply Z.ltb_lt in Hf; lia|].
  set (s2 := fprintf stdout "Failed test(s): " s1).
  destruct (print_failed_loop (nb_tests tt) s2) as (Hv3 & new3 & Htr3 & Hnew3).
  set (s3 := for_loop (nb_tests tt) (print_failed_step tt) s2) in *.
  unfold retry_failed. st_simpl.
  destruct (same_vars_fields _ _ Hv3) as (_ & _ & _ & _ & -> & -> & _).
  subst s2. st_simpl. rewrite Hd1, Hr1, Hno. st_simpl.
  split.
  - eapply same_vars_trans; [exact Hv1|].
    eapply same_vars_trans; [|exact Hv3]. reflexivity.
  - eexists. rewrite Htr3. st_simpl. rewrite Htr1, <- !app_assoc.
    split; [reflexivity|].
    rewrite !calls_of_app, Hnew1, Hnew3. reflexivity.
Qed.

Lemma same_vars_set_ret v s s' :
  same_vars s s' -> same_vars (set_ret v s) (set_ret v s').
Proof.
  unfold same_vars. intros H.
  change (set_ret v (set_trace [] s') = set_ret v (set_trace [] s)).
  rewrite H. reflexivity.
Qed.

(** The line that opens the report when more than one test was tried. *)
Lemma report_summary s :
  (1 < nb_test_tried s)%Z ->
  exists rest,
    trace (report tt s) =
      trace s ++
      ev_fprintf stdout (summary_line (nb_test_tried s) (nb_test_failed s))
      :: rest.
Proof.
  intros Ht. apply Z.ltb_lt in Ht. unfold report. rewrite Ht. st_simpl.
  destruct (0 <? nb_test_failed s)%Z.
  - set (s2 := fprintf stdout "Failed test(s): " _).
    destruct (print_failed_loop (nb_tests tt) s2) as (Hv3 & new3 & Htr3 & _).
    set (s3 := for_loop (nb_tests tt) (print_failed_step tt) s2) in *.
    assert (exists rest, trace (fprintf stdout nl s3) =
              trace s ++ ev_fprintf stdout
                (summary_line (nb_test_tried s) (nb_test_failed s)) :: rest)
      as (rest & Hrest).
    { st_simpl. rewrite Htr3. subst s2. st_simpl.
      rewrite <- !app_assoc. cbn [app]. eauto. }
    generalize dependent (fprintf stdout nl s3). intros s4 Hrest.
    unfold retry_failed.
    destruct (disable_debug s4 && retry_failed_test s4); [|eauto].
    set (s5 := set_ret 0 (emit [ev_debug_printf_resume] s4)).
    destruct (retry_loop_frame tt (nb_tests tt) s5) as (_ & (new & Hnew) & _);
      [lia|].
    unfold retry_pass. set (s6 := for_loop _ (retry_step tt) s5) in *.
    assert (trace s5 = trace s4 ++ [ev_debug_printf_resume]) as H5 by reflexivity.
    destruct (ret s6 =? 0)%Z.
    + st_simpl. rewrite Hnew, H5, Hrest, <- !app_assoc. cbn [app]. eauto.
    + destruct (print_failed_loop (nb_tests tt) (fprintf stdout "Still failing: " s6))
        as (_ & new7 & Htr7 & _).
      st_simpl. rewrite Htr7. st_simpl.
      rewrite Hnew, H5, Hrest, <- !app_assoc. cbn [app]. eauto.
  - exists []. reflexivity.
Qed.

(** The report when the retry pass runs: the pass starts from [s3], which
    is [s] with [ret] reset, and the report ends as the pass does. *)
Lemma report_with_retry s :
  (0 < nb_test_failed s)%Z ->
  disable_debug s = true -> retry_failed_test s = true ->
  exists s3 pre post,
    same_vars (set_ret 0 s) s3 /\
    trace s3 = trace s ++ pre /\ calls_of pre = [] /\
    same_vars (retry_pass tt s3) (report tt s) /\
    trace (report tt s) = trace (retry_pass tt s3) ++ post /\
    calls_of post = [] /\
    (ret (retry_pass tt s3) = 0%Z ->
     post = [ev_fprintf stdout ("All tests pass after second try." +:+ nl)]).
Proof.
  intros Hf Hd Hr. apply Z.ltb_lt in Hf. unfold report.
  set (s1 := if (1 <? nb_test_tried s)%Z then _ else s).
  assert (same_vars s s1 /\
          exists new, trace s1 = trace s ++ new /\ calls_of new = [])
    as (Hv1 & new1 & Htr1 & Hnew1).
  { subst s1. destruct (1 <? nb_test_tried s)%Z.
    - split; [reflexivity|]. eexists. split; reflexivity.
    - split; [reflexivity|]. exists []. rewrite app_nil_r. auto. }
  destruct (same_vars_fields _ _ Hv1) as (_ & _ & _ & Hf1 & _).
  rewrite Hf1, Hf.
  set (s2 := fprintf stdout "Failed test(s): " s1).
  destruct (print_failed_loop (nb_tests tt) s2) as (Hv3 & new3 & Htr3 & Hnew3).
  set (s3 := for_loop (nb_tests tt) (print_failed_step tt) s2) in *.
  assert (same_vars s (fprintf stdout nl s3)) as Hv4.
  { eapply same_vars_trans; [exact Hv1|].
    eapply same_vars_trans; [|eapply same_vars_trans; [exact Hv3|]]; reflexivity. }
  assert (trace (fprintf stdout nl s3) =
            trace s ++ new1 ++ [ev_fprintf stdout "Failed test(s): "] ++ new3
                    ++ [ev_fprintf stdout nl]) as Htr4.
  { st_simpl. rewrite Htr3. subst s2. st_simpl.
    rewrite Htr1, <- !app_assoc. reflexivity. }
  generalize dependent (fprintf stdout nl s3). intros s4 Hv4 Htr4.
  destruct (same_vars_fields _ _ Hv4) as (_ & _ & _ & _ & Hd4 & Hr4 & _).
  unfold retry_failed. rewrite Hd4, Hr4, Hd, Hr. cbn [andb].
  set (s5 := set_ret 0 (emit [ev_debug_printf_resume] s4)).
  exists s5. eexists. 
  assert (same_vars (set_ret 0 s) s5) as Hv5.
  { subst s5. apply same_vars_set_ret.
    eapply same_vars_trans; [exact Hv4|]. reflexivity. }
  assert (trace s5 = trace s ++ (new1 ++ [ev_fprintf stdout "Failed test(s): "]
                                 ++ new3 ++ [ev_fprintf stdout nl])
                             ++ [ev_debug_printf_resume]) as Htr5.
  { subst s5. st_simpl. rewrite Htr4, <- !app_assoc. reflexivity. }
  destruct (ret (retry_pass tt s5) =? 0)%Z eqn:Hret.
  - eexists. split; [exact Hv5|]. split; [exact Htr5|]. split.
    { rewrite !calls_of_app, Hnew1, Hnew3. reflexivity. }
    split; [reflexivity|]. split; [reflexivity|]. split; [reflexivity|]. auto.
  - destruct (print_failed_loop (nb_tests tt)
                (fprintf stdout "Still failing: " (retry_pass tt s5)))
      as (Hv7 & new7 & Htr7 & Hnew7).
    eexists. split; [exact Hv5|]. split; [exact Htr5|]. split.
    { rewrite !calls_of_app, Hnew1, Hnew3. reflexivity. }
    split.
    { eapply same_vars_trans; [|eapply same_vars_trans; [exact Hv7|]]; reflexivity. }
    split.
    { st_simpl. rewrite Htr7. st_simpl. rewrite <- !app_assoc. reflexivity. }
    split.
    { rewrite !calls_of_app, Hnew7. reflexivity. }
    intros H0. apply Z.eqb_neq in Hret. contradiction.
Qed.

End Reporter.

(** ** The call records and the test functions *)

Section Genuine.
Context {World : Type} (tt : list (picoquic_test_def_t World)).
Implicit Types s : state World.

Lemma genuine_app (w w1 w2 : World) (cs1 cs2 : list (nat * Z)) :
  genuine tt w cs1 w1 -> genuine tt w1 cs2 w2 ->
  genuine tt w (cs1 ++ cs2) w2.
Proof.
  revert w. induction cs1 as [|[i r] cs1 IH]; intros w; cbn [genuine app].
  - intros ->. auto.
  - intros (d & wa & Hd & Hf & Hg) H2. exists d, wa. auto.
Qed.

Lemma genuine_split (w w' : World) (cs1 cs2 : list (nat * Z)) (i : nat)
    (r : Z) :
  genuine tt w (cs1 ++ (i, r) :: cs2) w' ->
  exists d wb wa,
    tt !! i = Some d /\ genuine tt w cs1 wb /\ test_fn d wb = (r, wa) /\
    genuine tt wa cs2 w'.
Proof.
  revert w. induction cs1 as [|[j q] cs1 IH]; intros w; cbn [genuine app].
  - intros (d & wa & Hd & Hf & Hg). exists d, w, wa. auto.
  - intros (d & wa & Hd & Hf & Hg).
    destruct (IH wa Hg) as (d' & wb & wa' & Hd' & Hpre & Hf' & Hpost).
    exists d', wb, wa'. split; [exact Hd'|]. split; [|auto].
    exists d, wa. auto.
Qed.

(** The record of a test that was called once, among genuine records. *)
Lemma genuine_at (w w' : World) (new : list event) (i : nat) (r : Z)
    (d : picoquic_test_def_t World) :
  tt !! i = Some d ->
  calls_to i new = [(i, r)] -> genuine tt w (calls_of new) w' ->
  exists pre post wb wa,
    calls_of new = pre ++ (i, r) :: post /\
    genuine tt w pre wb /\ test_fn d wb = (r, wa) /\ genuine tt wa post w'.
Proof.
  intros Hd Hcalls Hg.
  assert ((i, r) ∈ calls_of new) as Hin.
  { assert ((i, r) ∈ calls_to i new) as H by (rewrite Hcalls; apply list_elem_of_here).
    unfold calls_to in H. apply list_elem_of_filter in H as [_ H]. exact H. }
  apply list_elem_of_split in Hin as (pre & post & Heq).
  rewrite Heq in Hg.
  destruct (genuine_split _ _ _ _ _ _ Hg) as (d' & wb & wa & Hd' & Hpre & Hf & Hpost).
  assert (d' = d) as -> by congruence.
  exists pre, post, wb, wa. auto.
Qed.

(** One iteration of the sweep records what the test function returned. *)
Lemma sweep_step_genuine j s :
  j < nb_tests tt ->
  exists new,
    trace (sweep_step tt j s) = trace s ++ new /\
    genuine tt (world s) (calls_of new) (world (sweep_step tt j s)).
Proof.
  intros Hj. destruct (sweep_step_effect tt j s Hj) as [Heff _].
  destruct Heff as [_ _ _ _ _ Hw (new & Htr & Hnew & _)
                   | _ _ _ _ _ _ Hw Htr
                   | r l1 l2 _ _ (d & Hd & Hf) Htr _ _ _ _].
  - exists new. split; [exact Htr|]. rewrite Hnew. exact Hw.
  - exists []. rewrite app_nil_r. split; [exact Htr | exact Hw].
  - eexists. split; [exact Htr|]. cbn. exists d, (world (sweep_step tt j s)).
    auto.
Qed.

Lemma sweep_loop_genuine n s :
  n <= nb_tests tt ->
  exists new,
    trace (for_loop n (sweep_step tt) s) = trace s ++ new /\
    genuine tt (world s) (calls_of new) (world (for_loop n (sweep_step tt) s)).
Proof.
  intros Hn.
  apply (for_loop_ind (fun _ a =>
    exists new, trace a = trace s ++ new /\
                genuine tt (world s) (calls_of new) (world a))).
  - exists []. rewrite app_nil_r. split; reflexivity.
  - intros k a Hk (new & Htr & Hg).
    destruct (sweep_step_genuine k a) as (new' & Htr' & Hg'); [lia|].
    exists (new ++ new'). rewrite Htr', Htr, <- app_assoc, calls_of_app.
    split; [reflexivity|]. eapply genuine_app; eauto.
Qed.

(** The same for the sweep as a whole. *)
Lemma sweep_genuine s :
  exists new,
    trace (sweep tt s) = trace s ++ new /\
    genuine tt (world s) (calls_of new) (world (sweep tt s)).
Proof.
  unfold sweep. destruct (ret s =? 0)%Z.
  - apply sweep_loop_genuine. lia.
  - exists []. rewrite app_nil_r. split; reflexivity.
Qed.

(** One iteration of the retry pass records what the test function
    returned. *)
Lemma retry_step_genuine j s :
  j < nb_tests tt ->
  exists new,
    trace (retry_step tt j s) = trace s ++ new /\
    genuine tt (world s) (calls_of new) (world (retry_step tt j s)).
Proof.
  intros Hj. apply lookup_lt_is_Some_2 in Hj as [d Hd].
  unfold retry_step. rewrite Hd.
  destruct (test_status s !! j) as [[]|];
    try (exists []; rewrite app_nil_r; split; reflexivity).
  destruct (cannot_retry (test_name d)).
  - st_simpl. eexists. split; reflexivity.
  - destruct (do_one_test_spec tt j stdout
                (fprintf stdout ("Retrying " +:+ test_name d +:+ ":" +:+ nl) s)
                d Hd) as (l1 & l2 & -> & _ & _).
    st_simpl. destruct (test_fn d (world s)) as [r w] eqn:E. cbn [fst snd].
    destruct (r =? 0)%Z; st_simpl;
      (eexists; split; [rewrite <- app_assoc; reflexivity|]);
      cbn; exists d, w; auto.
Qed.

Lemma retry_loop_genuine n s :
  n <= nb_tests tt ->
  exists new,
    trace (for_loop n (retry_step tt) s) = trace s ++ new /\
    genuine tt (world s) (calls_of new) (world (for_loop n (retry_step tt) s)).
Proof.
  intros Hn.
  apply (for_loop_ind (fun _ a =>
    exists new, trace a = trace s ++ new /\
                genuine tt (world s) (calls_of new) (world a))).
  - exists []. rewrite app_nil_r. split; reflexivity.
  - intros k a Hk (new & Htr & Hg).
    destruct (retry_step_genuine k a) as (new' & Htr' & Hg'); [lia|].
    exists (new ++ new'). rewrite Htr', Htr, <- app_assoc, calls_of_app.
    split; [reflexivity|]. eapply genuine_app; eauto.
Qed.

(** What the report writes when no failure was counted: the summary
    line, if more than one test was tried, and nothing else. *)
Lemma report_without_failure s :
  nb_test_failed s = 0%Z ->
  trace (report tt s) =
    trace s ++
    (if (1 <? nb_test_tried s)%Z
     then [ev_fprintf stdout
             ("Tried " +:+ dec_int (nb_test_tried s) +:+ " tests, 0 fails."
              +:+ nl)]
     else []).
Proof.
  intros Hf. unfold report.
  destruct (1 <? nb_test_tried s)%Z; st_simpl; rewrite Hf; cbn [Z.ltb Z.compare].
  - reflexivity.
  - rewrite app_nil_r. reflexivity.
Qed.

End Genuine.

(** ** Properties of the sweep, the report and the retry pass *)

Section SweepAndReport.
Context {World : Type} (tt : list (picoquic_test_def_t World)).
Implicit Types s : state World.

Lemma cannot_retry_spec (name : string) :
  cannot_retry name = true <-> name ∈ non_retryable.
Proof.
  unfold cannot_retry, non_retryable.
  rewrite !orb_true_iff, !String.eqb_eq, !elem_of_cons, elem_of_nil.
  intuition congruence.
Qed.

Lemma sweep_loop_extends n s :
  n <= nb_tests tt ->
  exists new, trace (for_loop n (sweep_step tt) s) = trace s ++ new.
Proof.
  intros Hn.
  apply (for_loop_ind (fun _ a => exists new, trace a = trace s ++ new)).
  - exists []. rewrite app_nil_r. reflexivity.
  - intros k a Hk (new & Htr).
    destruct (sweep_step_effect tt k a) as [Heff _]; [lia|].
    destruct Heff as [_ _ _ _ _ _ (new' & Htr' & _)
                     | _ _ _ _ _ _ _ Htr'
                     | r l1 l2 _ _ _ Htr' _ _ _ _];
      rewrite Htr', Htr, <- ?app_assoc; eauto.
Qed.

Lemma sweep_extends s : exists new, trace (sweep tt s) = trace s ++ new.
Proof.
  unfold sweep. destruct (ret s =? 0)%Z.
  - apply sweep_loop_extends. lia.
  - exists []. rewrite app_nil_r. reflexivity.
Qed.

Lemma calls_to_nil_of_calls i tr new :
  calls i (tr ++ new) = calls i tr -> calls_to i new = [].
Proof.
  rewrite calls_app. unfold calls at 2. intros H.
  apply length_zero_iff_nil. lia.
Qed.

(** C6.  For every configured range and every registry entry whose ordinal
    lies outside it, the sweep makes no call of the entry's test function,
    whatever the status of the entry (and of every other variable). *)
Theorem C6_out_of_range_never_invoked (s : state World) (i : nat) :
  in_range i s = false ->
  exists new, trace (sweep tt s) = trace s ++ new /\ calls_to i new = [].
Proof.
  intros Hout. destruct (sweep_extends s) as (new & Htr).
  exists new. split; [exact Htr|].
  apply (calls_to_nil_of_calls i (trace s)). rewrite <- Htr.
  unfold sweep. destruct (ret s =? 0)%Z; [|reflexivity].
  destruct (sweep_loop_at tt i (nb_tests tt) s) as [Hbefore Hafter]; [lia|].
  destruct (le_lt_dec (nb_tests tt) i) as [Hi|Hi].
  - apply Hbefore. exact Hi.
  - specialize (Hafter Hi). unfold entry_swept in Hafter. rewrite Hout in Hafter.
    destruct (test_status s !! i) as [[]|]; tauto.
Qed.

Lemma not_run_count_app (l1 l2 : list test_status_t) :
  not_run_count (l1 ++ l2) = (not_run_count l1 + not_run_count l2)%Z.
Proof. unfold not_run_count. rewrite filter_app, length_app. lia. Qed.

(** A selected entry below [n] is one of those counted. *)
Lemma not_run_count_entry (l : list test_status_t) (n i : nat) :
  i < n -> l !! i = Some test_not_run ->
  not_run_count (take n l) =
    (1 + not_run_count (take n (<[i := test_excluded]> l)))%Z.
Proof.
  intros Hi Hl. apply lookup_lt_Some in Hl as Hlen.
  rewrite take_insert_lt by exact Hi.
  assert (take n l !! i = Some test_not_run) as Ht.
  { rewrite lookup_take_lt by exact Hi. exact Hl. }
  apply lookup_lt_Some in Ht as Hlen'.
  rewrite insert_take_drop by exact Hlen'.
  rewrite <- (take_drop_middle (take n l) i test_not_run Ht) at 1.
  rewrite !not_run_count_app.
  change (test_not_run :: drop (S i) (take n l))
    with ([test_not_run] ++ drop (S i) (take n l)).
  change (test_excluded :: drop (S i) (take n l))
    with ([test_excluded] ++ drop (S i) (take n l)).
  rewrite !not_run_count_app.
  change (not_run_count [test_not_run]) with 1%Z.
  change (not_run_count [test_excluded]) with 0%Z. lia.
Qed.

(** An entry that is selected but out of range: the sweep does not run
    it, marks it [test_success] and counts it. *)
Lemma sweep_skips_out_of_range (s : state World) (i : nat) :
  ret s = 0%Z -> i < nb_tests tt ->
  test_status s !! i = Some test_not_run -> in_range i s = false ->
  test_status (sweep tt s) !! i = Some test_success /\
  calls i (trace (sweep tt s)) = calls i (trace s) /\
  nb_test_tried (sweep tt s) =
    (nb_test_tried s + not_run_count (take (nb_tests tt) (test_status s)))%Z /\
  not_run_count (take (nb_tests tt) (test_status s)) =
    (1 + not_run_count
           (take (nb_tests tt) (<[i := test_excluded]> (test_status s))))%Z.
Proof.
  intros Hret Hi Hst Hout. unfold sweep. rewrite Hret. cbn.
  destruct (sweep_loop_at tt i (nb_tests tt) s) as [_ Hafter]; [lia|].
  specialize (Hafter Hi). unfold entry_swept in Hafter.
  rewrite Hst, Hout in Hafter. destruct Hafter as [Hc Hs].
  split; [exact Hs|]. split; [exact Hc|]. split.
  - apply sweep_loop_tried. lia.
  - apply not_run_count_entry; assumption.
Qed.

(** C1 (amended).  In a sweep over the range [first_test, last_test], an
    entry that is [test_not_run] and whose ordinal lies outside the range
    is not run, but it does not stay [test_not_run]: it ends as
    [test_success], and it is one of the entries counted in
    [nb_test_tried] (one per [test_not_run] entry, in range or not). *)
Theorem C1_out_of_range_entry_counted_as_tried (s : state World) (i : nat) :
  ret s = 0%Z -> i < nb_tests tt ->
  test_status s !! i = Some test_not_run -> in_range i s = false ->
  test_status (sweep tt s) !! i = Some test_success /\
  calls i (trace (sweep tt s)) = calls i (trace s) /\
  nb_test_tried (sweep tt s) =
    (nb_test_tried s + not_run_count (take (nb_tests tt) (test_status s)))%Z /\
  not_run_count (take (nb_tests tt) (test_status s)) =
    (1 + not_run_count
           (take (nb_tests tt) (<[i := test_excluded]> (test_status s))))%Z.
Proof. apply sweep_skips_out_of_range. Qed.

(** C3.  When the retry pass runs (failures were counted, debug output
    was suspended and a retry was asked for), a failed test whose name is
    one of stress, fuzz, fuzz_initial, cnx_stress, cnx_ddos,
    eccf_corrupted_fuzz is not called again, its status stays
    [test_failed], and the value [main] returns is not zero. *)
Theorem C3_non_retryable_failure_is_kept (s : state World) (i : nat)
    (d : picoquic_test_def_t World) :
  tt !! i = Some d -> test_name d ∈ non_retryable ->
  test_status s !! i = Some test_failed ->
  (0 < nb_test_failed s)%Z ->
  disable_debug s = true -> retry_failed_test s = true ->
  (exists new, trace (report tt s) = trace s ++ new /\ calls_to i new = []) /\
  test_status (report tt s) !! i = Some test_failed /\
  ret (report tt s) <> 0%Z.
Proof.
  intros Hd Hname Hst Hf Hdd Hrf. apply cannot_retry_spec in Hname.
  destruct (report_with_retry tt s Hf Hdd Hrf)
    as (s3 & pre & post & Hv3 & Htr3 & Hpre & Hv & Htr & Hpost & _).
  destruct (same_vars_fields _ _ Hv3) as (_ & Hst3 & _).
  destruct (same_vars_fields _ _ Hv) as (Hret & Hstf & _).
  apply lookup_lt_Some in Hd as Hi.
  destruct (retry_loop_refused tt i d (nb_tests tt) s3) as (Hs4 & Hc4 & Hr4);
    [lia | exact Hd | exact Hname | rewrite Hst3; exact Hst |].
  fold (retry_pass tt s3) in Hs4, Hc4, Hr4.
  destruct (retry_loop_frame tt (nb_tests tt) s3) as (_ & (new & Hnew) & _);
    [lia|].
  fold (retry_pass tt s3) in Hnew.
  split; [|split].
  - exists (pre ++ new ++ post). split.
    + rewrite Htr, Hnew, Htr3, <- !app_assoc. reflexivity.
    + rewrite !calls_to_app.
      assert (calls_to i pre = []) as ->.
      { unfold calls_to. rewrite Hpre. reflexivity. }
      assert (calls_to i post = []) as ->.
      { unfold calls_to. rewrite Hpost. reflexivity. }
      rewrite app_nil_r. cbn [app].
      apply (calls_to_nil_of_calls i (trace s3)). rewrite <- Hnew. exact Hc4.
  - rewrite Hstf. exact Hs4.
  - rewrite Hret, Hr4; [discriminate | exact Hi].
Qed.

(** C4.  When the retry pass runs, a failed test whose name is not on the
    refusal list is called exactly once more: the report adds one call
    record [(i, r)] of it, and [r] is what its test function [test_fn d]
    returned on the world [wb] left by the calls recorded before it; the
    status of its entry follows that result ([test_success] for 0,
    [test_failed] otherwise); and if no entry is [test_failed] after the
    pass, the last line written is "All tests pass after second try." and
    the value [main] returns is 0. *)
Theorem C4_retryable_failure_is_rerun_once (s : state World) (i : nat)
    (d : picoquic_test_def_t World) :
  tt !! i = Some d -> test_name d ∉ non_retryable ->
  test_status s !! i = Some test_failed ->
  (0 < nb_test_failed s)%Z ->
  disable_debug s = true -> retry_failed_test s = true ->
  exists new r,
    trace (report tt s) = trace s ++ new /\
    calls_to i new = [(i, r)] /\
    (exists pre post wb wa,
       calls_of new = pre ++ (i, r) :: post /\
       genuine tt (world s) pre wb /\ test_fn d wb = (r, wa) /\
       genuine tt wa post (world (report tt s))) /\
    (r = 0%Z -> test_status (report tt s) !! i = Some test_success) /\
    (r <> 0%Z -> test_status (report tt s) !! i = Some test_failed) /\
    ((forall j, test_status (report tt s) !! j <> Some test_failed) ->
     ret (report tt s) = 0%Z /\
     last new =
       Some (ev_fprintf stdout ("All tests pass after second try." +:+ nl))).
Proof.
  intros Hd Hname Hst Hf Hdd Hrf.
  assert (cannot_retry (test_name d) = false) as Hcr.
  { destruct (cannot_retry (test_name d)) eqn:E; [|reflexivity].
    apply cannot_retry_spec in E. contradiction. }
  destruct (report_with_retry tt s Hf Hdd Hrf)
    as (s3 & pre & post & Hv3 & Htr3 & Hpre & Hv & Htr & Hpost & Hall).
  destruct (same_vars_fields _ _ Hv3)
    as (Hret3 & Hst3 & _ & _ & _ & _ & Hw3 & _).
  destruct (same_vars_fields _ _ Hv)
    as (Hret & Hstf & _ & _ & _ & _ & Hwf & _).
  apply lookup_lt_Some in Hd as Hi.
  destruct (retry_loop_retried tt i d (nb_tests tt) s3)
    as (new & r & Hnew & Hcalls & Hs4);
    [exact Hi | lia | exact Hd | exact Hcr | rewrite Hst3; exact Hst |].
  destruct (retry_loop_genuine tt (nb_tests tt) s3 (Nat.le_refl _))
    as (new' & Hnew' & Hgen).
  assert (new' = new) as ->.
  { rewrite Hnew in Hnew'. apply app_inv_head in Hnew'. congruence. }
  fold (retry_pass tt s3) in Hnew, Hs4, Hgen.
  exists (pre ++ new ++ post), r. split; [|split; [|split; [|split; [|split]]]].
  - rewrite Htr, Hnew, Htr3, <- !app_assoc. reflexivity.
  - rewrite !calls_to_app, Hcalls.
    assert (calls_to i pre = []) as ->.
    { unfold calls_to. rewrite Hpre. reflexivity. }
    assert (calls_to i post = []) as ->.
    { unfold calls_to. rewrite Hpost. reflexivity. }
    reflexivity.
  - rewrite !calls_of_app, Hpre, Hpost, app_nil_r. cbn [app].
    st_simpl. rewrite Hwf. rewrite Hw3 in Hgen.
    exact (genuine_at tt _ _ new i r d Hd Hcalls Hgen).
  - intros ->. rewrite Hstf, Hs4. reflexivity.
  - intros Hr. apply Z.eqb_neq in Hr. rewrite Hstf, Hs4, Hr. reflexivity.
  - intros Hnone.
    destruct (retry_loop_ret tt (nb_tests tt) s3) as [H0 | (_ & j & _ & Hj)];
      [lia | rewrite Hret3; reflexivity | |].
    + fold (retry_pass tt s3) in H0. split; [rewrite Hret; exact H0|].
      rewrite (Hall H0), !app_assoc. apply last_snoc.
    + fold (retry_pass tt s3) in Hj. rewrite <- Hstf in Hj.
      exfalso. exact (Hnone j Hj).
Qed.

(** C5 (amended).  Whenever more than one test was tried, the report opens
    with the line "Tried N tests, M fail(s)."; the word after M is "fails"
    exactly when M is at most 1 (so also for M = 0) and "fail" when M is
    greater than 1. *)
Theorem C5_summary_line_wording (s : state World) :
  (1 < nb_test_tried s)%Z ->
  exists rest,
    trace (report tt s) =
      trace s ++
      ev_fprintf stdout
        ("Tried " +:+ dec_int (nb_test_tried s) +:+ " tests, "
         +:+ dec_int (nb_test_failed s) +:+ " "
         +:+ (if (nb_test_failed s <=? 1)%Z then "fails" else "fail")
         +:+ "." +:+ nl)
      :: rest.
Proof.
  intros Ht. destruct (report_summary tt s Ht) as (rest & Hrest).
  exists rest. rewrite Hrest. unfold summary_line, fail_word.
  destruct (Z.ltb_spec 1 (nb_test_failed s)), (Z.leb_spec (nb_test_failed s) 1);
    try lia; reflexivity.
Qed.

Lemma only_clears_failures_intro (s f : state World) :
  (forall i,
     test_status f !! i = test_status s !! i \/
     test_status s !! i = Some test_failed /\
     test_status f !! i = Some test_success) ->
  nb_test_tried f = nb_test_tried s -> nb_test_failed f = nb_test_failed s ->
  (exists new, trace f = trace s ++ new) ->
  only_clears_failures s f.
Proof.
  intros Hst Ht Hf Hnew. unfold only_clears_failures.
  split; [|split; [|split; [|split; [exact Ht | split; [exact Hf | exact Hnew]]]]].
  - intros i v Hv Hne. destruct (Hst i) as [-> | [Hfl _]]; congruence.
  - intros i Hfl. destruct (Hst i) as [-> | [_ ->]]; auto.
  - intros i Hno. destruct (Hst i) as [-> | [Hfl _]]; congruence.
Qed.

(** C9.  The retry loop, and the whole report around it (summary, list of
    failures, retry pass, closing line; whether or not the pass runs),
    change no entry that is [test_success], [test_excluded] or
    [test_not_run]; an entry that is [test_failed] stays so or becomes
    [test_success]; [nb_test_tried] and [nb_test_failed] keep the values
    the summary line was written from; and what was written before stays
    written. *)
Theorem C9_retry_only_clears_failures (s : state World) :
  only_clears_failures s (retry_pass tt s) /\
  only_clears_failures s (report tt s).
Proof.
  split.
  - destruct (retry_loop_frame tt (nb_tests tt) s)
      as ((Ht & Hf & _) & Hnew & Hframe); [lia|].
    apply only_clears_failures_intro; assumption.
  - destruct (Z.lt_ge_cases 0 (nb_test_failed s)) as [Hpos|Hnone];
      [destruct (disable_debug s) eqn:Hdd;
       [destruct (retry_failed_test s) eqn:Hrf|]|].
    + destruct (report_with_retry tt s Hpos Hdd Hrf)
        as (s3 & pre & post & Hv3 & Htr3 & _ & Hv & Htr & _).
      destruct (same_vars_fields _ _ Hv3) as (_ & Hst3 & Ht3 & Hf3 & _).
      destruct (same_vars_fields _ _ Hv) as (_ & Hstf & Htf & Hff & _).
      destruct (retry_loop_frame tt (nb_tests tt) s3)
        as ((Ht4 & Hf4 & _) & (new & Hnew) & Hframe); [lia|].
      fold (retry_pass tt s3) in Ht4, Hf4, Hnew, Hframe.
      apply only_clears_failures_intro.
      * intros i. specialize (Hframe i). rewrite Hst3 in Hframe.
        rewrite Hstf. exact Hframe.
      * rewrite Htf, Ht4. exact Ht3.
      * rewrite Hff, Hf4. exact Hf3.
      * eexists. rewrite Htr, Hnew, Htr3, <- !app_assoc. reflexivity.
    + destruct (report_without_retry tt s) as (Hv & new & Htr & _).
      { right. rewrite Hdd, Hrf. reflexivity. }
      destruct (same_vars_fields _ _ Hv) as (_ & Hst & Ht & Hf & _).
      apply only_clears_failures_intro; eauto. rewrite Hst. auto.
    + destruct (report_without_retry tt s) as (Hv & new & Htr & _).
      { right. rewrite Hdd. reflexivity. }
      destruct (same_vars_fields _ _ Hv) as (_ & Hst & Ht & Hf & _).
      apply only_clears_failures_intro; eauto. rewrite Hst. auto.
    + destruct (report_without_retry tt s) as (Hv & new & Htr & _).
      { left. lia. }
      destruct (same_vars_fields _ _ Hv) as (_ & Hst & Ht & Hf & _).
      apply only_clears_failures_intro; eauto. rewrite Hst. auto.
Qed.

End SweepAndReport.

(** ** Option scanning and selection *)

Section Resolver.
Context {World : Type} (tt : list (picoquic_test_def_t World)).
Implicit Types s : state World.

Lemma quiet_refl s : quiet s s.
Proof.
  unfold quiet. repeat split. exists []. rewrite app_nil_r. auto.
Qed.

Lemma quiet_trans s1 s2 s3 : quiet s1 s2 -> quiet s2 s3 -> quiet s1 s3.
Proof.
  intros (Ht & Hf & Hl & Hw & new & Htr & Hnew)
         (Ht' & Hf' & Hl' & Hw' & new' & Htr' & Hnew').
  unfold quiet. repeat split; try congruence.
  exists (new ++ new'). rewrite Htr', Htr, <- app_assoc, calls_of_app, Hnew, Hnew'.
  auto.
Qed.

Lemma calls_of_usage_names (n : nat) (names : list string) :
  length names <= n -> calls_of (usage_names names) = [].
Proof.
  revert names. induction n as [|n IH]; intros names Hlen.
  - destruct names; [reflexivity | cbn in Hlen; lia].
  - destruct names as [|a [|b [|c [|d [|e l5]]]]]; try reflexivity.
    cbn [usage_names]. cbn in Hlen.
    change (calls_of (usage_names l5) = []). apply IH. lia.
Qed.

Lemma calls_of_usage_text (argv0 : string) : calls_of (usage_text tt argv0) = [].
Proof.
  unfold usage_text. rewrite !calls_of_app.
  rewrite (calls_of_usage_names _ _ (Nat.le_refl _)). reflexivity.
Qed.

(** [ret = usage(argv[0])]: the help text is written, [ret] is -1. *)
Lemma ret_usage_effect argv s :
  ret (ret_usage tt argv s) = (-1)%Z /\
  test_status (ret_usage tt argv s) = test_status s /\
  optind (ret_usage tt argv s) = optind s /\
  optarg (ret_usage tt argv s) = optarg s /\
  trace (ret_usage tt argv s) =
    trace s ++ usage_text tt (show_ptr (argv !! 0)) /\
  quiet s (ret_usage tt argv s).
Proof.
  unfold ret_usage, usage, quiet. st_simpl. repeat split.
  eexists. split; [reflexivity|]. apply calls_of_usage_text.
Qed.

Lemma usage_printed_app argv tr new :
  usage_printed tt argv tr -> usage_printed tt argv (tr ++ new).
Proof.
  intros (before & after & ->). exists before, (after ++ new).
  rewrite <- !app_assoc. reflexivity.
Qed.

Lemma usage_printed_ret_usage argv s :
  usage_printed tt argv (trace (ret_usage tt argv s)).
Proof.
  destruct (ret_usage_effect argv s) as (_ & _ & _ & _ & -> & _).
  exists (trace s), []. rewrite app_nil_r. reflexivity.
Qed.

(** A state obtained from [s] by assignments to the option variables and
    by writing is quiet with respect to [s]. *)
Ltac quiet_by_computation :=
  unfold quiet, ret_usage, usage; st_simpl; rewrite ?length_insert;
  repeat split;
  first
    [ exists []; rewrite app_nil_r; split; reflexivity
    | eexists; split;
      [ rewrite <- ?app_assoc; reflexivity
      | rewrite ?calls_of_app, ?calls_of_usage_text; reflexivity ] ].

Lemma getopt_quiet argv s o s' : getopt argv s = (o, s') -> quiet s s'.
Proof.
  unfold getopt. cbv zeta. intros H.
  repeat case_match; simplify_eq; quiet_by_computation.
Qed.

Lemma exclude_loop_quiet argv tokens s :
  quiet s (exclude_loop tt argv tokens s).
Proof.
  revert s. induction tokens as [|tn rest IH]; intros s; cbn [exclude_loop].
  - apply quiet_refl.
  - destruct (starts_with_dash tn); [apply quiet_refl|].
    eapply quiet_trans; [|apply IH].
    destruct (get_test_number tt tn <? 0)%Z; quiet_by_computation.
Qed.

Lemma handle_option_quiet argv opt s s' :
  handle_option tt argv opt s = Normal s' -> quiet s s'.
Proof.
  unfold handle_option, option_x, option_o, option_minutes, option_F,
    option_c, option_d, option_S.
  intros H.
  destruct (Ascii.eqb opt "x").
  { simplify_eq. eapply quiet_trans; [|apply exclude_loop_quiet].
    quiet_by_computation. }
  repeat case_match; simplify_eq; quiet_by_computation.
Qed.

(** Option scanning tries, fails and calls nothing. *)
Lemma option_loop_quiet fuel argv s s1 :
  option_loop tt fuel argv s = Some (Normal s1) -> quiet s s1.
Proof.
  revert s. induction fuel as [|fuel IH]; intros s; cbn [option_loop];
    [discriminate|].
  destruct (ret s =? 0)%Z.
  - destruct (getopt argv s) as [[opt|] s'] eqn:Hg.
    + destruct (handle_option tt argv opt s') as [s2|code s2|s2] eqn:Hh;
        try discriminate.
      intros Hloop. eapply quiet_trans; [eapply getopt_quiet; eauto|].
      eapply quiet_trans; [eapply handle_option_quiet; eauto|]. auto.
    + intros [= <-]. eapply getopt_quiet; eauto.
  - intros [= <-]. apply quiet_refl.
Qed.

(** More fuel does not change a result. *)
Lemma option_loop_fuel fuel extra argv s r :
  option_loop tt fuel argv s = Some r ->
  option_loop tt (fuel + extra) argv s = Some r.
Proof.
  revert s. induction fuel as [|fuel IH]; intros s; cbn [option_loop Nat.add];
    [discriminate|].
  destruct (ret s =? 0)%Z; [|auto].
  destruct (getopt argv s) as [[opt|] s']; [|auto].
  destruct (handle_option tt argv opt s'); auto.
Qed.

(** ** Name lookup *)

Lemma get_test_number_from_spec (table : list (picoquic_test_def_t World))
    (i : nat) (name : string) (acc : Z) :
  (get_test_number_from i table name acc = acc /\
   forall d, d ∈ table -> test_name d <> name) \/
  (exists k d, table !! k = Some d /\ test_name d = name /\
     get_test_number_from i table name acc = Z.of_nat (i + k)).
Proof.
  revert i acc. induction table as [|d rest IH]; intros i acc;
    cbn [get_test_number_from].
  - left. split; [reflexivity|]. intros d Hd. inversion Hd.
  - destruct (IH (S i) (if String.eqb name (test_name d)
                        then Z.of_nat i else acc))
      as [[Heq Hnone] | (k & d' & Hk & Hname & Heq)].
    + destruct (String.eqb_spec name (test_name d)) as [->|Hne].
      * right. exists 0, d. rewrite Heq, Nat.add_0_r. auto.
      * left. split; [exact Heq|]. intros d' Hd'.
        apply elem_of_cons in Hd' as [->|Hd']; [congruence | auto].
    + right. exists (S k), d'. rewrite Heq. split; [exact Hk|].
      split; [exact Hname|]. f_equal. lia.
Qed.

(** A name that is found is the name of the entry at the index returned. *)
Lemma get_test_number_found (name : string) :
  (0 <= get_test_number tt name)%Z ->
  exists d, tt !! Z.to_nat (get_test_number tt name) = Some d /\
            test_name d = name.
Proof.
  unfold get_test_number. intros Hpos.
  destruct (get_test_number_from_spec tt 0 name (-1))
    as [[Heq _] | (k & d & Hk & Hname & Heq)]; [lia|].
  exists d. rewrite Heq, Nat2Z.id. auto.
Qed.


(** With the names all different, a registered name leads to its entry. *)
Lemma get_test_number_unique (i : nat) (d : picoquic_test_def_t World) :
  NoDup (map test_name tt) -> tt !! i = Some d ->
  get_test_number tt (test_name d) = Z.of_nat i.
Proof.
  unfold get_test_number. intros Hnd Hd.
  destruct (get_test_number_from_spec tt 0 (test_name d) (-1))
    as [[_ Hnone] | (k & d' & Hk & Hname & ->)].
  - exfalso. eapply Hnone; [|reflexivity].
    eapply list_elem_of_lookup_2. exact Hd.
  - f_equal. cbn. eapply NoDup_lookup; [exact Hnd | |].
    + change map with (@fmap list _) . rewrite list_lookup_fmap, Hk. cbn.
      rewrite Hname. reflexivity.
    + change map with (@fmap list _). rewrite list_lookup_fmap, Hd. reflexivity.
Qed.

(** ** Selection *)

Lemma same_but_selection_fields s s' :
  same_but_selection s s' ->
  ret s' = ret s /\ nb_test_tried s' = nb_test_tried s /\
  nb_test_failed s' = nb_test_failed s /\ auto_bypass s' = auto_bypass s /\
  first_test s' = first_test s /\ last_test s' = last_test s /\
  disable_debug s' = disable_debug s /\
  retry_failed_test s' = retry_failed_test s /\
  world s' = world s /\ trace s' = trace s.
Proof.
  intros H. unfold same_but_selection in H.
  repeat split;
    [ exact (f_equal ret H) | exact (f_equal nb_test_tried H)
    | exact (f_equal nb_test_failed H) | exact (f_equal auto_bypass H)
    | exact (f_equal first_test H) | exact (f_equal last_test H)
    | exact (f_equal disable_debug H) | exact (f_equal retry_failed_test H)
    | exact (f_equal world H) | exact (f_equal trace H) ].
Qed.

Lemma same_but_selection_trans s1 s2 s3 :
  same_but_selection s1 s2 -> same_but_selection s2 s3 ->
  same_but_selection s1 s3.
Proof. unfold same_but_selection. congruence. Qed.

(** The loop that marks every entry excluded. *)
Lemma exclude_all_effect s :
  same_but_selection s (exclude_all tt s) /\
  optind (exclude_all tt s) = optind s /\
  length (test_status (exclude_all tt s)) = length (test_status s) /\
  forall i, i < nb_tests tt -> i < length (test_status s) ->
            test_status (exclude_all tt s) !! i = Some test_excluded.
Proof.
  unfold exclude_all.
  enough (same_but_selection s (for_loop (nb_tests tt)
            (fun i acc => set_status i test_excluded acc) s) /\
          optind (for_loop (nb_tests tt)
            (fun i acc => set_status i test_excluded acc) s) = optind s /\
          length (test_status (for_loop (nb_tests tt)
            (fun i acc => set_status i test_excluded acc) s))
            = length (test_status s) /\
          forall i, i < nb_tests tt -> i < length (test_status s) ->
            test_status (for_loop (nb_tests tt)
              (fun i acc => set_status i test_excluded acc) s) !! i
              = Some test_excluded) by tauto.
  apply (for_loop_ind (fun k a =>
    same_but_selection s a /\ optind a = optind s /\
    length (test_status a) = length (test_status s) /\
    forall i, i < k -> i < length (test_status s) ->
              test_status a !! i = Some test_excluded)).
  - repeat split. intros i Hi. lia.
  - intros k a Hk (Hsame & Hopt & Hlen & Hdone). split; [|split; [|split]].
    + eapply same_but_selection_trans; [exact Hsame|]. reflexivity.
    + exact Hopt.
    + st_simpl. rewrite length_insert. exact Hlen.
    + intros i Hi Hil. st_simpl. destruct (decide (i = k)) as [->|Hne].
      * apply list_lookup_insert_eq. lia.
      * rewrite list_lookup_insert_ne by congruence. apply Hdone; lia.
Qed.

Lemma list_exists_dec {A : Type} (P : A -> Prop)
    (Hdec : forall x, Decision (P x)) (l : list A) :
  (exists x, x ∈ l /\ P x) \/ ~ (exists x, x ∈ l /\ P x).
Proof.
  destruct (decide (Exists P l)) as [H|H]; [left|right];
    rewrite <- Exists_exists; exact H.
Qed.

(** The scan of the trailing list. *)
Lemma select_loop_effect argv names s :
  quiet s (select_loop tt argv names s) /\
  same_config s (select_loop tt argv names s) /\
  (ret s <> 0%Z -> ret (select_loop tt argv names s) <> 0%Z) /\
  ((exists name, name ∈ names /\ (get_test_number tt name < 0)%Z) ->
   ret (select_loop tt argv names s) = (-1)%Z /\
   usage_printed tt argv (trace (select_loop tt argv names s))) /\
  ((forall name, name ∈ names -> (0 <= get_test_number tt name)%Z) ->
   ret (select_loop tt argv names s) = ret s /\
   trace (select_loop tt argv names s) = trace s /\
   (forall i, i < length (test_status s) ->
      (exists name, name ∈ names /\ get_test_number tt name = Z.of_nat i) ->
      test_status (select_loop tt argv names s) !! i = Some test_not_run) /\
   (forall i,
      (forall name, name ∈ names -> get_test_number tt name <> Z.of_nat i) ->
      test_status (select_loop tt argv names s) !! i = test_status s !! i)).
Proof.
  revert s. induction names as [|name rest IH]; intros s; cbn [select_loop].
  - split; [apply quiet_refl|]. split; [apply same_config_refl|].
    split; [auto|]. split.
    + intros (name & Hin & _). inversion Hin.
    + intros _. split; [reflexivity|]. split; [reflexivity|]. split; [|auto].
      intros i _ (name & Hin & _). inversion Hin.
  - set (s1 := if (get_test_number tt name <? 0)%Z then _ else _).
    specialize (IH (set_optind (S (optind s1)) s1)).
    destruct IH as (Hq & Hcfg & Hret & Hbad & Hgood).
    assert (quiet s s1 /\ same_config s s1 /\ (ret s <> 0%Z -> ret s1 <> 0%Z))
      as (Hq1 & Hcfg1 & Hret1).
    { subst s1. destruct (get_test_number tt name <? 0)%Z.
      - split; [quiet_by_computation|]. split; [|intros _; discriminate].
        unfold same_config, ret_usage, usage. st_simpl. tauto.
      - split; [quiet_by_computation|]. split; [|auto].
        unfold same_config. st_simpl. tauto. }
    split; [|split; [|split; [|split]]].
    + eapply quiet_trans; [exact Hq1|]. eapply quiet_trans; [|exact Hq].
      quiet_by_computation.
    + eapply same_config_trans; [exact Hcfg1|].
      eapply same_config_trans; [|exact Hcfg].
      unfold same_config. st_simpl. tauto.
    + intros H0. apply Hret. st_simpl. auto.
    + intros (bad & Hin & Hneg). apply elem_of_cons in Hin as [->|Hin].
      * destruct (list_exists_dec
                    (fun b => (get_test_number tt b < 0)%Z) _ rest)
          as [Hex|Hnex].
        { apply Hbad. exact Hex. }
        assert (ret s1 = (-1)%Z /\ usage_printed tt argv (trace s1)) as [Hr1 Hu1].
        { subst s1. apply Z.ltb_lt in Hneg. rewrite Hneg.
          split; [apply ret_usage_effect | apply usage_printed_ret_usage]. }
        destruct Hq as (_ & _ & _ & _ & new & Htr & _).
        split.
        -- (* the rest of the scan resolves, so it keeps [ret] *)
           destruct Hgood as (Hkeep & _).
           { intros b Hb. destruct (Z.le_gt_cases 0 (get_test_number tt b));
               [assumption|]. exfalso. apply Hnex. exists b. split; [exact Hb|lia]. }
           rewrite Hkeep. exact Hr1.
        -- rewrite Htr. apply usage_printed_app. exact Hu1.
      * apply Hbad. eauto.
    + intros Hall.
      assert (0 <= get_test_number tt name)%Z as Hname
        by (apply Hall; apply elem_of_cons; auto).
      assert (ret s1 = ret s /\ trace s1 = trace s /\
              test_status s1 =
                <[Z.to_nat (get_test_number tt name) := test_not_run]>
                  (test_status s)) as (Hr1 & Ht1 & Hst1).
      { subst s1. apply Z.ltb_ge in Hname. rewrite Hname. auto. }
      destruct Hgood as (Hkeep & Htrace & Hsel & Hother).
      { intros b Hb. apply Hall. apply elem_of_cons. auto. }
      st_simpl. rewrite Hkeep, Htrace, Hr1, Ht1.
      split; [reflexivity|]. split; [reflexivity|]. split.
      * intros i Hi (b & Hin & Hb).
        destruct (list_exists_dec
                    (fun c => get_test_number tt c = Z.of_nat i) _ rest)
          as [Hex|Hnex].
        -- apply Hsel; [|exact Hex]. rewrite Hst1, length_insert. exact Hi.
        -- rewrite Hother.
           ++ rewrite Hst1.
              apply elem_of_cons in Hin as [->|Hin].
              ** rewrite Hb, Nat2Z.id. apply list_lookup_insert_eq. exact Hi.
              ** exfalso. apply Hnex. eauto.
           ++ intros c Hc Heq. apply Hnex. eauto.
      * intros i Hno. rewrite Hother.
        -- rewrite Hst1. apply list_lookup_insert_ne.
           intros Heq. apply (Hno name); [apply elem_of_cons; auto|].
           rewrite <- Heq. rewrite Z2Nat.id; [reflexivity | exact Hname].
        -- intros c Hc. apply Hno. apply elem_of_cons. auto.
Qed.

(** Auto-bypass: the flag is raised and every entry excluded. *)
Lemma bypass_effect s :
  let s' := exclude_all tt (set_auto_bypass true s) in
  quiet s s' /\ same_but_selection (set_auto_bypass true s) s' /\
  auto_bypass s' = true /\ optind s' = optind s /\
  length (test_status s') = length (test_status s) /\
  forall i, i < nb_tests tt -> i < length (test_status s) ->
            test_status s' !! i = Some test_excluded.
Proof.
  intros s'. subst s'.
  destruct (exclude_all_effect (set_auto_bypass true s))
    as (Hsame & Hopt & Hlen & Hall).
  destruct (same_but_selection_fields _ _ Hsame)
    as (_ & Ht & Hf & Hb & _ & _ & _ & _ & Hw & Htr).
  st_simpl. split; [|auto 10].
  unfold quiet. rewrite Ht, Hf, Hlen, Hw, Htr. repeat split.
  exists []. rewrite app_nil_r. auto.
Qed.

(** The option variables selection does not assign. *)
Lemma select_tests_effect argv s :
  quiet s (select_tests tt argv s) /\
  first_test (select_tests tt argv s) = first_test s /\
  last_test (select_tests tt argv s) = last_test s /\
  disable_debug (select_tests tt argv s) = disable_debug s /\
  retry_failed_test (select_tests tt argv s) = retry_failed_test s /\
  (ret s <> 0%Z -> ret (select_tests tt argv s) <> 0%Z).
Proof.
  unfold select_tests, select_listed.
  set (sb := stresser_bypass tt s).
  assert (quiet s sb /\ first_test sb = first_test s /\
          last_test sb = last_test s /\ disable_debug sb = disable_debug s /\
          retry_failed_test sb = retry_failed_test s /\ ret sb = ret s)
    as (Hq & Hf & Hl & Hd & Hr & Hret).
  { subst sb. unfold stresser_bypass.
    destruct (_ || _); [|split; [apply quiet_refl|tauto]].
    destruct (bypass_effect s) as (Hq & Hsame & _).
    destruct (same_but_selection_fields _ _ Hsame)
      as (? & _ & _ & _ & ? & ? & ? & ? & _).
    st_simpl. auto 10. }
  destruct (optind sb <? length argv).
  - destruct (bypass_effect sb) as (Hq' & Hsame & _).
    destruct (same_but_selection_fields _ _ Hsame)
      as (Hret' & _ & _ & _ & Hf' & Hl' & Hd' & Hr' & _).
    st_simpl.
    destruct (select_loop_effect argv (drop (optind sb) argv)
                (exclude_all tt (set_auto_bypass true sb)))
      as (Hq2 & (Hf2 & Hl2 & _ & Hd2 & Hr2) & Hret2 & _).
    split; [eapply quiet_trans; [exact Hq|]; eapply quiet_trans; eauto|].
    rewrite Hf2, Hl2, Hd2, Hr2, Hf', Hl', Hd', Hr'. repeat split; try assumption.
    intros H0. apply Hret2. rewrite Hret', Hret. exact H0.
  - rewrite Hret. auto 10.
Qed.


(** Rule 2 of the resolver, when every name of the list resolves. *)
Lemma select_tests_listed argv s :
  optind s < length argv ->
  (forall name, name ∈ drop (optind s) argv ->
                (0 <= get_test_number tt name)%Z) ->
  let s' := select_tests tt argv s in
  auto_bypass s' = true /\ ret s' = ret s /\ trace s' = trace s /\
  (forall i, i < nb_tests tt -> i < length (test_status s) ->
     (exists name, name ∈ drop (optind s) argv /\
                   get_test_number tt name = Z.of_nat i) ->
     test_status s' !! i = Some test_not_run) /\
  (forall i, i < nb_tests tt -> i < length (test_status s) ->
     (forall name, name ∈ drop (optind s) argv ->
                   get_test_number tt name <> Z.of_nat i) ->
     test_status s' !! i = Some test_excluded).
Proof.
  intros Hlist Hres s'. subst s'. unfold select_tests, select_listed.
  set (sb := stresser_bypass tt s).
  assert (optind sb = optind s /\ ret sb = ret s /\ trace sb = trace s /\
          length (test_status sb) = length (test_status s))
    as (Hopt & Hret & Htr & Hlen).
  { subst sb. unfold stresser_bypass. destruct (_ || _); [|auto].
    destruct (bypass_effect s) as (_ & Hsame & _ & Hopt & Hlen & _).
    destruct (same_but_selection_fields _ _ Hsame)
      as (? & _ & _ & _ & _ & _ & _ & _ & _ & ?).
    st_simpl. auto. }
  rewrite Hopt. apply Nat.ltb_lt in Hlist. rewrite Hlist.
  destruct (bypass_effect sb) as (_ & Hsame & Hb & _ & Hlen' & Hall).
  destruct (same_but_selection_fields _ _ Hsame)
    as (Hret' & _ & _ & _ & _ & _ & _ & _ & _ & Htr').
  cbv zeta in *. st_simpl.
  destruct (select_loop_effect argv (drop (optind s) argv)
              (exclude_all tt (set_auto_bypass true sb)))
    as (_ & (_ & _ & Hb2 & _) & _ & _ & Hgood).
  destruct (Hgood Hres) as (Hret2 & Htr2 & Hsel & Hother).
  rewrite Hb2, Hb, Hret2, Htr2, Hret', Htr', Hret, Htr.
  repeat split.
  - intros i Hi Hil Hex. apply Hsel; [|exact Hex]. rewrite Hlen', Hlen. exact Hil.
  - intros i Hi Hil Hno. rewrite (Hother i Hno). apply Hall; [exact Hi|].
    rewrite Hlen. exact Hil.
Qed.


End Resolver.

(** ** The whole of [main] *)

Section Main.
Context {World : Type} (tt : list (picoquic_test_def_t World)).
Implicit Types s : state World.

(** What holds of every state reached by option scanning. *)
Lemma entry_state_facts (w : World) :
  ret (entry_state tt w) = 0%Z /\
  nb_test_tried (entry_state tt w) = 0%Z /\
  nb_test_failed (entry_state tt w) = 0%Z /\
  length (test_status (entry_state tt w)) = nb_tests tt /\
  calls_of (trace (entry_state tt w)) = [] /\
  world (entry_state tt w) = w.
Proof.
  unfold entry_state, initial_state. st_simpl.
  rewrite length_replicate. auto 10.
Qed.

Lemma quiet_from_entry (w : World) s :
  quiet (entry_state tt w) s ->
  nb_test_tried s = 0%Z /\ nb_test_failed s = 0%Z /\
  length (test_status s) = nb_tests tt /\ calls_of (trace s) = [] /\
  world s = w.
Proof.
  destruct (entry_state_facts w) as (_ & Ht & Hf & Hl & Hc & Hw).
  intros (Ht' & Hf' & Hl' & Hw' & new & Htr & Hnew).
  rewrite Htr, calls_of_app, Hc, Hnew. repeat split; congruence.
Qed.

Lemma loop_head_quiet argv w s :
  loop_head tt argv w s -> quiet (entry_state tt w) s.
Proof.
  induction 1 as [|s s1 s2 opt _ IH _ Hg Hh].
  - apply quiet_refl.
  - eapply quiet_trans; [exact IH|].
    eapply quiet_trans; [eapply getopt_quiet; eauto|].
    eapply handle_option_quiet; eauto.
Qed.

(** Scanning from the entry state passes through every loop head. *)
Lemma loop_head_run argv w s :
  loop_head tt argv w s ->
  exists n, forall fuel,
    option_loop tt (n + fuel) argv (entry_state tt w)
    = option_loop tt fuel argv s.
Proof.
  induction 1 as [|s s1 s2 opt _ (n & IH) H0 Hg Hh].
  - exists 0. reflexivity.
  - exists (S n). intros fuel.
    replace (S n + fuel) with (n + S fuel) by lia.
    rewrite IH. cbn [option_loop].
    apply Z.eqb_eq in H0. rewrite H0, Hg, Hh. reflexivity.
Qed.

Lemma main_scanned fuel argv w s1 :
  option_loop tt fuel argv (entry_state tt w) = Some (Normal s1) ->
  main tt true fuel argv w = Some (Normal (run_selected tt argv s1)).
Proof. unfold main. intros ->. reflexivity. Qed.

(** A sweep that has nothing to run, followed by the report. *)
Lemma finish_without_run s :
  nb_test_failed s = 0%Z ->
  (forall j, j < nb_tests tt -> test_status s !! j = Some test_not_run ->
             in_range j s = false) ->
  ret (report tt (sweep tt s)) = ret s /\
  nb_test_failed (report tt (sweep tt s)) = 0%Z /\
  nb_test_tried (report tt (sweep tt s)) = nb_test_tried (sweep tt s) /\
  test_status (report tt (sweep tt s)) = test_status (sweep tt s) /\
  calls_of (trace (report tt (sweep tt s))) = calls_of (trace s) /\
  exists new, trace (report tt (sweep tt s)) = trace s ++ new.
Proof.
  intros Hf Hout.
  assert (calls_of (trace (sweep tt s)) = calls_of (trace s) /\
          nb_test_failed (sweep tt s) = nb_test_failed s /\
          ret (sweep tt s) = ret s) as (Hc & Hfs & Hr).
  { unfold sweep. destruct (ret s =? 0)%Z; [|auto].
    destruct (sweep_loop_quiet tt (nb_tests tt) s) as (? & ? & ? & _);
      [lia | exact Hout | auto]. }
  destruct (sweep_extends tt s) as (new1 & Htr1).
  destruct (report_without_retry tt (sweep tt s)) as (Hv & new & Htr & Hnew).
  { left. lia. }
  destruct (same_vars_fields _ _ Hv) as (-> & -> & -> & -> & _).
  rewrite Htr, calls_of_app, Hnew, app_nil_r, Htr1, <- app_assoc.
  rewrite <- Htr1. repeat split; try congruence. eauto.
Qed.

Lemma set_debug_effect s :
  same_vars s (set_debug s) /\
  exists new, trace (set_debug s) = trace s ++ new /\ calls_of new = [].
Proof.
  unfold set_debug. destruct (disable_debug s);
    (split; [reflexivity|]; eexists; split; reflexivity).
Qed.



Lemma in_range_empty i s :
  (last_test s < first_test s)%Z -> in_range i s = false.
Proof.
  intros Hempty. unfold in_range.
  destruct (Z.leb_spec (first_test s) (Z.of_nat i)),
           (Z.leb_spec (Z.of_nat i) (last_test s)); try reflexivity; lia.
Qed.

(** C10 (amended).  First part: when the sweep runs (it is entered with
    [ret] at 0), a selected ([test_not_run]) entry whose ordinal is
    outside the range is counted as tried and set to [test_success]
    without a call of its test function.  Second part: when the option
    loop is left ([option_loop] gives [Normal s1]), selection ends
    without usage error and the range is empty ([last_test <
    first_test]), [main] returns 0 with no failure counted and no test
    called, every selected entry being counted as tried and marked
    [test_success]; after the sweep it writes the line "Tried N tests, 0
    fails." if the number N of selected entries is greater than 1, and
    nothing otherwise. *)
Theorem C10_out_of_range_entries_pass_unrun :
  (forall (s : state World) (i : nat),
     ret s = 0%Z -> i < nb_tests tt ->
     test_status s !! i = Some test_not_run -> in_range i s = false ->
     test_status (sweep tt s) !! i = Some test_success /\
     calls i (trace (sweep tt s)) = calls i (trace s) /\
     nb_test_tried (sweep tt s) =
       (nb_test_tried s
        + not_run_count (take (nb_tests tt) (test_status s)))%Z /\
     not_run_count (take (nb_tests tt) (test_status s)) =
       (1 + not_run_count
              (take (nb_tests tt) (<[i := test_excluded]> (test_status s))))%Z)
  /\
  (forall (fuel : nat) (argv : list string) (w : World) (s1 : state World),
     option_loop tt fuel argv (entry_state tt w) = Some (Normal s1) ->
     ret (select_tests tt argv s1) = 0%Z ->
     (last_test s1 < first_test s1)%Z ->
     exists f,
       main tt true fuel argv w = Some (Normal f) /\
       ret f = 0%Z /\ nb_test_failed f = 0%Z /\ calls_of (trace f) = [] /\
       nb_test_tried f =
         not_run_count
           (take (nb_tests tt) (test_status (select_tests tt argv s1))) /\
       (forall i, i < nb_tests tt ->
          test_status (select_tests tt argv s1) !! i = Some test_not_run ->
          test_status f !! i = Some test_success) /\
       trace f =
         trace (sweep tt (set_debug (select_tests tt argv s1))) ++
         (if (1 <? nb_test_tried f)%Z
          then [ev_fprintf stdout
                  ("Tried " +:+ dec_int (nb_test_tried f)
                   +:+ " tests, 0 fails." +:+ nl)]
          else [])).
Proof.
  split; [apply sweep_skips_out_of_range|].
  intros fuel argv w s1 Hscan Hok Hempty.
  eexists. split; [apply main_scanned; exact Hscan|]. unfold run_selected.
  destruct (quiet_from_entry w s1 (option_loop_quiet tt _ _ _ _ Hscan))
    as (Ht1 & Hf1 & _ & Hc1 & _).
  destruct (select_tests_effect tt argv s1)
    as ((Ht2 & Hf2 & _ & _ & new2 & Htr2 & Hnew2) & Hfirst & Hlast & _).
  set (s2 := select_tests tt argv s1) in *.
  destruct (set_debug_effect s2) as (Hv3 & new3 & Htr3 & Hnew3).
  destruct (same_vars_fields _ _ Hv3)
    as (Hr3 & Hst3 & Ht3 & Hf3 & _ & _ & _ & Hfirst3 & Hlast3 & _).
  set (s3 := set_debug s2) in *.
  assert (forall j, in_range j s3 = false) as Hout.
  { intros j. apply in_range_empty. rewrite Hfirst3, Hlast3, Hfirst, Hlast.
    exact Hempty. }
  destruct (finish_without_run s3) as (Hrf & Hff & Htf & Hstf & Hcf & _).
  { congruence. }
  { intros j _ _. apply Hout. }
  assert (nb_test_failed (sweep tt s3) = 0%Z) as Hfs.
  { unfold sweep. destruct (ret s3 =? 0)%Z; [|congruence].
    destruct (sweep_loop_quiet tt (nb_tests tt) s3) as (_ & Hq & _);
      [lia | intros j _ _; apply Hout |].
    congruence. }
  pose proof (report_without_failure tt (sweep tt s3) Hfs) as Hout_tr.
  rewrite Hrf, Hff, Htf, Hstf, Hcf, Htr3, Htr2, !calls_of_app, Hc1, Hnew2, Hnew3.
  split; [congruence|]. split; [reflexivity|]. split; [reflexivity|].
  split; [|split].
  - unfold sweep. replace (ret s3 =? 0)%Z with true
      by (symmetry; apply Z.eqb_eq; congruence).
    rewrite (sweep_loop_tried tt (nb_tests tt) s3 (Nat.le_refl _)).
    rewrite Hst3. lia.
  - intros i Hi Hsel.
    apply sweep_skips_out_of_range; [congruence | exact Hi | | apply Hout].
    rewrite Hst3. exact Hsel.
  - exact Hout_tr.
Qed.

Lemma get_test_number_known (name : string) :
  name ∈ map test_name tt -> (0 <= get_test_number tt name)%Z.
Proof.
  unfold get_test_number. intros Hin.
  destruct (get_test_number_from_spec tt 0 name (-1))
    as [[_ Hnone] | (k & d & _ & _ & ->)]; [|lia].
  apply list_elem_of_fmap in Hin as (d & -> & Hd).
  exfalso. exact (Hnone d Hd eq_refl).
Qed.

(** C7 (amended).  When the option loop is left (by [getopt] returning -1
    or by a usage error: [option_loop] gives [Normal s1], so the process
    has not exited through [-h], has not read past [argv], and is not
    held by an attached [-x]) with a trailing list of names that are all
    registered (the names of the registry being all different), [main]
    returns, and selection leaves exactly the entries named in the list
    [test_not_run] and every other entry [test_excluded], whatever [-x]
    groups came before; if no usage error occurred in the option loop
    ([ret] is 0 when it is left), the sweep then calls, once each,
    exactly the listed tests whose ordinal lies within the range
    [first_test, last_test], and no others; and the sweep writes no
    "bypassed" notice. *)
Theorem C7_positional_list_selects (fuel : nat) (argv : list string)
    (w : World) (s1 : state World) :
  option_loop tt fuel argv (entry_state tt w) = Some (Normal s1) ->
  optind s1 < length argv ->
  (forall name, name ∈ drop (optind s1) argv -> name ∈ map test_name tt) ->
  NoDup (map test_name tt) ->
  let names := drop (optind s1) argv in
  let s2 := select_tests tt argv s1 in
  let s3 := sweep tt (set_debug s2) in
  main tt true fuel argv w = Some (Normal (report tt s3)) /\
  (forall i d, tt !! i = Some d ->
     test_status s2 !! i =
       Some (if decide (test_name d ∈ names)
             then test_not_run else test_excluded)) /\
  (ret s1 = 0%Z ->
   forall i d, tt !! i = Some d ->
     calls i (trace s3) =
       if decide (test_name d ∈ names)
       then (if in_range i s1 then 1 else 0) else 0) /\
  exists new,
    trace s3 = trace (set_debug s2) ++ new /\
    Forall (fun e => is_bypass_notice e = false) new.
Proof.
  intros Hscan Hlist Hreg Hnd names s2 s3.
  split; [apply main_scanned; exact Hscan|].
  destruct (quiet_from_entry w s1 (option_loop_quiet tt _ _ _ _ Hscan))
    as (_ & _ & Hl1 & Hc1 & _).
  destruct (select_tests_listed tt argv s1 Hlist)
    as (Hb2 & Hr2 & Htr2 & Hsel & Hother).
  { intros name Hin. apply get_test_number_known, Hreg, Hin. }
  fold s2 in Hb2, Hr2, Htr2, Hsel, Hother. fold names in Hsel, Hother.
  destruct (select_tests_effect tt argv s1) as (_ & Hfirst & Hlast & _).
  fold s2 in Hfirst, Hlast.
  destruct (set_debug_effect s2) as (Hv3 & new3 & Htr3 & Hnew3).
  destruct (same_vars_fields _ _ Hv3)
    as (Hr3 & Hst3 & _ & _ & _ & _ & _ & Hfirst3 & Hlast3 & Hb3).
  assert (forall i d, tt !! i = Some d ->
            test_status s2 !! i =
              Some (if decide (test_name d ∈ names)
                    then test_not_run else test_excluded)) as Hstatus.
  { intros i d Hd. apply lookup_lt_Some in Hd as Hi.
    destruct (decide (test_name d ∈ names)) as [Hin|Hnin].
    - apply Hsel; [exact Hi | unfold nb_tests in Hl1; lia |].
      exists (test_name d). split; [exact Hin|].
      apply get_test_number_unique; assumption.
    - apply Hother; [exact Hi | unfold nb_tests in Hl1; lia |].
      intros name Hin Heq. apply Hnin.
      destruct (get_test_number_found tt name) as (d' & Hd' & <-); [lia|].
      rewrite Heq, Nat2Z.id, Hd in Hd'. congruence. }
  split; [exact Hstatus|]. split.
  - intros H0 i d Hd. apply lookup_lt_Some in Hd as Hi.
    subst s3. unfold sweep.
    replace (ret (set_debug s2) =? 0)%Z with true
      by (symmetry; apply Z.eqb_eq; congruence).
    destruct (sweep_loop_at tt i (nb_tests tt) (set_debug s2)) as [_ Hafter];
      [lia|].
    specialize (Hafter Hi). unfold entry_swept in Hafter.
    rewrite Hst3, (Hstatus i d Hd) in Hafter.
    assert (calls i (trace (set_debug s2)) = 0) as Hzero.
    { apply calls_of_nil_calls.
      rewrite Htr3, calls_of_app, Hnew3, Htr2, Hc1. reflexivity. }
    assert (in_range i (set_debug s2) = in_range i s1) as Hrange.
    { unfold in_range. rewrite Hfirst3, Hlast3, Hfirst, Hlast. reflexivity. }
    rewrite Hzero, Hrange in Hafter.
    destruct (decide (test_name d ∈ names)).
    + destruct (in_range i s1); tauto.
    + tauto.
  - subst s3. unfold sweep. destruct (ret (set_debug s2) =? 0)%Z.
    + apply sweep_loop_no_notice; [lia | congruence].
    + exists []. rewrite app_nil_r. auto.
Qed.




(** After a usage error nothing is run and the error is what [main]
    returns. *)
Lemma run_selected_error argv (w : World) s1 :
  quiet (entry_state tt w) s1 ->
  ret (select_tests tt argv s1) <> 0%Z ->
  ret (run_selected tt argv s1) = ret (select_tests tt argv s1) /\
  calls_of (trace (run_selected tt argv s1)) = [] /\
  (usage_printed tt argv (trace (select_tests tt argv s1)) ->
   usage_printed tt argv (trace (run_selected tt argv s1))).
Proof.
  intros Hq Herr. unfold run_selected.
  destruct (quiet_from_entry w s1 Hq) as (Ht1 & Hf1 & _ & Hc1 & _).
  destruct (select_tests_effect tt argv s1)
    as ((Ht2 & Hf2 & _ & _ & new2 & Htr2 & Hnew2) & _).
  set (s2 := select_tests tt argv s1) in *.
  destruct (set_debug_effect s2) as (Hv3 & new3 & Htr3 & Hnew3).
  destruct (same_vars_fields _ _ Hv3) as (Hr3 & _ & Ht3 & Hf3 & _).
  set (s3 := set_debug s2) in *.
  assert (sweep tt s3 = s3) as Hsweep.
  { unfold sweep. replace (ret s3 =? 0)%Z with false; [reflexivity|].
    symmetry. apply Z.eqb_neq. congruence. }
  rewrite Hsweep.
  destruct (report_without_retry tt s3) as (Hv & new & Htr & Hnew).
  { left. lia. }
  destruct (same_vars_fields _ _ Hv) as (-> & _).
  rewrite Htr, Htr3, !calls_of_app, Hnew, Hnew3.
  split; [exact Hr3|]. split.
  - rewrite Htr2, calls_of_app, Hc1, Hnew2. reflexivity.
  - intros Hu. do 2 apply usage_printed_app. exact Hu.
Qed.


End Main.

(** * The properties on sample runs *)

(** The run without options: every test is run, and the summary says
    "0 fails". *)
Example run_plain :
  exists f,
    main all_pass true 5 argv_plain 0 = Some (Normal f) /\
    ret f = 0%Z /\ calls_of (trace f) = [(0, 0%Z); (1, 0%Z); (2, 0%Z); (3, 0%Z)] /\
    last (trace f) = Some (ev_fprintf stdout ("Tried 4 tests, 0 fails." +:+ nl)).
Proof. eexists. split; [vm_compute; reflexivity|]. vm_compute. auto. Qed.

(** [-x a b] takes both names into its group. *)
Example run_exclude_two :
  test_status
    (swept all_pass 5 ["picoquic_sp"; "-x"; "dtn_basic"; "dtn_twenty"] 0)
  = [test_excluded; test_success; test_success; test_excluded].
Proof. vm_compute. reflexivity. Qed.

(** A [-x] with its argument attached is read over and over. *)
Example run_attached_exclusion :
  main all_pass true 50 ["picoquic_sp"; "-xdtn_basic"] 0 = None.
Proof. vm_compute. reflexivity. Qed.

Lemma C6_witness :
  in_range 0 (set_debug (select_tests all_pass argv_range
                           (scanned all_pass 5 argv_range 0))) = false /\
  exists new,
    trace (swept all_pass 5 argv_range 0) =
      trace (set_debug (select_tests all_pass argv_range
                          (scanned all_pass 5 argv_range 0))) ++ new /\
    calls_to 0 new = [].
Proof.
  split; [vm_compute; reflexivity|].
  apply (C6_out_of_range_never_invoked all_pass
           (set_debug (select_tests all_pass argv_range
                         (scanned all_pass 5 argv_range 0))) 0).
  vm_compute. reflexivity.
Defined.

(** C1, as stated, fails on [-o 1 2]: entry 0 is [test_not_run] and out of
    range when the sweep starts, and is not [test_not_run] when it ends;
    four tests are counted as tried although two are in range. *)
Lemma C1_counterexample :
  let s := set_debug (select_tests all_pass argv_range
                        (scanned all_pass 5 argv_range 0)) in
  ~ (test_status s !! 0 = Some test_not_run -> in_range 0 s = false ->
     test_status (sweep all_pass s) !! 0 = Some test_not_run /\
     nb_test_tried (sweep all_pass s) = 2%Z).
Proof.
  intros s H.
  destruct H as [H _]; [vm_compute; reflexivity | vm_compute; reflexivity |].
  vm_compute in H. discriminate.
Qed.

Lemma C1_witness :
  let s := set_debug (select_tests all_pass argv_range
                        (scanned all_pass 5 argv_range 0)) in
  (ret s = 0%Z /\ test_status s !! 0 = Some test_not_run /\
   in_range 0 s = false) /\
  test_status (sweep all_pass s) !! 0 = Some test_success /\
  calls 0 (trace (sweep all_pass s)) = calls 0 (trace s) /\
  nb_test_tried (sweep all_pass s) =
    (nb_test_tried s
     + not_run_count (take (nb_tests all_pass) (test_status s)))%Z /\
  not_run_count (take (nb_tests all_pass) (test_status s)) =
    (1 + not_run_count
           (take (nb_tests all_pass)
              (<[0%nat := test_excluded]> (test_status s))))%Z.
Proof.
  intros s. split; [repeat split; vm_compute; reflexivity|].
  apply (C1_out_of_range_entry_counted_as_tried all_pass s 0);
    [vm_compute; reflexivity | vm_compute; lia | vm_compute; reflexivity
    | vm_compute; reflexivity].
Defined.



Lemma C3_witness :
  let s := swept stress_table 5 argv_retry 0 in
  (test_status s !! 1 = Some test_failed /\ nb_test_failed s = 1%Z /\
   disable_debug s = true /\ retry_failed_test s = true) /\
  (exists new,
     trace (report stress_table s) = trace s ++ new /\ calls_to 1 new = []) /\
  test_status (report stress_table s) !! 1 = Some test_failed /\
  ret (report stress_table s) <> 0%Z.
Proof.
  intros s. split; [repeat split; vm_compute; reflexivity|].
  apply (C3_non_retryable_failure_is_kept stress_table s 1
           (mk_test_def "stress" (fails 7)));
    [ reflexivity | apply list_elem_of_here | vm_compute; reflexivity
    | vm_compute; reflexivity | vm_compute; reflexivity
    | vm_compute; reflexivity ].
Defined.

Lemma C4_witness :
  let s := swept flaky_table 5 argv_retry 0 in
  (test_status s !! 1 = Some test_failed /\ nb_test_failed s = 1%Z /\
   disable_debug s = true /\ retry_failed_test s = true) /\
  exists new r,
    trace (report flaky_table s) = trace s ++ new /\
    calls_to 1 new = [(1, r)] /\
    (exists pre post wb wa,
       calls_of new = pre ++ (1, r) :: post /\
       genuine flaky_table (world s) pre wb /\
       heisenbug 3 4 wb = (r, wa) /\
       genuine flaky_table wa post (world (report flaky_table s))) /\
    (r = 0%Z -> test_status (report flaky_table s) !! 1 = Some test_success) /\
    (r <> 0%Z -> test_status (report flaky_table s) !! 1 = Some test_failed) /\
    ((forall j, test_status (report flaky_table s) !! j <> Some test_failed) ->
     ret (report flaky_table s) = 0%Z /\
     last new =
       Some (ev_fprintf stdout ("All tests pass after second try." +:+ nl))).
Proof.
  intros s. split; [repeat split; vm_compute; reflexivity|].
  apply (C4_retryable_failure_is_rerun_once flaky_table s 1
           (mk_test_def "dtn_data" (heisenbug 3 4)));
    [ reflexivity | | vm_compute; reflexivity | vm_compute; reflexivity
    | vm_compute; reflexivity | vm_compute; reflexivity ].
  unfold non_retryable. intros H.
  repeat (apply elem_of_cons in H as [H|H]; [discriminate|]).
  inversion H.
Defined.

(** The retried test of the sample run passes the second time: the run
    ends with "All tests pass after second try." and returns 0. *)
Example run_retry_clears_failure :
  exists f,
    main flaky_table true 5 argv_retry 0 = Some (Normal f) /\
    ret f = 0%Z /\
    calls_of (trace f) = [(0, 0%Z); (1, 3%Z); (2, 0%Z); (3, 0%Z); (1, 0%Z)] /\
    test_status f = [test_success; test_success; test_success; test_success] /\
    nb_test_failed f = 1%Z /\
    last (trace f) =
      Some (ev_fprintf stdout ("All tests pass after second try." +:+ nl)).
Proof. eexists. split; [vm_compute; reflexivity|]. vm_compute. auto 10. Qed.

(** C5, as stated, fails for M = 0: the word written after the count is
    the same for no failure as for one, so no two different forms are
    used "singular exactly for 1, plural otherwise". *)
Lemma C5_counterexample :
  ~ (exists singular plural : string,
       singular <> plural /\
       forall M, (0 <= M)%Z ->
         fail_word M = if (M =? 1)%Z then singular else plural).
Proof.
  intros (singular & plural & Hdiff & Hform).
  pose proof (Hform 0%Z ltac:(lia)) as H0.
  pose proof (Hform 1%Z ltac:(lia)) as H1.
  vm_compute in H0, H1. congruence.
Qed.

Lemma C5_witness :
  let s := swept all_pass 5 argv_plain 0 in
  (1 < nb_test_tried s)%Z /\
  exists rest,
    trace (report all_pass s) =
      trace s ++
      ev_fprintf stdout
        ("Tried " +:+ dec_int (nb_test_tried s) +:+ " tests, "
         +:+ dec_int (nb_test_failed s) +:+ " "
         +:+ (if (nb_test_failed s <=? 1)%Z then "fails" else "fail")
         +:+ "." +:+ nl)
      :: rest.
Proof.
  intros s. split; [vm_compute; reflexivity|].
  apply (C5_summary_line_wording all_pass s). vm_compute. reflexivity.
Defined.

(** C7, as stated, fails on [-o 1 2 dtn_basic]: the trailing list is
    there and its name resolves, yet the listed test, whose ordinal 0 is
    outside the range, is not run by the sweep. *)
Lemma C7_counterexample :
  let s1 := scanned all_pass 5 argv_range_list 0 in
  let names := drop (optind s1) argv_range_list in
  ~ (optind s1 < length argv_range_list ->
     (forall name, name ∈ names -> name ∈ map test_name all_pass) ->
     forall i d, all_pass !! i = Some d ->
       (test_name d ∈ names <->
        0 < calls i (trace (swept all_pass 5 argv_range_list 0)))).
Proof.
  intros s1 names H.
  assert (names = ["dtn_basic"]) as Hnames by (vm_compute; reflexivity).
  specialize (H ltac:(vm_compute; lia)).
  assert (forall name, name ∈ names -> name ∈ map test_name all_pass) as Hres.
  { intros name Hin. rewrite Hnames in Hin.
    apply list_elem_of_singleton in Hin as ->. apply list_elem_of_here. }
  specialize (H Hres 0 (mk_test_def "dtn_basic" passes) eq_refl).
  destruct H as [H _]. rewrite Hnames in H.
  specialize (H (list_elem_of_here _ _)). vm_compute in H. lia.
Qed.

Lemma C7_witness :
  let argv := argv_exclude_then_list in
  let s1 := scanned all_pass 5 argv 0 in
  let names := drop (optind s1) argv in
  let s2 := select_tests all_pass argv s1 in
  let s3 := sweep all_pass (set_debug s2) in
  (optind s1 < length argv /\ names = ["dtn_basic"] /\ ret s1 = 0%Z) /\
  main all_pass true 5 argv 0 = Some (Normal (report all_pass s3)) /\
  (forall i d, all_pass !! i = Some d ->
     test_status s2 !! i =
       Some (if decide (test_name d ∈ names)
             then test_not_run else test_excluded)) /\
  (ret s1 = 0%Z ->
   forall i d, all_pass !! i = Some d ->
     calls i (trace s3) =
       if decide (test_name d ∈ names)
       then (if in_range i s1 then 1 else 0) else 0) /\
  exists new,
    trace s3 = trace (set_debug s2) ++ new /\
    Forall (fun e => is_bypass_notice e = false) new.
Proof.
  intros argv s1 names s2 s3.
  split; [split; [vm_compute; lia | split; vm_compute; reflexivity]|].
  apply (C7_positional_list_selects all_pass 5 argv 0 s1).
  - vm_compute. reflexivity.
  - vm_compute; lia.
  - intros name Hin.
    replace (drop (optind s1) argv) with ["dtn_basic"] in Hin
      by (vm_compute; reflexivity).
    apply list_elem_of_singleton in Hin as ->. apply list_elem_of_here.
  - change (NoDup ["dtn_basic"; "dtn_data"; "dtn_silence"; "dtn_twenty"]).
    repeat (apply NoDup_cons_2;
            [ intros H;
              repeat (apply elem_of_cons in H as [H|H]; [discriminate|]);
              inversion H | ]).
    apply NoDup_nil_2.
Defined.

(** The sample run of C7: the test excluded by [-x] and then listed is the
    one test run. *)
Example run_exclude_then_list :
  exists f,
    main all_pass true 5 argv_exclude_then_list 0 = Some (Normal f) /\
    test_status f = [test_success; test_excluded; test_excluded; test_excluded] /\
    calls_of (trace f) = [(0, 0%Z)] /\ ret f = 0%Z.
Proof. eexists. split; [vm_compute; reflexivity|]. vm_compute. auto. Qed.



Lemma C9_witness :
  let s := swept flaky_table 5 argv_retry 0 in
  only_clears_failures s (retry_pass flaky_table s) /\
  only_clears_failures s (report flaky_table s).
Proof.
  intros s. apply (C9_retry_only_clears_failures flaky_table s).
Defined.

(** In the sample run the retry turns the one failed entry into a success
    and leaves the failure counted. *)
Example run_retry_keeps_count :
  let s := swept flaky_table 5 argv_retry 0 in
  test_status s = [test_success; test_failed; test_success; test_success] /\
  test_status (report flaky_table s)
    = [test_success; test_success; test_success; test_success] /\
  nb_test_failed s = 1%Z /\ nb_test_failed (report flaky_table s) = 1%Z.
Proof. vm_compute. auto. Qed.

(** C10, as stated, fails on [-o 2 1 -z]: the range is empty and entry 0
    is selected and outside it when selection ends, but the unknown
    option is a usage error, the sweep is skipped, and the entry is
    neither counted as tried nor set to [test_success]. *)
Lemma C10_counterexample :
  let argv := ["picoquic_sp"; "-o"; "2"; "1"; "-z"] in
  let s := set_debug (select_tests all_pass argv
                        (scanned all_pass 5 argv 0)) in
  ~ (test_status s !! 0 = Some test_not_run -> in_range 0 s = false ->
     test_status (sweep all_pass s) !! 0 = Some test_success /\
     (0 < nb_test_tried (sweep all_pass s))%Z).
Proof.
  intros argv s H.
  destruct H as [H _]; [vm_compute; reflexivity | vm_compute; reflexivity |].
  vm_compute in H. discriminate.
Qed.

(** The run of the counterexample: [main] returns -1 with every entry
    still [test_not_run] and no test counted as tried. *)
Example run_empty_range_with_error :
  exists f,
    main all_pass true 5 ["picoquic_sp"; "-o"; "2"; "1"; "-z"] 0
      = Some (Normal f) /\
    ret f = (-1)%Z /\ nb_test_tried f = 0%Z /\
    test_status f = [test_not_run; test_not_run; test_not_run; test_not_run].
Proof. eexists. split; [vm_compute; reflexivity|]. vm_compute. auto. Qed.

Lemma C10_witness :
  (let s := set_debug (select_tests all_pass argv_range
                         (scanned all_pass 5 argv_range 0)) in
   (ret s = 0%Z /\ test_status s !! 0 = Some test_not_run /\
    in_range 0 s = false) /\
   test_status (sweep all_pass s) !! 0 = Some test_success /\
   calls 0 (trace (sweep all_pass s)) = calls 0 (trace s)) /\
  (let s1 := scanned all_pass 5 argv_empty_range 0 in
   (option_loop all_pass 5 argv_empty_range (entry_state all_pass 0)
      = Some (Normal s1) /\
    ret (select_tests all_pass argv_empty_range s1) = 0%Z /\
    first_test s1 = 2%Z /\ last_test s1 = 1%Z) /\
   exists f,
     main all_pass true 5 argv_empty_range 0 = Some (Normal f) /\
     ret f = 0%Z /\ nb_test_failed f = 0%Z /\ calls_of (trace f) = [] /\
     nb_test_tried f = 4%Z /\
     (forall i, i < 4 -> test_status f !! i = Some test_success) /\
     last (trace f) =
       Some (ev_fprintf stdout ("Tried 4 tests, 0 fails." +:+ nl))).
Proof.
  destruct (C10_out_of_range_entries_pass_unrun all_pass) as [Hentry Hempty].
  split.
  - intros s.
    split; [split; [|split]; vm_compute; reflexivity|].
    destruct (Hentry s 0) as (Hst & Hc & _);
      [ vm_compute; reflexivity | vm_compute; lia | vm_compute; reflexivity
      | vm_compute; reflexivity |].
    split; assumption.
  - intros s1.
    split; [split; [|split; [|split]]; vm_compute; reflexivity|].
    destruct (Hempty 5 argv_empty_range 0 s1)
      as (f & Hmain & Hret & Hfail & Hcalls & Htried & Hstatus & Hout);
      [ vm_compute; reflexivity | vm_compute; reflexivity
      | vm_compute; reflexivity |].
    assert (nb_test_tried f = 4%Z) as Hfour
      by (rewrite Htried; vm_compute; reflexivity).
    exists f. do 4 (split; [assumption|]). split; [exact Hfour|]. split.
    + intros i Hi. apply Hstatus; [exact Hi|].
      destruct i as [|[|[|[|i]]]]; [vm_compute; reflexivity.. | lia].
    + rewrite Hout, Hfour. change (1 <? 4)%Z with true. cbv iota.
      rewrite last_snoc. reflexivity.
Defined.

(** * Further properties of the harness *)

(** ** Strings *)

Lemma string_length_append (a b : string) :
  String.length (a +:+ b) = String.length a + String.length b.
Proof. induction a as [|c a IH]; simpl; [reflexivity | congruence]. Qed.

Lemma string_append_inj_l (a b s : string) : a +:+ s = b +:+ s -> a = b.
Proof.
  revert b. induction a as [|c a IH]; intros [|c' b] H.
  - reflexivity.
  - apply (f_equal String.length) in H.
    rewrite !string_length_append in H. simpl in H. lia.
  - apply (f_equal String.length) in H.
    rewrite !string_length_append in H. simpl in H. lia.
  - simpl in H. injection H as -> H. f_equal. apply IH. exact H.
Qed.

(** ** Name lookup *)

Section Lookup.
Context {World : Type} (tt : list (picoquic_test_def_t World)).

Lemma get_test_number_from_last (table : list (picoquic_test_def_t World))
    (i k : nat) (d : picoquic_test_def_t World) (name : string) (acc : Z) :
  table !! k = Some d -> test_name d = name ->
  (Z.of_nat (i + k) <= get_test_number_from i table name acc)%Z.
Proof.
  revert i k acc. induction table as [|d0 rest IH]; intros i k acc Hk Hname;
    [inversion Hk|].
  cbn [get_test_number_from]. destruct k as [|k]; cbn in Hk.
  - injection Hk as ->. rewrite <- Hname, String.eqb_refl.
    destruct (get_test_number_from_spec rest (S i) (test_name d) (Z.of_nat i))
      as [[-> _] | (k' & _ & _ & _ & ->)]; lia.
  - specialize (IH (S i) k
                  (if String.eqb name (test_name d0) then Z.of_nat i else acc)
                  Hk Hname).
    lia.
Qed.

(** X1.  [get_test_number] returns -1 exactly for a name no entry of the
    registry carries; for any other name it returns the ordinal of an
    entry with that name, and of the last one if several carry it. *)
Theorem get_test_number_result (name : string) :
  (name ∉ map test_name tt) /\ get_test_number tt name = (-1)%Z
  \/ exists i d,
       get_test_number tt name = Z.of_nat i /\
       tt !! i = Some d /\ test_name d = name /\
       forall k d', tt !! k = Some d' -> test_name d' = name -> k <= i.
Proof.
  unfold get_test_number.
  destruct (get_test_number_from_spec tt 0 name (-1))
    as [[Heq Hnone] | (i & d & Hi & Hname & Heq)].
  - left. split; [|exact Heq]. intros Hin.
    apply list_elem_of_fmap in Hin as (d & -> & Hd). exact (Hnone d Hd eq_refl).
  - right. exists i, d. cbn in Heq. repeat split; try assumption.
    intros k d' Hk Hname'.
    pose proof (get_test_number_from_last tt 0 k d' name (-1) Hk Hname') as Hle.
    rewrite Heq in Hle. cbn in Hle. lia.
Qed.

(** X2.  With the names of the registry all different, looking up the
    name of the entry at ordinal [i] gives back [i]. *)
Theorem get_test_number_of_entry (i : nat) (d : picoquic_test_def_t World) :
  NoDup (map test_name tt) -> tt !! i = Some d ->
  get_test_number tt (test_name d) = Z.of_nat i.
Proof.
  intros Hnd Hd.
  destruct (get_test_number_result (test_name d))
    as [[Hno _] | (j & d' & -> & Hj & Hname & _)].
  - exfalso. apply Hno. apply list_elem_of_fmap_2.
    eapply list_elem_of_lookup_2. exact Hd.
  - f_equal. eapply NoDup_lookup; [exact Hnd | |].
    + change map with (@fmap list _). rewrite list_lookup_fmap, Hj. cbn.
      rewrite Hname. reflexivity.
    + change map with (@fmap list _). rewrite list_lookup_fmap, Hd. reflexivity.
Qed.

End Lookup.

(** ** The help text *)

Lemma last_char_append (a b : string) :
  b <> EmptyString -> last_char (a +:+ b) = last_char b.
Proof.
  intros Hb. unfold last_char. rewrite string_length_append.
  rewrite (append_correct2 a b (String.length b - 1)).
  destruct b as [|c b]; [contradiction|]. simpl. f_equal. lia.
Qed.

Lemma name_line_not_row_start (nm : string) : nm +:+ ", " <> "    ".
Proof.
  intros H.
  assert (String.length nm = 2) as Hlen.
  { apply (f_equal String.length) in H.
    rewrite string_length_append in H. simpl in H. lia. }
  destruct nm as [|a [|b [|c nm]]]; simpl in Hlen; try lia.
  simpl in H. injection H as _ _ H. discriminate H.
Qed.

Lemma name_line_not_row_end (nm : string) : nm +:+ ", " <> nl.
Proof.
  intros H. apply (f_equal String.length) in H.
  rewrite string_length_append in H. simpl in H. lia.
Qed.

Lemma mod5_step (k : nat) : (5 + k) mod 5 = k mod 5.
Proof.
  replace (5 + k) with (k + 1 * 5) by lia. apply Nat.Div0.mod_add.
Qed.

(** The rows of names: a name is written when its position is not 4, 9,
    14, ...; everything else written is a row start or a row end. *)
Lemma usage_names_lists (n : nat) (names : list string) (k : nat) (nm : string) :
  length names <= n -> names !! k = Some nm -> k mod 5 <> 4 ->
  ev_fprintf stderr (nm +:+ ", ") ∈ usage_names names.
Proof.
  revert names k. induction n as [|n IH]; intros names k Hlen Hk Hmod.
  - destruct names; [inversion Hk | cbn in Hlen; lia].
  - destruct names as [|a [|b [|c [|d [|e l5]]]]];
      destruct k as [|[|[|[|[|k]]]]]; cbn in Hk; try discriminate;
      try (injection Hk as ->); cbn [usage_names];
      try (repeat first [apply list_elem_of_here | apply list_elem_of_further];
           fail).
    + exfalso. apply Hmod. reflexivity.
    + do 6 apply list_elem_of_further.
      apply (IH l5 k); [cbn in Hlen; lia | exact Hk |].
      rewrite <- (mod5_step k). exact Hmod.
Qed.

Lemma usage_names_elem (n : nat) (names : list string) (e : event) :
  length names <= n -> e ∈ usage_names names ->
  e = ev_fprintf stderr "    " \/ e = ev_fprintf stderr nl \/
  exists k nm, names !! k = Some nm /\ k mod 5 <> 4 /\
               e = ev_fprintf stderr (nm +:+ ", ").
Proof.
  revert names. induction n as [|n IH]; intros names Hlen He.
  - destruct names; [inversion He | cbn in Hlen; lia].
  - destruct names as [|a [|b [|c [|d l4]]]]; cbn [usage_names] in He.
    + inversion He.
    + repeat (apply elem_of_cons in He as [->|He]); try (inversion He; fail);
        eauto; right; right;
        first [ exists 0, a; split; [reflexivity|]; split; [discriminate|reflexivity] ].
    + repeat (apply elem_of_cons in He as [->|He]); try (inversion He; fail);
        eauto; right; right;
        first [ exists 0, a; split; [reflexivity|]; split; [discriminate|reflexivity]
              | exists 1, b; split; [reflexivity|]; split; [discriminate|reflexivity] ].
    + repeat (apply elem_of_cons in He as [->|He]); try (inversion He; fail);
        eauto; right; right;
        first [ exists 0, a; split; [reflexivity|]; split; [discriminate|reflexivity]
              | exists 1, b; split; [reflexivity|]; split; [discriminate|reflexivity]
              | exists 2, c; split; [reflexivity|]; split; [discriminate|reflexivity] ].
    + do 6 (apply elem_of_cons in He as [->|He];
            [ eauto; right; right;
              first [ exists 0, a; split; [reflexivity|]; split; [discriminate|reflexivity]
                    | exists 1, b; split; [reflexivity|]; split; [discriminate|reflexivity]
                    | exists 2, c; split; [reflexivity|]; split; [discriminate|reflexivity]
                    | exists 3, d; split; [reflexivity|]; split; [discriminate|reflexivity] ]
            | ]).
      destruct l4 as [|e5 l5]; [inversion He|].
      destruct (IH l5) as [H|[H|(k & nm & Hk & Hmod & H)]];
        [cbn in Hlen; lia | exact He | auto | auto |].
      right. right. exists (5 + k), nm. split; [exact Hk|].
      split; [rewrite mod5_step; exact Hmod | exact H].
Qed.

Ltac nonempty_string :=
  let H := fresh in
  intro H; apply (f_equal String.length) in H;
  rewrite ?string_length_append in H; simpl in H; lia.

Section Help.
Context {World : Type} (tt : list (picoquic_test_def_t World)).

(** X3.  The help text of [usage] shows the name of every registry entry
    whose ordinal is not 4, 9, 14, ... (of every entry, for a registry of
    at most four tests). *)
Theorem usage_shows_name (argv0 : string) (k : nat)
    (d : picoquic_test_def_t World) :
  tt !! k = Some d -> k mod 5 <> 4 ->
  ev_fprintf stderr (test_name d +:+ ", ") ∈ usage_text tt argv0.
Proof.
  intros Hd Hmod. unfold usage_text.
  apply elem_of_app. right. apply elem_of_app. left.
  apply (usage_names_lists _ _ k (test_name d) (Nat.le_refl _) ); [|exact Hmod].
  change map with (@fmap list _). rewrite list_lookup_fmap, Hd. reflexivity.
Qed.

(** X4.  The loop that writes the names advances its index twice at the
    end of each row of four: with the names all different, the name of an
    entry at ordinal 4, 9, 14, ... appears nowhere in the help text. *)
Theorem usage_skips_every_fifth_name (argv0 : string) (k : nat)
    (d : picoquic_test_def_t World) :
  NoDup (map test_name tt) -> tt !! k = Some d -> k mod 5 = 4 ->
  ev_fprintf stderr (test_name d +:+ ", ") ∉ usage_text tt argv0.
Proof.
  intros Hnd Hd Hmod Hin. unfold usage_text in Hin.
  assert (last_char (test_name d +:+ ", ") = Some " "%char) as Hlast.
  { rewrite last_char_append by nonempty_string. reflexivity. }
  apply elem_of_app in Hin as [Hin|Hin]; [|apply elem_of_app in Hin as [Hin|Hin]].
  - repeat (apply elem_of_cons in Hin as [Hin|Hin];
            [ injection Hin as Hin; apply (f_equal last_char) in Hin;
              rewrite Hlast in Hin;
              repeat (rewrite last_char_append in Hin by nonempty_string);
              vm_compute in Hin; discriminate Hin | ]).
    inversion Hin.
  - apply (usage_names_elem _ _ _ (Nat.le_refl _)) in Hin
      as [H|[H|(j & nm & Hj & Hjmod & H)]].
    + injection H as H. exact (name_line_not_row_start _ H).
    + injection H as H. exact (name_line_not_row_end _ H).
    + injection H as H. apply string_append_inj_l in H. subst nm.
      assert (j = k) as ->; [|contradiction].
      eapply NoDup_lookup; [exact Hnd | exact Hj |].
      change map with (@fmap list _). rewrite list_lookup_fmap, Hd. reflexivity.
  - repeat (apply elem_of_cons in Hin as [Hin|Hin];
            [ injection Hin as Hin; apply (f_equal last_char) in Hin;
              rewrite Hlast in Hin;
              repeat (rewrite last_char_append in Hin by nonempty_string);
              vm_compute in Hin; discriminate Hin | ]).
    inversion Hin.
Qed.

End Help.

(** ** One test *)

Section OneTest.
Context {World : Type} (tt : list (picoquic_test_def_t World)).
Implicit Types s : state World.

(** X5.  [do_one_test] assigns no variable of [main].  For a number that
    is not an ordinal of the registry it returns -1, writes one line and
    calls nothing; otherwise it calls the test of that ordinal exactly
    once, between two lines, and returns what the test returned. *)
Theorem do_one_test_behaviour (i : nat) (F : FILE) (s : state World) :
  same_locals s (snd (do_one_test tt i F s)) /\
  match tt !! i with
  | None =>
      nb_tests tt <= i /\ fst (do_one_test tt i F s) = (-1)%Z /\
      world (snd (do_one_test tt i F s)) = world s /\
      exists line, trace (snd (do_one_test tt i F s))
                   = trace s ++ [ev_fprintf F line]
  | Some d =>
      i < nb_tests tt /\
      (fst (do_one_test tt i F s), world (snd (do_one_test tt i F s)))
        = test_fn d (world s) /\
      exists l1 l2,
        trace (snd (do_one_test tt i F s))
        = trace s ++ [ev_fprintf F l1;
                      ev_test_fn i (fst (do_one_test tt i F s));
                      ev_fprintf F l2]
  end.
Proof.
  destruct (tt !! i) as [d|] eqn:Hd.
  - destruct (do_one_test_spec tt i F s d Hd) as (l1 & l2 & -> & _).
    cbn [fst snd]. split; [reflexivity|].
    split; [eapply lookup_lt_Some; exact Hd|]. split.
    + st_simpl. destruct (test_fn d (world s)); reflexivity.
    + exists l1, l2. reflexivity.
  - unfold do_one_test. rewrite Hd. cbn [fst snd].
    split; [reflexivity|]. split; [apply lookup_ge_None; exact Hd|].
    split; [reflexivity|]. split; [reflexivity|]. eexists. reflexivity.
Qed.

End OneTest.

(** ** More on the sweep *)

Section SweepMore.
Context {World : Type} (tt : list (picoquic_test_def_t World)).
Implicit Types s : state World.

Lemma runs_in_sweep_config i s a :
  same_config s a -> test_status a !! i = test_status s !! i ->
  (runs_in_sweep a i <-> runs_in_sweep s i).
Proof.
  intros Hcfg Hst. unfold runs_in_sweep.
  rewrite Hst, (in_range_config i s a Hcfg). reflexivity.
Qed.

Lemma filter_seq_snoc (P : nat -> Prop) (Hdec : forall i, Decision (P i))
    (k : nat) :
  filter P (seq 0 (S k)) =
    filter P (seq 0 k) ++ (if decide (P k) then [k] else []).
Proof.
  rewrite seq_S, filter_app. cbn. unfold filter at 2. cbn.
  destruct (decide (P k)); reflexivity.
Qed.

Lemma failures_snoc (cs : list (nat * Z)) (k : nat) (r : Z) :
  failures (cs ++ [(k, r)]) =
    failures cs ++ (if decide (r <> 0%Z) then [(k, r)] else []).
Proof.
  unfold failures. rewrite filter_app. reflexivity.
Qed.

(** The sweep loop, seen through the calls it makes. *)
Lemma sweep_loop_calls n s :
  n <= nb_tests tt ->
  exists new,
    trace (for_loop n (sweep_step tt) s) = trace s ++ new /\
    map fst (calls_of new) = filter (runs_in_sweep s) (seq 0 n) /\
    nb_test_failed (for_loop n (sweep_step tt) s) =
      (nb_test_failed s + Z.of_nat (length (failures (calls_of new))))%Z /\
    (failures (calls_of new) = [] ->
     ret (for_loop n (sweep_step tt) s) = ret s) /\
    (failures (calls_of new) <> [] ->
     ret (for_loop n (sweep_step tt) s) = (-1)%Z).
Proof.
  intros Hn.
  enough (same_config s (for_loop n (sweep_step tt) s) /\
          drop n (test_status (for_loop n (sweep_step tt) s))
            = drop n (test_status s) /\
          exists new,
            trace (for_loop n (sweep_step tt) s) = trace s ++ new /\
            map fst (calls_of new) = filter (runs_in_sweep s) (seq 0 n) /\
            nb_test_failed (for_loop n (sweep_step tt) s) =
              (nb_test_failed s
               + Z.of_nat (length (failures (calls_of new))))%Z /\
            (failures (calls_of new) = [] ->
             ret (for_loop n (sweep_step tt) s) = ret s) /\
            (failures (calls_of new) <> [] ->
             ret (for_loop n (sweep_step tt) s) = (-1)%Z)) by tauto.
  apply (for_loop_ind (fun k a =>
    same_config s a /\
    drop k (test_status a) = drop k (test_status s) /\
    exists new,
      trace a = trace s ++ new /\
      map fst (calls_of new) = filter (runs_in_sweep s) (seq 0 k) /\
      nb_test_failed a =
        (nb_test_failed s + Z.of_nat (length (failures (calls_of new))))%Z /\
      (failures (calls_of new) = [] -> ret a = ret s) /\
      (failures (calls_of new) <> [] -> ret a = (-1)%Z))).
  - split; [apply same_config_refl|]. split; [reflexivity|].
    exists []. rewrite app_nil_r. cbn. repeat split; try lia; congruence.
  - intros k a Hk (Hcfg & Hdrop & new & Htr & Hcalls & Hfail & Hok & Hko).
    pose proof (lookup_of_drop _ _ _ Hdrop) as Hlook.
    destruct (sweep_step_effect tt k a) as [Heff Hcfg']; [lia|].
    split; [eapply same_config_trans; eauto|].
    rewrite filter_seq_snoc.
    destruct Heff as [Hne Hst _ Hf' Hr' _ (new' & Htr' & Hnew' & _)
                     | Hnr Hout Hst _ Hf' Hr' _ Htr'
                     | r l1 l2 Hnr Hin _ Htr' _ _ _ Hres].
    + (* not selected *)
      split; [rewrite Hst; apply drop_S_eq, Hdrop|].
      exists (new ++ new').
      rewrite Htr', Htr, <- app_assoc, calls_of_app, Hnew', app_nil_r.
      destruct (decide (runs_in_sweep s k)) as [[Hs _]|_];
        [rewrite <- Hlook in Hs; contradiction|].
      rewrite app_nil_r, Hf', Hr'. auto.
    + (* selected, out of range *)
      split; [rewrite Hst, drop_insert_lt by lia; apply drop_S_eq, Hdrop|].
      exists new. rewrite Htr', Htr.
      destruct (decide (runs_in_sweep s k)) as [[_ Hs]|_].
      { rewrite <- (in_range_config k s a Hcfg), Hout in Hs. discriminate. }
      rewrite app_nil_r, Hf', Hr'. auto.
    + (* run *)
      split.
      { destruct Hres as [(_ & -> & _) | (_ & -> & _)];
          rewrite drop_insert_lt by lia; apply drop_S_eq, Hdrop. }
      exists (new ++ [ev_fprintf stdout l1; ev_test_fn k r; ev_fprintf stdout l2]).
      rewrite Htr', Htr, <- app_assoc, calls_of_app.
      change (calls_of [ev_fprintf stdout l1; ev_test_fn k r; ev_fprintf stdout l2])
        with [(k, r)].
      rewrite map_app, Hcalls. cbn [map fst].
      destruct (decide (runs_in_sweep s k)) as [_|Hno].
      2:{ exfalso. apply Hno. split; [rewrite <- Hlook; exact Hnr|].
          rewrite <- (in_range_config k s a Hcfg). exact Hin. }
      split; [reflexivity|]. split; [reflexivity|].
      rewrite failures_snoc.
      destruct Hres as [(-> & _ & Hf' & Hr') | (Hr & _ & Hf' & Hr')].
      * destruct (decide (0%Z <> 0%Z)) as [Hbad|_]; [contradiction|].
        rewrite app_nil_r, Hf', Hr'. auto.
      * destruct (decide (r <> 0%Z)) as [_|Hbad]; [|contradiction].
        rewrite length_app, Hf', Hr', Hfail. cbn [length].
        split; [lia|]. split; [|auto].
        intros Hnil. apply app_eq_nil in Hnil as [_ Hnil]. discriminate.
Qed.

(** X6.  A sweep that starts with [ret] at 0 calls, in ascending ordinal
    order and once each, exactly the tests whose entry is [test_not_run]
    and whose ordinal is within [first_test, last_test]; a sweep that
    starts with another [ret] does nothing at all. *)
Theorem sweep_calls_in_ordinal_order (s : state World) :
  (ret s <> 0%Z -> sweep tt s = s) /\
  (ret s = 0%Z ->
   exists new,
     trace (sweep tt s) = trace s ++ new /\
     map fst (calls_of new) = filter (runs_in_sweep s) (seq 0 (nb_tests tt))).
Proof.
  unfold sweep. split; intros Hret.
  - apply Z.eqb_neq in Hret. rewrite Hret. reflexivity.
  - rewrite Hret. cbn.
    destruct (sweep_loop_calls (nb_tests tt) s (Nat.le_refl _))
      as (new & Htr & Hcalls & _).
    eauto.
Qed.

(** X7.  In a sweep that starts with [ret] at 0, [nb_test_failed] grows by
    the number of calls that returned a code other than 0, and [ret]
    stays 0 if there was none and is -1 as soon as there was one,
    whatever the later tests return. *)
Theorem sweep_counts_failures (s : state World) :
  ret s = 0%Z ->
  exists new,
    trace (sweep tt s) = trace s ++ new /\
    nb_test_failed (sweep tt s) =
      (nb_test_failed s + Z.of_nat (length (failures (calls_of new))))%Z /\
    ret (sweep tt s) = if decide (failures (calls_of new) = []) then 0%Z
                       else (-1)%Z.
Proof.
  intros Hret. unfold sweep. rewrite Hret. cbn.
  destruct (sweep_loop_calls (nb_tests tt) s (Nat.le_refl _))
    as (new & Htr & _ & Hfail & Hok & Hko).
  exists new. split; [exact Htr|]. split; [exact Hfail|].
  destruct (decide (failures (calls_of new) = [])) as [Hnil|Hsome].
  - rewrite (Hok Hnil). exact Hret.
  - exact (Hko Hsome).
Qed.

(** X8.  After a sweep that starts with [ret] at 0 no entry of the
    registry is [test_not_run] any more: such an entry has become
    [test_success] or [test_failed], and every other entry is as it was. *)
Theorem sweep_settles_every_selected_entry (s : state World) (i : nat) :
  ret s = 0%Z -> i < nb_tests tt ->
  test_status (sweep tt s) !! i <> Some test_not_run /\
  match test_status s !! i with
  | Some test_not_run =>
      test_status (sweep tt s) !! i = Some test_success \/
      test_status (sweep tt s) !! i = Some test_failed
  | v => test_status (sweep tt s) !! i = v
  end.
Proof.
  intros Hret Hi. unfold sweep. rewrite Hret. cbn.
  destruct (sweep_loop_at tt i (nb_tests tt) s (Nat.le_refl _)) as [_ Hafter].
  specialize (Hafter Hi). unfold entry_swept in Hafter.
  destruct (test_status s !! i) as [[]|] eqn:Hst.
  - destruct (in_range i s).
    + destruct Hafter as [_ [H|H]]; rewrite H; split; auto; discriminate.
    + destruct Hafter as [_ H]. rewrite H. split; auto; discriminate.
  - destruct Hafter as [_ ->]. split; [discriminate|reflexivity].
  - destruct Hafter as [_ ->]. split; [discriminate|reflexivity].
  - destruct Hafter as [_ ->]. split; [discriminate|reflexivity].
  - destruct Hafter as [_ ->]. split; [discriminate|reflexivity].
Qed.

Lemma sweep_effect_calls_to j i s s' :
  sweep_effect tt j s s' -> i <> j ->
  test_status s' !! i = test_status s !! i /\
  exists new, trace s' = trace s ++ new /\ calls_to i new = [].
Proof.
  intros [Hne Hst _ _ _ _ (new & Htr & Hnew & _)
         | _ _ Hst _ _ _ _ Htr
         | r l1 l2 _ _ _ Htr _ _ _ Hres] Hij.
  - rewrite Hst. split; [reflexivity|]. exists new. split; [exact Htr|].
    unfold calls_to. rewrite Hnew. reflexivity.
  - rewrite Hst, Htr. split; [apply list_lookup_insert_ne; congruence|].
    exists []. rewrite app_nil_r. auto.
  - split.
    + destruct Hres as [(_ & -> & _) | (_ & -> & _)];
        apply list_lookup_insert_ne; congruence.
    + eexists. split; [exact Htr|].
      rewrite calls_to_fprintf, calls_to_test_fn.
      destruct (decide (j = i)); [congruence|reflexivity].
Qed.

(** The one call record of a test that the sweep runs, and its status. *)
Lemma sweep_entry_result (s : state World) (i : nat) :
  ret s = 0%Z -> i < nb_tests tt -> runs_in_sweep s i ->
  exists new r,
    trace (sweep tt s) = trace s ++ new /\ calls_to i new = [(i, r)] /\
    test_status (sweep tt s) !! i =
      Some (if (r =? 0)%Z then test_success else test_failed).
Proof.
  intros Hret Hi [Hsel Hin]. unfold sweep. rewrite Hret. cbn.
  enough (same_config s (for_loop (nb_tests tt) (sweep_step tt) s) /\
          exists new,
            trace (for_loop (nb_tests tt) (sweep_step tt) s) = trace s ++ new /\
            (nb_tests tt <= i ->
             calls_to i new = [] /\
             test_status (for_loop (nb_tests tt) (sweep_step tt) s) !! i
               = Some test_not_run) /\
            (i < nb_tests tt ->
             exists r, calls_to i new = [(i, r)] /\
               test_status (for_loop (nb_tests tt) (sweep_step tt) s) !! i =
                 Some (if (r =? 0)%Z then test_success else test_failed)))
    as (_ & new & Htr & _ & Hdone).
  { destruct (Hdone Hi) as (r & ? & ?). eauto. }
  apply (for_loop_ind (fun k a =>
    same_config s a /\
    exists new,
      trace a = trace s ++ new /\
      (k <= i -> calls_to i new = [] /\
                 test_status a !! i = Some test_not_run) /\
      (i < k -> exists r, calls_to i new = [(i, r)] /\
         test_status a !! i =
           Some (if (r =? 0)%Z then test_success else test_failed)))).
  - split; [apply same_config_refl|]. exists []. rewrite app_nil_r.
    split; [reflexivity|]. split; [auto|lia].
  - intros k a Hk (Hcfg & new & Htr & Hbefore & Hafter).
    destruct (sweep_step_effect tt k a) as [Heff Hcfg']; [lia|].
    split; [eapply same_config_trans; eauto|].
    destruct (decide (i = k)) as [->|Hik].
    + destruct Hbefore as [Hnew Hsta]; [lia|].
      destruct Heff as [Hne _ _ _ _ _ _
                       | _ Hout _ _ _ _ _ _
                       | r l1 l2 _ _ _ Htr' _ _ _ Hres].
      * contradiction.
      * rewrite (in_range_config k s a Hcfg), Hin in Hout. discriminate.
      * exists (new ++ [ev_fprintf stdout l1; ev_test_fn k r; ev_fprintf stdout l2]).
        rewrite Htr', Htr, app_assoc. split; [reflexivity|]. split; [lia|].
        intros _. exists r. rewrite calls_to_app, Hnew.
        rewrite calls_to_fprintf, calls_to_test_fn.
        destruct (decide (k = k)); [|congruence]. split; [reflexivity|].
        apply lookup_lt_Some in Hsta.
        destruct Hres as [(-> & -> & _) | (Hr & -> & _)];
          rewrite list_lookup_insert_eq by exact Hsta; [reflexivity|].
        apply Z.eqb_neq in Hr. rewrite Hr. reflexivity.
    + destruct (sweep_effect_calls_to k i a _ Heff Hik)
        as (Hst' & new' & Htr' & Hnew').
      exists (new ++ new'). rewrite Htr', Htr, app_assoc.
      split; [reflexivity|]. rewrite calls_to_app, Hnew', app_nil_r, Hst'.
      split; intros Hki; [apply Hbefore | apply Hafter]; lia.
Qed.

(** X9.  In a sweep that starts with [ret] at 0, a test that is selected
    and in range is called exactly once: the sweep adds one call record
    [(i, r)] of it, and [r] is what its test function [test_fn d]
    returned on the world [wb] left by the calls recorded before it; its
    entry ends [test_success] if that result is 0 and [test_failed]
    otherwise. *)
Theorem sweep_status_follows_result (s : state World) (i : nat)
    (d : picoquic_test_def_t World) :
  ret s = 0%Z -> tt !! i = Some d -> runs_in_sweep s i ->
  exists new r,
    trace (sweep tt s) = trace s ++ new /\ calls_to i new = [(i, r)] /\
    (exists pre post wb wa,
       calls_of new = pre ++ (i, r) :: post /\
       genuine tt (world s) pre wb /\ test_fn d wb = (r, wa) /\
       genuine tt wa post (world (sweep tt s))) /\
    test_status (sweep tt s) !! i =
      Some (if (r =? 0)%Z then test_success else test_failed).
Proof.
  intros Hret Hd Hrun. apply lookup_lt_Some in Hd as Hi.
  destruct (sweep_entry_result s i Hret Hi Hrun) as (new & r & Htr & Hcalls & Hst).
  destruct (sweep_genuine tt s) as (new' & Htr' & Hgen).
  assert (new' = new) as ->.
  { rewrite Htr in Htr'. apply app_inv_head in Htr'. congruence. }
  exists new, r. split; [exact Htr|]. split; [exact Hcalls|].
  split; [|exact Hst].
  exact (genuine_at tt _ _ new i r d Hd Hcalls Hgen).
Qed.

(** X10.  In a sweep that starts with [ret] at 0 and without auto-bypass,
    a "bypassed" notice giving the ordinal and the name is written for
    every [test_excluded] entry of the registry. *)
Theorem sweep_reports_excluded_entry (s : state World) (i : nat)
    (d : picoquic_test_def_t World) :
  ret s = 0%Z -> auto_bypass s = false ->
  tt !! i = Some d -> test_status s !! i = Some test_excluded ->
  ev_fprintf stdout
    ("Test number " +:+ dec_int (Z.of_nat i) +:+ " (" +:+ test_name d
     +:+ ") is bypassed." +:+ nl)
  ∈ trace (sweep tt s).
Proof.
  intros Hret Hb Hd Hst. unfold sweep. rewrite Hret. cbn.
  apply lookup_lt_Some in Hd as Hi.
  enough (same_config s (for_loop (nb_tests tt) (sweep_step tt) s) /\
          drop (nb_tests tt)
            (test_status (for_loop (nb_tests tt) (sweep_step tt) s))
            = drop (nb_tests tt) (test_status s) /\
          (i < nb_tests tt ->
           ev_fprintf stdout
             ("Test number " +:+ dec_int (Z.of_nat i) +:+ " (" +:+ test_name d
              +:+ ") is bypassed." +:+ nl)
           ∈ trace (for_loop (nb_tests tt) (sweep_step tt) s))) by tauto.
  apply (for_loop_ind (fun k a =>
    same_config s a /\
    drop k (test_status a) = drop k (test_status s) /\
    (i < k ->
     ev_fprintf stdout
       ("Test number " +:+ dec_int (Z.of_nat i) +:+ " (" +:+ test_name d
        +:+ ") is bypassed." +:+ nl) ∈ trace a))).
  - split; [apply same_config_refl|]. split; [reflexivity|lia].
  - intros k a Hk (Hcfg & Hdrop & Hseen).
    pose proof (lookup_of_drop _ _ _ Hdrop) as Hlook.
    destruct (sweep_step_effect tt k a) as [Heff Hcfg']; [lia|].
    split; [eapply same_config_trans; eauto|]. split.
    + destruct Heff as [_ Hst' _ _ _ _ _
                       | _ _ Hst' _ _ _ _ _
                       | r l1 l2 _ _ _ _ _ _ _ Hres].
      * rewrite Hst'. apply drop_S_eq, Hdrop.
      * rewrite Hst', drop_insert_lt by lia. apply drop_S_eq, Hdrop.
      * destruct Hres as [(_ & -> & _) | (_ & -> & _)];
          rewrite drop_insert_lt by lia; apply drop_S_eq, Hdrop.
    + intros Hik. destruct (decide (i = k)) as [->|Hne].
      * unfold sweep_step. rewrite Hlook, Hst.
        destruct Hcfg as (_ & _ & -> & _). rewrite Hb, Hd. cbn [negb].
        st_simpl. apply elem_of_app. right. apply list_elem_of_here.
      * assert (exists new, trace (sweep_step tt k a) = trace a ++ new)
          as (new & ->).
        { destruct Heff as [_ _ _ _ _ _ (new' & Htr' & _)
                           | _ _ _ _ _ _ _ Htr'
                           | r l1 l2 _ _ _ Htr' _ _ _ _]; rewrite Htr'; eauto.
          exists []. rewrite app_nil_r. reflexivity. }
        apply elem_of_app. left. apply Hseen. lia.
Qed.

End SweepMore.

(** ** More on the report *)

Section ReportMore.
Context {World : Type} (tt : list (picoquic_test_def_t World)).
Implicit Types s : state World.

(** X11.  The report calls a test again only if failures were counted and
    both the debug output was suspended and a retry was asked for; in
    every other case it only writes: no variable changes, so neither a
    status nor the value [main] returns. *)
Theorem report_retries_only_on_request (s : state World) :
  (nb_test_failed s <= 0)%Z \/ disable_debug s = false
    \/ retry_failed_test s = false ->
  same_vars s (report tt s) /\
  exists new, trace (report tt s) = trace s ++ new /\ calls_of new = [].
Proof.
  intros [H|[H|H]]; apply report_without_retry; auto; right; rewrite H;
    [reflexivity | apply andb_false_r].
Qed.

Lemma failed_names_S (status : list test_status_t) (k : nat) :
  failed_names tt status (S k) =
    failed_names tt status k ++
    match status !! k, tt !! k with
    | Some test_failed, Some d => [test_name d]
    | _, _ => []
    end.
Proof.
  unfold failed_names. rewrite seq_S, omap_app. f_equal. cbn.
  destruct (status !! k) as [[]|]; try reflexivity.
  destruct (tt !! k); reflexivity.
Qed.

(** The loop that lists the failed tests writes their names, in order. *)
Lemma print_failed_loop_names n s :
  same_vars s (for_loop n (print_failed_step tt) s) /\
  trace (for_loop n (print_failed_step tt) s) =
    trace s ++ map (fun nm => ev_fprintf stdout (nm +:+ " "))
                   (failed_names tt (test_status s) n).
Proof.
  apply (for_loop_ind (fun k a =>
    same_vars s a /\
    trace a = trace s ++ map (fun nm => ev_fprintf stdout (nm +:+ " "))
                             (failed_names tt (test_status s) k))).
  - split; [reflexivity|]. cbn. rewrite app_nil_r. reflexivity.
  - intros k a _ (Hv & Htr).
    destruct (same_vars_fields _ _ Hv) as (_ & Hst & _).
    unfold print_failed_step. rewrite failed_names_S, Hst.
    destruct (test_status s !! k) as [[]|];
      try (rewrite app_nil_r; split; assumption).
    destruct (tt !! k) as [d|]; [|rewrite app_nil_r; split; assumption].
    split; [eapply same_vars_trans; [exact Hv|reflexivity]|].
    st_simpl. rewrite Htr, map_app, app_assoc. reflexivity.
Qed.

(** X12.  When failures were counted, the report writes (after the
    summary line, if more than one test was tried) "Failed test(s): ",
    then the names of the entries that are [test_failed], in ordinal
    order, each followed by a space, then a newline. *)
Theorem report_names_every_failed_test (s : state World) :
  (0 < nb_test_failed s)%Z ->
  exists rest,
    trace (report tt s) =
      trace s
      ++ (if (1 <? nb_test_tried s)%Z
          then [ev_fprintf stdout
                  (summary_line (nb_test_tried s) (nb_test_failed s))]
          else [])
      ++ [ev_fprintf stdout "Failed test(s): "]
      ++ map (fun nm => ev_fprintf stdout (nm +:+ " "))
             (failed_names tt (test_status s) (nb_tests tt))
      ++ [ev_fprintf stdout nl] ++ rest.
Proof.
  intros Hf. apply Z.ltb_lt in Hf. unfold report.
  set (s1 := if (1 <? nb_test_tried s)%Z then _ else s).
  assert (same_vars s s1 /\
          trace s1 = trace s ++
            (if (1 <? nb_test_tried s)%Z
             then [ev_fprintf stdout
                     (summary_line (nb_test_tried s) (nb_test_failed s))]
             else [])) as (Hv1 & Htr1).
  { subst s1. destruct (1 <? nb_test_tried s)%Z.
    - split; reflexivity.
    - split; [reflexivity|]. rewrite app_nil_r. reflexivity. }
  destruct (same_vars_fields _ _ Hv1) as (_ & Hst1 & _ & Hf1 & _).
  rewrite Hf1, Hf.
  set (s2 := fprintf stdout "Failed test(s): " s1).
  destruct (print_failed_loop_names (nb_tests tt) s2) as (Hv3 & Htr3).
  set (s3 := for_loop (nb_tests tt) (print_failed_step tt) s2) in *.
  assert (trace (fprintf stdout nl s3) =
            trace s
            ++ (if (1 <? nb_test_tried s)%Z
                then [ev_fprintf stdout
                        (summary_line (nb_test_tried s) (nb_test_failed s))]
                else [])
            ++ [ev_fprintf stdout "Failed test(s): "]
            ++ map (fun nm => ev_fprintf stdout (nm +:+ " "))
                   (failed_names tt (test_status s) (nb_tests tt))
            ++ [ev_fprintf stdout nl]) as Htr4.
  { st_simpl. rewrite Htr3. subst s2. st_simpl. rewrite Htr1, Hst1.
    rewrite <- !app_assoc. reflexivity. }
  generalize dependent (fprintf stdout nl s3). intros s4 Htr4.
  unfold retry_failed.
  destruct (disable_debug s4 && retry_failed_test s4).
  2:{ exists []. rewrite Htr4. reflexivity. }
  set (s5 := set_ret 0 (emit [ev_debug_printf_resume] s4)).
  destruct (retry_loop_frame tt (nb_tests tt) s5) as (_ & (new & Hnew) & _);
    [lia|].
  unfold retry_pass. set (s6 := for_loop _ (retry_step tt) s5) in *.
  assert (trace s5 = trace s4 ++ [ev_debug_printf_resume]) as H5 by reflexivity.
  destruct (ret s6 =? 0)%Z.
  - eexists. st_simpl. rewrite Hnew, H5, Htr4. repeat rewrite <- app_assoc. reflexivity.
  - destruct (print_failed_loop tt (nb_tests tt)
                (fprintf stdout "Still failing: " s6)) as (_ & new7 & Htr7 & _).
    eexists. st_simpl. rewrite Htr7. st_simpl.
    rewrite Hnew, H5, Htr4. repeat rewrite <- app_assoc. reflexivity.
Qed.

(** A retry loop that ends with [ret] at 0 has left none of the entries
    it went through [test_failed]. *)
Lemma retry_loop_clear n s :
  n <= nb_tests tt ->
  ret (for_loop n (retry_step tt) s) = 0%Z ->
  ret s = 0%Z /\
  forall j, j < n ->
    test_status (for_loop n (retry_step tt) s) !! j <> Some test_failed.
Proof.
  intros Hn.
  apply (for_loop_ind (fun k a =>
    ret a = 0%Z ->
    ret s = 0%Z /\ forall j, j < k -> test_status a !! j <> Some test_failed)).
  - intros H0. split; [exact H0|]. intros j Hj. lia.
  - intros k a Hk IH Hret.
    destruct (retry_step_effect tt k a) as [Heff _]; [lia|].
    destruct Heff as [Hne Heq | d line _ _ _ _ Hr _
                     | d r l0 l1 l2 Hfl _ _ _ _ Hres].
    + rewrite Heq in *. destruct (IH Hret) as [H0 Hclear].
      split; [exact H0|]. intros j Hj.
      destruct (decide (j = k)) as [->|Hjk]; [exact Hne | apply Hclear; lia].
    + rewrite Hr in Hret. discriminate.
    + apply lookup_lt_Some in Hfl as Hlen.
      destruct Hres as [(_ & Hst & Hr) | (_ & _ & Hr)];
        [|rewrite Hr in Hret; discriminate].
      rewrite Hr in Hret. destruct (IH Hret) as [H0 Hclear].
      split; [exact H0|]. intros j Hj. rewrite Hst.
      destruct (decide (j = k)) as [->|Hjk].
      * rewrite list_lookup_insert_eq by exact Hlen. discriminate.
      * rewrite list_lookup_insert_ne by congruence. apply Hclear. lia.
Qed.

(** X13.  When the retry pass runs, the value [main] returns is 0 or -1,
    and it is 0 exactly when no entry of the registry is [test_failed]
    after the pass. *)
Theorem retry_result_reflects_remaining_failures (s : state World) :
  (0 < nb_test_failed s)%Z ->
  disable_debug s = true -> retry_failed_test s = true ->
  (ret (report tt s) = 0%Z \/ ret (report tt s) = (-1)%Z) /\
  (ret (report tt s) = 0%Z <->
   forall j, j < nb_tests tt ->
     test_status (report tt s) !! j <> Some test_failed).
Proof.
  intros Hf Hdd Hrf.
  destruct (report_with_retry tt s Hf Hdd Hrf)
    as (s3 & pre & post & Hv3 & _ & _ & Hv & _).
  destruct (same_vars_fields _ _ Hv3) as (Hret3 & _).
  destruct (same_vars_fields _ _ Hv) as (Hret & Hst & _).
  rewrite Hret, Hst. unfold retry_pass.
  destruct (retry_loop_ret tt (nb_tests tt) s3) as [H0 | (Hm & j & Hj & Hjf)];
    [lia | rewrite Hret3; reflexivity | |].
  - split; [left; exact H0|]. split; [|intros _; exact H0].
    intros _. apply retry_loop_clear; [lia | exact H0].
  - split; [right; exact Hm|]. split.
    + intros H0. rewrite Hm in H0. discriminate.
    + intros Hnone. exfalso. exact (Hnone j Hj Hjf).
Qed.

End ReportMore.

(** ** More on the retry pass *)

Section RetryMore.
Context {World : Type} (tt : list (picoquic_test_def_t World)).
Implicit Types s : state World.

(** The retry loop, seen through the calls it makes. *)
Lemma retry_loop_calls n s :
  n <= nb_tests tt ->
  exists new,
    trace (for_loop n (retry_step tt) s) = trace s ++ new /\
    map fst (calls_of new) = filter (retried_in_pass tt s) (seq 0 n).
Proof.
  intros Hn.
  enough ((forall j, n <= j ->
             test_status (for_loop n (retry_step tt) s) !! j
             = test_status s !! j) /\
          exists new,
            trace (for_loop n (retry_step tt) s) = trace s ++ new /\
            map fst (calls_of new) = filter (retried_in_pass tt s) (seq 0 n))
    by tauto.
  apply (for_loop_ind (fun k a =>
    (forall j, k <= j -> test_status a !! j = test_status s !! j) /\
    exists new,
      trace a = trace s ++ new /\
      map fst (calls_of new) = filter (retried_in_pass tt s) (seq 0 k))).
  - split; [reflexivity|]. exists []. rewrite app_nil_r. auto.
  - intros k a Hk (Hrest & new & Htr & Hcalls).
    destruct (retry_step_effect tt k a) as [Heff _]; [lia|].
    split.
    { intros j Hj.
      destruct (retry_effect_other tt k j a _ Heff) as [-> _]; [lia|].
      apply Hrest. lia. }
    rewrite filter_seq_snoc.
    pose proof (Hrest k (Nat.le_refl _)) as Hlook.
    destruct Heff as [Hne Heq | d line Hf Hd Hcr _ _ Htr'
                     | d r l0 l1 l2 Hf Hd Hcr _ Htr' _].
    + rewrite Heq. exists new.
      destruct (decide _) as [[Hs _]|_];
        [rewrite <- Hlook in Hs; contradiction|].
      rewrite app_nil_r. auto.
    + exists (new ++ [ev_fprintf stdout line]).
      rewrite Htr', Htr, <- app_assoc, calls_of_app.
      destruct (decide _) as [[_ Hs]|_].
      { rewrite Hd, Hcr in Hs. discriminate. }
      cbn. rewrite !app_nil_r. auto.
    + exists (new ++ [ev_fprintf stdout l0; ev_fprintf stdout l1;
                      ev_test_fn k r; ev_fprintf stdout l2]).
      rewrite Htr', Htr, <- app_assoc, calls_of_app, map_app, Hcalls.
      destruct (decide _) as [_|Hno].
      2:{ exfalso. apply Hno. split; [rewrite <- Hlook; exact Hf|].
          rewrite Hd. exact Hcr. }
      split; reflexivity.
Qed.

(** X14.  When the retry pass runs, the report calls, in ascending
    ordinal order and once each, exactly the tests whose entry is
    [test_failed] and whose name is not refused. *)
Theorem retry_calls_in_ordinal_order (s : state World) :
  (0 < nb_test_failed s)%Z ->
  disable_debug s = true -> retry_failed_test s = true ->
  exists new,
    trace (report tt s) = trace s ++ new /\
    map fst (calls_of new) =
      filter (retried_in_pass tt s) (seq 0 (nb_tests tt)).
Proof.
  intros Hf Hdd Hrf.
  destruct (report_with_retry tt s Hf Hdd Hrf)
    as (s3 & pre & post & Hv3 & Htr3 & Hpre & _ & Htr & Hpost & _).
  destruct (same_vars_fields _ _ Hv3) as (_ & Hst3 & _).
  destruct (retry_loop_calls (nb_tests tt) s3 (Nat.le_refl _))
    as (new & Hnew & Hcalls).
  exists (pre ++ new ++ post). unfold retry_pass in Htr.
  rewrite Htr, Hnew, Htr3, <- !app_assoc. split; [reflexivity|].
  rewrite !calls_of_app, Hpre, Hpost, app_nil_r. cbn [app].
  rewrite Hcalls. apply list_filter_iff. intros i.
  unfold retried_in_pass. rewrite Hst3. reflexivity.
Qed.

End RetryMore.

(** ** Option scanning and the value [main] returns *)

Section Scanning.
Context {World : Type} (tt : list (picoquic_test_def_t World)).
Implicit Types s : state World.

Lemma clean_or_usage_later argv s s' new :
  ret s' = ret s -> trace s' = trace s ++ new ->
  clean_or_usage tt argv s -> clean_or_usage tt argv s'.
Proof.
  unfold clean_or_usage. intros -> -> [H|[H Hu]]; [left; exact H|].
  right. split; [exact H|]. apply usage_printed_app. exact Hu.
Qed.

Lemma clean_or_usage_error argv s :
  clean_or_usage tt argv (ret_usage tt argv s).
Proof.
  right. split; [apply ret_usage_effect | apply usage_printed_ret_usage].
Qed.

(** [getopt] assigns [optind], [optarg] and its cursor only. *)
Lemma getopt_fields argv s o s' :
  getopt argv s = (o, s') ->
  ret s' = ret s /\ test_status s' = test_status s /\
  cnx_stress_nb_cnx s' = cnx_stress_nb_cnx s.
Proof.
  unfold getopt. cbv zeta. intros H.
  repeat case_match; simplify_eq; st_simpl; auto.
Qed.

Lemma exclude_loop_clean argv tokens s :
  clean_or_usage tt argv s ->
  clean_or_usage tt argv (exclude_loop tt argv tokens s).
Proof.
  revert s. induction tokens as [|tn rest IH]; intros s Hs;
    cbn [exclude_loop]; [exact Hs|].
  destruct (starts_with_dash tn); [exact Hs|]. apply IH.
  destruct (get_test_number tt tn <? 0)%Z.
  - eapply (clean_or_usage_later _ (ret_usage tt argv _) _ []);
      [reflexivity | rewrite app_nil_r; reflexivity
      | apply clean_or_usage_error].
  - eapply (clean_or_usage_later _ s _ []);
      [reflexivity | rewrite app_nil_r; reflexivity | exact Hs].
Qed.

(** An option either leaves [ret] at 0 or is a usage error. *)
Lemma handle_option_clean argv opt s s' :
  ret s = 0%Z -> handle_option tt argv opt s = Normal s' ->
  clean_or_usage tt argv s'.
Proof.
  unfold handle_option, option_x, option_o, option_minutes, option_F,
    option_c, option_d, option_S.
  intros H0 H.
  destruct (Ascii.eqb opt "x").
  { simplify_eq. apply exclude_loop_clean. left. exact H0. }
  repeat case_match; simplify_eq;
    first
      [ left; st_simpl; exact H0
      | right; split;
        [ st_simpl; apply ret_usage_effect
        | st_simpl; apply usage_printed_ret_usage ] ].
Qed.

Lemma option_loop_clean fuel argv s s1 :
  clean_or_usage tt argv s ->
  option_loop tt fuel argv s = Some (Normal s1) ->
  clean_or_usage tt argv s1.
Proof.
  revert s. induction fuel as [|fuel IH]; intros s Hs; cbn [option_loop];
    [discriminate|].
  destruct (ret s =? 0)%Z eqn:H0.
  - apply Z.eqb_eq in H0.
    destruct (getopt argv s) as [[opt|] s'] eqn:Hg;
      destruct (getopt_fields _ _ _ _ Hg) as (Hret & _).
    + destruct (handle_option tt argv opt s') as [s2|code s2|s2] eqn:Hh;
        try discriminate.
      apply IH. eapply handle_option_clean; [|exact Hh]. congruence.
    + intros [= <-]. left. congruence.
  - intros [= <-]. exact Hs.
Qed.

Lemma select_tests_clean argv s :
  clean_or_usage tt argv s -> clean_or_usage tt argv (select_tests tt argv s).
Proof.
  intros Hs. unfold select_tests, select_listed.
  set (sb := stresser_bypass tt s).
  assert (clean_or_usage tt argv sb) as Hsb.
  { subst sb. unfold stresser_bypass. destruct (_ || _); [|exact Hs].
    destruct (bypass_effect tt s) as (_ & Hsame & _).
    destruct (same_but_selection_fields _ _ Hsame)
      as (Hret & _ & _ & _ & _ & _ & _ & _ & _ & Htr).
    eapply (clean_or_usage_later _ s _ []);
      [exact Hret | rewrite app_nil_r; exact Htr | exact Hs]. }
  destruct (optind sb <? length argv); [|exact Hsb].
  destruct (bypass_effect tt sb) as (_ & Hsame & _).
  destruct (same_but_selection_fields _ _ Hsame)
    as (Hret & _ & _ & _ & _ & _ & _ & _ & _ & Htr).
  cbv zeta in *.
  set (e := exclude_all tt (set_auto_bypass true sb)) in *.
  assert (clean_or_usage tt argv e) as He.
  { eapply (clean_or_usage_later _ sb _ []);
      [exact Hret | rewrite app_nil_r; exact Htr | exact Hsb]. }
  destruct (select_loop_effect tt argv (drop (optind sb) argv) e)
    as (_ & _ & _ & Hbad & Hgood).
  destruct (list_exists_dec (fun name => (get_test_number tt name < 0)%Z) _
              (drop (optind sb) argv)) as [Hex|Hno].
  - right. apply Hbad. exact Hex.
  - destruct Hgood as (Hret2 & Htr2 & _).
    { intros name Hin.
      destruct (Z_lt_le_dec (get_test_number tt name) 0) as [Hlt|Hge];
        [|exact Hge].
      exfalso. apply Hno. eauto. }
    eapply (clean_or_usage_later _ e _ []);
      [exact Hret2 | rewrite app_nil_r; exact Htr2 | exact He].
Qed.

Lemma sweep_ret s :
  ret (sweep tt s) = ret s \/ ret (sweep tt s) = (-1)%Z.
Proof.
  unfold sweep. destruct (ret s =? 0)%Z; [|left; reflexivity].
  destruct (sweep_loop_calls tt (nb_tests tt) s (Nat.le_refl _))
    as (new & _ & _ & _ & Hok & Hko).
  destruct (decide (failures (calls_of new) = [])); auto.
Qed.

Lemma report_ret s :
  ret s = 0%Z \/ ret s = (-1)%Z ->
  ret (report tt s) = 0%Z \/ ret (report tt s) = (-1)%Z.
Proof.
  intros Hs.
  destruct (Z_lt_le_dec 0 (nb_test_failed s)) as [Hf|Hf];
    [destruct (disable_debug s) eqn:Hdd;
       [destruct (retry_failed_test s) eqn:Hrf|]|].
  - destruct (report_with_retry tt s Hf Hdd Hrf)
      as (s3 & pre & post & Hv3 & _ & _ & Hv & _).
    destruct (same_vars_fields _ _ Hv3) as (Hret3 & _).
    destruct (same_vars_fields _ _ Hv) as (-> & _).
    destruct (retry_loop_ret tt (nb_tests tt) s3) as [H0 | (Hm & _)];
      [lia | rewrite Hret3; reflexivity | left; exact H0 | right; exact Hm].
  - destruct (report_without_retry tt s) as (Hv & _).
    { right. rewrite Hdd, Hrf. apply andb_false_r. }
    destruct (same_vars_fields _ _ Hv) as (-> & _). exact Hs.
  - destruct (report_without_retry tt s) as (Hv & _).
    { right. rewrite Hdd. reflexivity. }
    destruct (same_vars_fields _ _ Hv) as (-> & _). exact Hs.
  - destruct (report_without_retry tt s) as (Hv & _).
    { left. lia. }
    destruct (same_vars_fields _ _ Hv) as (-> & _). exact Hs.
Qed.

Lemma run_selected_ret argv s :
  clean_or_usage tt argv s ->
  ret (run_selected tt argv s) = 0%Z \/ ret (run_selected tt argv s) = (-1)%Z.
Proof.
  intros Hs. unfold run_selected. apply report_ret.
  pose proof (select_tests_clean argv s Hs) as H2.
  set (s2 := select_tests tt argv s) in *.
  destruct (set_debug_effect s2) as (Hv3 & _).
  destruct (same_vars_fields _ _ Hv3) as (Hr3 & _).
  destruct (sweep_ret (set_debug s2)) as [-> | ->]; [|right; reflexivity].
  rewrite Hr3. destruct H2 as [H|[H _]]; auto.
Qed.

(** [-h] is the only way out of the option loop through [exit]. *)
Lemma handle_option_exited argv opt s code s' :
  handle_option tt argv opt s = Exited code s' ->
  code = 0%Z /\ s' = snd (usage tt (show_ptr (argv !! 0)) s).
Proof.
  unfold handle_option, option_x, option_o, option_minutes, option_F,
    option_c, option_d, option_S.
  intros H. repeat case_match; simplify_eq; auto.
Qed.

Lemma option_loop_exited fuel argv s code s' :
  option_loop tt fuel argv s = Some (Exited code s') ->
  code = 0%Z /\
  exists h, quiet s h /\ ret h = 0%Z /\
            s' = snd (usage tt (show_ptr (argv !! 0)) h).
Proof.
  revert s. induction fuel as [|fuel IH]; intros s; cbn [option_loop];
    [discriminate|].
  destruct (ret s =? 0)%Z eqn:H0; [|discriminate].
  apply Z.eqb_eq in H0.
  destruct (getopt argv s) as [[opt|] s1] eqn:Hg; [|discriminate].
  destruct (getopt_fields _ _ _ _ Hg) as (Hret & _).
  pose proof (getopt_quiet _ _ _ _ Hg) as Hq.
  destruct (handle_option tt argv opt s1) as [s2|c s2|s2] eqn:Hh;
    [|intros [= <- <-]|discriminate].
  - intros Hloop. destruct (IH _ Hloop) as (Hc & h & Hqh & Hh0 & Hs').
    split; [exact Hc|]. exists h. split; [|auto].
    eapply quiet_trans; [exact Hq|]. eapply quiet_trans; [|exact Hqh].
    eapply handle_option_quiet; eauto.
  - destruct (handle_option_exited _ _ _ _ _ Hh) as (-> & ->).
    split; [reflexivity|]. exists s1. split; [exact Hq|]. split; [congruence|].
    reflexivity.
Qed.

(** X15.  Whenever [main] ends, by [return] or by [exit], the status of
    the process is 0 or -1. *)
Theorem main_exit_status (calloc_ok : bool) (fuel : nat) (argv : list string)
    (w : World) (o : outcome (state World)) (c : Z) :
  main tt calloc_ok fuel argv w = Some o ->
  exit_status o = Some c ->
  c = 0%Z \/ c = (-1)%Z.
Proof.
  unfold main. destruct calloc_ok.
  - destruct (option_loop tt fuel argv (entry_state tt w))
      as [[s1|code s1|s1]|] eqn:Hloop; intros [= <-]; cbn [exit_status];
      intros [= <-].
    + apply run_selected_ret. eapply option_loop_clean; [|exact Hloop].
      left. apply entry_state_facts.
    + left. eapply option_loop_exited. exact Hloop.
  - intros [= <-]. cbn [exit_status]. intros [= <-]. right. reflexivity.
Qed.

(** X16.  A usage error met while the options are scanned is fatal:
    [main] returns -1, the help text has been written, no test is tried
    and no test function is called. *)
Theorem usage_error_in_options_is_fatal (fuel : nat) (argv : list string)
    (w : World) (s1 : state World) :
  option_loop tt fuel argv (entry_state tt w) = Some (Normal s1) ->
  ret s1 <> 0%Z ->
  exists f,
    main tt true fuel argv w = Some (Normal f) /\
    ret f = (-1)%Z /\
    usage_printed tt argv (trace f) /\
    calls_of (trace f) = [].
Proof.
  intros Hloop Herr. exists (run_selected tt argv s1).
  split; [apply main_scanned; exact Hloop|].
  assert (clean_or_usage tt argv s1) as Hc1.
  { eapply option_loop_clean; [|exact Hloop]. left. apply entry_state_facts. }
  pose proof (select_tests_clean argv s1 Hc1) as Hc2.
  destruct (select_tests_effect tt argv s1) as (_ & _ & _ & _ & _ & Hkeep).
  specialize (Hkeep Herr).
  destruct Hc2 as [H0|[Hm Hu]]; [contradiction|].
  destruct (run_selected_error tt argv w s1) as (Hret & Hcalls & Husage).
  { eapply option_loop_quiet. exact Hloop. }
  { exact Hkeep. }
  rewrite Hret. auto.
Qed.

(** X17.  When [main] leaves through [exit], the status is 0, the help
    text is the last thing written, and up to then no error was met, no
    test was tried and no test function was called. *)
Theorem help_exits_with_status_0 (calloc_ok : bool) (fuel : nat)
    (argv : list string) (w : World) (code : Z) (f : state World) :
  main tt calloc_ok fuel argv w = Some (Exited code f) ->
  code = 0%Z /\ ret f = 0%Z /\
  (exists before,
     trace f = before ++ usage_text tt (show_ptr (argv !! 0))) /\
  nb_test_tried f = 0%Z /\
  calls_of (trace f) = [] /\ world f = w.
Proof.
  unfold main. destruct calloc_ok; [|discriminate].
  destruct (option_loop tt fuel argv (entry_state tt w))
    as [[s1|c s1|s1]|] eqn:Hloop; intros [= -> ->].
  destruct (option_loop_exited _ _ _ _ _ Hloop) as (-> & h & Hq & H0 & ->).
  destruct (quiet_from_entry tt w h Hq) as (Ht & _ & _ & Hc & Hw).
  unfold usage. cbn [snd]. st_simpl.
  rewrite calls_of_app, Hc, calls_of_usage_text. eauto 10.
Qed.

End Scanning.

(** ** Single options *)

Section Options.
Context {World : Type} (tt : list (picoquic_test_def_t World)).
Implicit Types s : state World.

(** An option that takes an argument is returned with [optarg] set. *)
Lemma getopt_optarg argv s opt s1 :
  getopt argv s = (Some opt, s1) ->
  optstring_lookup opt optstring = Some true ->
  exists a, optarg s1 = Some a.
Proof.
  unfold getopt. cbv zeta. intros H Harg.
  repeat case_match; simplify_eq; st_simpl; eauto;
    vm_compute in Harg; discriminate Harg.
Qed.

Lemma ret_usage_vars argv s :
  optarg (ret_usage tt argv s) = optarg s /\
  optind (ret_usage tt argv s) = optind s /\
  cnx_stress_nb_cnx (ret_usage tt argv s) = cnx_stress_nb_cnx s /\
  test_status (ret_usage tt argv s) = test_status s.
Proof. unfold ret_usage, usage. st_simpl. auto. Qed.

(** The option loop, when it runs into undefined behaviour, does so in
    the body of an option met at one of its heads. *)
Lemma option_loop_undefined fuel argv w s f :
  loop_head tt argv w s ->
  option_loop tt fuel argv s = Some (Undefined f) ->
  exists h opt s1,
    loop_head tt argv w h /\ getopt argv h = (Some opt, s1) /\
    handle_option tt argv opt s1 = Undefined f.
Proof.
  revert s. induction fuel as [|fuel IH]; intros s Hhead; cbn [option_loop];
    [discriminate|].
  destruct (ret s =? 0)%Z eqn:H0; [|discriminate].
  apply Z.eqb_eq in H0.
  destruct (getopt argv s) as [[opt|] s1] eqn:Hg; [|discriminate].
  destruct (handle_option tt argv opt s1) as [s2|c s2|s2] eqn:Hh;
    [|discriminate|intros [= <-]; eauto 10].
  apply IH. eapply loop_head_next; eauto.
Qed.

(** Of the options, only [-c] and [-d] can read past the end of [argv]. *)
Lemma handle_option_undefined argv s opt s1 f :
  getopt argv s = (Some opt, s1) ->
  handle_option tt argv opt s1 = Undefined f ->
  (opt = "c" \/ opt = "d")%char /\ length argv <= optind s1 /\
  ret f = (-1)%Z /\ usage_printed tt argv (trace f).
Proof.
  intros Hg. pose proof (getopt_optarg _ _ _ _ Hg) as Harg.
  unfold handle_option.
  destruct (Ascii.eqb_spec opt "x") as [->|_]; [discriminate|].
  destruct (Ascii.eqb_spec opt "o") as [->|_].
  { destruct Harg as [a Ha]; [reflexivity|]. unfold option_o.
    destruct (Nat.ltb_spec (length argv) (optind s1 + 1)); [discriminate|].
    rewrite Ha. destruct (argv !! optind s1) as [b|] eqn:Hb.
    - destruct (_ || _); discriminate.
    - apply lookup_ge_None in Hb. lia. }
  destruct (Ascii.eqb_spec opt "f") as [->|_].
  { destruct Harg as [a Ha]; [reflexivity|]. unfold option_minutes.
    st_simpl. rewrite Ha. destruct (_ <=? _)%Z; discriminate. }
  destruct (Ascii.eqb_spec opt "F") as [->|_].
  { destruct Harg as [a Ha]; [reflexivity|]. unfold option_F.
    st_simpl. rewrite Ha. destruct (_ <=? _)%Z; discriminate. }
  destruct (Ascii.eqb_spec opt "s") as [->|_].
  { destruct Harg as [a Ha]; [reflexivity|]. unfold option_minutes.
    st_simpl. rewrite Ha. destruct (_ <=? _)%Z; discriminate. }
  destruct (Ascii.eqb_spec opt "c") as [->|_].
  { destruct Harg as [a Ha]; [reflexivity|]. unfold option_c.
    destruct (Nat.ltb_spec (length argv) (optind s1 + 1)) as [Hshort|Hlong].
    - st_simpl. destruct (ret_usage_vars argv
        (fprintf stderr ("option requires more arguments -- c" +:+ nl) s1))
        as (-> & -> & _).
      st_simpl. rewrite Ha. destruct (argv !! optind s1) as [b|] eqn:Hb.
      + repeat case_match; discriminate.
      + intros [= <-]. apply lookup_ge_None in Hb. st_simpl.
        split; [auto|]. split; [exact Hb|].
        split; [apply ret_usage_effect | apply usage_printed_ret_usage].
    - st_simpl. rewrite Ha. destruct (argv !! optind s1) as [b|] eqn:Hb.
      + repeat case_match; discriminate.
      + apply lookup_ge_None in Hb. lia. }
  destruct (Ascii.eqb_spec opt "d") as [->|_].
  { destruct Harg as [a Ha]; [reflexivity|]. unfold option_d.
    destruct (Nat.ltb_spec (length argv) (optind s1 + 2)) as [Hshort|Hlong].
    - st_simpl. destruct (ret_usage_vars argv
        (fprintf stderr ("option requires more arguments -- c" +:+ nl) s1))
        as (-> & -> & _).
      st_simpl. rewrite Ha. destruct (argv !! optind s1) as [b|] eqn:Hb.
      + repeat case_match; discriminate.
      + intros [= <-]. apply lookup_ge_None in Hb. st_simpl.
        split; [auto|]. split; [exact Hb|].
        split; [apply ret_usage_effect | apply usage_printed_ret_usage].
    - st_simpl. rewrite Ha. destruct (argv !! optind s1) as [b|] eqn:Hb.
      + repeat case_match; discriminate.
      + apply lookup_ge_None in Hb. lia. }
  destruct (Ascii.eqb_spec opt "S") as [->|_].
  { destruct Harg as [a Ha]; [reflexivity|]. unfold option_S.
    rewrite Ha. discriminate. }
  repeat case_match; discriminate.
Qed.

(** X18.  The one way [main] runs into undefined behaviour is a [-c] or a
    [-d] that is the last but one token of the command line: the argument
    count is found too small, the complaint and the help text are
    written, [ret] is set to -1, and the case goes on to read its second
    argument past the end of [argv].  No test function has been called
    by then. *)
Theorem undefined_only_after_short_c_or_d (calloc_ok : bool) (fuel : nat)
    (argv : list string) (w : World) (f : state World) :
  main tt calloc_ok fuel argv w = Some (Undefined f) ->
  exists h opt s1,
    loop_head tt argv w h /\ getopt argv h = (Some opt, s1) /\
    handle_option tt argv opt s1 = Undefined f /\
    (opt = "c" \/ opt = "d")%char /\ length argv <= optind s1 /\
    ret f = (-1)%Z /\ usage_printed tt argv (trace f) /\
    calls_of (trace f) = [].
Proof.
  unfold main. destruct calloc_ok; [|discriminate].
  destruct (option_loop tt fuel argv (entry_state tt w))
    as [[s1|c s1|s1]|] eqn:Hloop; intros [= ->].
  destruct (option_loop_undefined _ _ w _ _ (loop_head_entry tt argv w) Hloop)
    as (h & opt & s1 & Hhead & Hg & Hh).
  destruct (handle_option_undefined _ _ _ _ _ Hg Hh) as (Hopt & Hlen & Hr & Hu).
  exists h, opt, s1. repeat (split; [assumption|]).
  pose proof (loop_head_quiet tt _ _ _ Hhead) as Hq.
  pose proof (getopt_quiet _ _ _ _ Hg) as Hq1.
  destruct (quiet_from_entry tt w s1 (quiet_trans _ _ _ Hq Hq1))
    as (_ & _ & _ & Hc & _).
  clear - Hh Hopt Hc. unfold handle_option, option_c, option_d in Hh.
  destruct Hopt as [-> | ->]; cbn [Ascii.eqb Bool.eqb] in Hh;
    repeat case_match; simplify_eq; unfold ret_usage, usage; st_simpl;
    rewrite ?calls_of_app, ?calls_of_usage_text, ?Hc; reflexivity.
Qed.

(** One turn of the loop on a [-x] with its argument attached. *)
Lemma attached_exclusion_step argv s c name :
  ret s = 0%Z -> nextchar s = 0 ->
  argv !! optind s = Some (String "-" (String "x" (String c name))) ->
  exists s1 s2,
    getopt argv s = (Some "x"%char, s1) /\
    handle_option tt argv "x" s1 = Normal s2 /\
    ret s2 = 0%Z /\ nextchar s2 = 0 /\ optind s2 = optind s.
Proof.
  intros H0 Hn Htok. unfold getopt. cbv zeta. st_simpl. rewrite Htok, Hn.
  cbn [Nat.eqb andb negb is_option_token String.eqb Ascii.eqb Bool.eqb
       String.get String.length Nat.leb].
  change (optstring_lookup "x" optstring) with (Some true).
  cbv iota. eexists _, _. split; [reflexivity|].
  unfold handle_option, option_x. cbn [Ascii.eqb Bool.eqb]. st_simpl.
  replace (S (optind s) - 1) with (optind s) by lia.
  rewrite (drop_S _ _ _ Htok).
  cbn [exclude_loop starts_with_dash]. st_simpl. auto.
Qed.

Lemma attached_exclusion_loop fuel argv s c name :
  ret s = 0%Z -> nextchar s = 0 ->
  argv !! optind s = Some (String "-" (String "x" (String c name))) ->
  option_loop tt fuel argv s = None.
Proof.
  revert s. induction fuel as [|fuel IH]; intros s H0 Hn Htok;
    cbn [option_loop]; [reflexivity|].
  destruct (attached_exclusion_step argv s c name H0 Hn Htok)
    as (s1 & s2 & Hg & Hh & H0' & Hn' & Hopt).
  apply Z.eqb_eq in H0. rewrite H0, Hg, Hh.
  apply (IH s2); [exact H0' | exact Hn' | rewrite Hopt; exact Htok].
Qed.

(** X19.  A [-x] with its argument attached ("-xname") is never got
    past: [optind] is stepped back onto the token, the token starts with
    a dash, so the group is empty and [getopt] returns the same option
    again.  Once option scanning reaches such a token without an error,
    [main] does not end, whatever follows and whatever the name. *)
Theorem attached_exclusion_never_ends (fuel : nat) (argv : list string)
    (w : World) (s : state World) (name : string) :
  loop_head tt argv w s ->
  ret s = 0%Z -> nextchar s = 0 ->
  argv !! optind s = Some ("-x" +:+ name) -> name <> "" ->
  main tt true fuel argv w = None.
Proof.
  intros Hhead H0 Hn Htok Hname.
  destruct name as [|c name]; [contradiction|].
  destruct (loop_head_run tt _ _ _ Hhead) as (n & Hrun).
  unfold main.
  destruct (option_loop tt fuel argv (entry_state tt w)) as [r|] eqn:Hloop;
    [|reflexivity].
  exfalso. apply (option_loop_fuel tt _ n) in Hloop.
  rewrite Nat.add_comm, Hrun in Hloop.
  rewrite (attached_exclusion_loop fuel argv s c name H0 Hn Htok) in Hloop.
  discriminate.
Qed.

(** The scan of a [-x] group all of whose names are registered. *)
Lemma exclude_loop_effect argv tokens s :
  (forall tn, tn ∈ x_group tokens -> tn ∈ map test_name tt) ->
  ret (exclude_loop tt argv tokens s) = ret s /\
  trace (exclude_loop tt argv tokens s) = trace s /\
  optind (exclude_loop tt argv tokens s)
    = optind s + length (x_group tokens) /\
  nextchar (exclude_loop tt argv tokens s) = nextchar s /\
  (forall i, i < length (test_status s) ->
     (exists tn, tn ∈ x_group tokens /\ get_test_number tt tn = Z.of_nat i) ->
     test_status (exclude_loop tt argv tokens s) !! i = Some test_excluded) /\
  (forall i,
     (forall tn, tn ∈ x_group tokens -> get_test_number tt tn <> Z.of_nat i) ->
     test_status (exclude_loop tt argv tokens s) !! i = test_status s !! i).
Proof.
  revert s. induction tokens as [|t rest IH]; intros s Hreg;
    cbn [exclude_loop x_group] in *.
  - rewrite Nat.add_0_r. repeat split; auto.
    intros i _ (tn & Hin & _). inversion Hin.
  - destruct (starts_with_dash t).
    { rewrite Nat.add_0_r. repeat split; auto.
      intros i _ (tn & Hin & _). inversion Hin. }
    pose proof (get_test_number_known tt t (Hreg t (list_elem_of_here _ _)))
      as Hpos.
    destruct (Z.ltb_spec (get_test_number tt t) 0) as [|_]; [lia|].
    set (s1 := set_optind _ _).
    destruct (IH s1) as (Hret & Htr & Hopt & Hnc & Hin & Hout).
    { intros tn Htn. apply Hreg. apply elem_of_cons. auto. }
    rewrite Hret, Htr, Hopt, Hnc. subst s1. st_simpl.
    split; [reflexivity|]. split; [reflexivity|].
    split; [cbn [length]; lia|]. split; [reflexivity|]. split.
    + intros i Hi (tn & Htn & Hnum).
      destruct (list_exists_dec
                  (fun tn => get_test_number tt tn = Z.of_nat i) _
                  (x_group rest)) as [Hex|Hno].
      * apply Hin; [rewrite length_insert; exact Hi | exact Hex].
      * rewrite Hout.
        2:{ intros tn' Htn' Heq. apply Hno. eauto. }
        apply elem_of_cons in Htn as [->|Htn]; [|exfalso; apply Hno; eauto].
        rewrite Hnum, Nat2Z.id. apply list_lookup_insert_eq. exact Hi.
    + intros i Hno. rewrite Hout.
      2:{ intros tn Htn. apply Hno. apply elem_of_cons. auto. }
      apply list_lookup_insert_ne.
      specialize (Hno t (list_elem_of_here _ _)). lia.
Qed.

(** X20.  A [-x] followed by a group of registered names marks exactly
    the entries those names resolve to [test_excluded], moves [optind]
    past the group, and changes neither [ret] nor what has been written;
    the group ends at the first token that starts with a dash. *)
Theorem exclusion_marks_its_group (argv : list string) (s : state World) :
  let group := x_group (drop (optind s - 1) argv) in
  (forall tn, tn ∈ group -> tn ∈ map test_name tt) ->
  exists s',
    handle_option tt argv "x" s = Normal s' /\
    ret s' = ret s /\ trace s' = trace s /\
    optind s' = optind s - 1 + length group /\
    (forall i, i < length (test_status s) ->
       (exists tn, tn ∈ group /\ get_test_number tt tn = Z.of_nat i) ->
       test_status s' !! i = Some test_excluded) /\
    (forall i,
       (forall tn, tn ∈ group -> get_test_number tt tn <> Z.of_nat i) ->
       test_status s' !! i = test_status s !! i).
Proof.
  intros group Hreg. unfold handle_option, option_x.
  cbn [Ascii.eqb Bool.eqb]. eexists. split; [reflexivity|].
  st_simpl.
  destruct (exclude_loop_effect argv (drop (optind s - 1) argv)
              (set_optind (optind s - 1) s) Hreg)
    as (Hret & Htr & Hopt & _ & Hin & Hout).
  rewrite Hret, Htr, Hopt. st_simpl. auto.
Qed.

Lemma exclude_loop_nb_cnx argv tokens s :
  cnx_stress_nb_cnx (exclude_loop tt argv tokens s) = cnx_stress_nb_cnx s.
Proof.
  revert s. induction tokens as [|t rest IH]; intros s; cbn [exclude_loop];
    [reflexivity|].
  destruct (starts_with_dash t); [reflexivity|]. rewrite IH.
  destruct (_ <? _)%Z; st_simpl; [|reflexivity].
  destruct (ret_usage_vars argv
              (fprintf stderr ("Incorrect test name: " +:+ t +:+ nl) s))
    as (_ & _ & -> & _).
  reflexivity.
Qed.

(** As long as no error is met, [cnx_stress_nb_cnx] is not negative. *)
Lemma handle_option_nb_cnx argv opt s s' :
  handle_option tt argv opt s = Normal s' ->
  (0 <= cnx_stress_nb_cnx s)%Z -> ret s' = 0%Z ->
  (0 <= cnx_stress_nb_cnx s')%Z.
Proof.
  unfold handle_option, option_x, option_o, option_minutes, option_F,
    option_c, option_d, option_S.
  intros H Hnb.
  destruct (Ascii.eqb opt "x").
  { simplify_eq. rewrite exclude_loop_nb_cnx. auto. }
  repeat case_match; simplify_eq; st_simpl;
    rewrite ?(proj1 (ret_usage_effect tt _ _)); intros Hret;
    first [ discriminate Hret | exact Hnb | lia ].
Qed.

Lemma loop_head_nb_cnx argv w s :
  loop_head tt argv w s -> ret s = 0%Z -> (0 <= cnx_stress_nb_cnx s)%Z.
Proof.
  induction 1 as [|s s1 s2 opt _ IH H0 Hg Hh]; intros Hret.
  - cbn. lia.
  - eapply handle_option_nb_cnx; [exact Hh| |exact Hret].
    destruct (getopt_fields _ _ _ _ Hg) as (_ & _ & ->). auto.
Qed.

(** X21.  The interval of a [-d] is never checked: the test meant for it
    looks at [cnx_stress_nb_cnx], which is not negative as long as no
    error was met.  So a [-d] with its three arguments present and a
    positive packet count is accepted whatever the interval, and writes
    nothing. *)
Theorem ddos_interval_is_not_checked (argv : list string) (w : World)
    (s s1 : state World) (a b : string) :
  loop_head tt argv w s -> ret s = 0%Z ->
  getopt argv s = (Some "d"%char, s1) ->
  optarg s1 = Some a -> argv !! optind s1 = Some b ->
  optind s1 + 2 <= length argv ->
  (0 < atoi a)%Z ->
  exists s2,
    handle_option tt argv "d" s1 = Normal s2 /\
    ret s2 = 0%Z /\ trace s2 = trace s1 /\
    cnx_ddos_packets s2 = atoi a /\ cnx_ddos_interval s2 = atoi b /\
    cnx_ddos_dir s2 = argv !! S (optind s1) /\
    optind s2 = optind s1 + 2.
Proof.
  intros Hhead H0 Hg Ha Hb Hlen Hpk.
  pose proof (loop_head_nb_cnx _ _ _ Hhead H0) as Hnb.
  destruct (getopt_fields _ _ _ _ Hg) as (Hret & _ & Hnb1).
  unfold handle_option, option_d. cbn [Ascii.eqb Bool.eqb].
  destruct (Nat.ltb_spec (length argv) (optind s1 + 2)) as [|_]; [lia|].
  st_simpl. rewrite Ha, Hb. st_simpl.
  destruct (Z.leb_spec (atoi a) 0) as [|_]; [lia|].
  destruct (Z.ltb_spec (cnx_stress_nb_cnx s1) 0) as [|_]; [lia|].
  eexists. split; [reflexivity|]. st_simpl.
  repeat split; [congruence | lia].
Qed.

End Options.

(** ** What the sweep starts from *)

Section BeforeTheSweep.
Context {World : Type} (tt : list (picoquic_test_def_t World)).
Implicit Types s : state World.

Lemma exclude_loop_unsettled argv tokens s :
  Forall unsettled (test_status s) ->
  Forall unsettled (test_status (exclude_loop tt argv tokens s)).
Proof.
  revert s. induction tokens as [|t rest IH]; intros s Hs;
    cbn [exclude_loop]; [exact Hs|].
  destruct (starts_with_dash t); [exact Hs|]. apply IH.
  destruct (_ <? _)%Z; st_simpl.
  - destruct (ret_usage_vars tt argv
                (fprintf stderr ("Incorrect test name: " +:+ t +:+ nl) s))
      as (_ & _ & _ & ->).
    exact Hs.
  - apply Forall_insert; [exact Hs | right; reflexivity].
Qed.

Lemma handle_option_unsettled argv opt s s' :
  handle_option tt argv opt s = Normal s' ->
  Forall unsettled (test_status s) -> Forall unsettled (test_status s').
Proof.
  unfold handle_option, option_x, option_o, option_minutes, option_F,
    option_c, option_d, option_S.
  intros H Hs.
  destruct (Ascii.eqb opt "x").
  { simplify_eq. apply exclude_loop_unsettled. exact Hs. }
  repeat case_match; simplify_eq;
    repeat (st_simpl;
            rewrite ?(proj2 (proj2 (proj2 (ret_usage_vars tt _ _)))));
    exact Hs.
Qed.

Lemma option_loop_unsettled fuel argv s s1 :
  option_loop tt fuel argv s = Some (Normal s1) ->
  Forall unsettled (test_status s) -> Forall unsettled (test_status s1).
Proof.
  revert s. induction fuel as [|fuel IH]; intros s; cbn [option_loop];
    [discriminate|].
  destruct (ret s =? 0)%Z.
  - destruct (getopt argv s) as [[opt|] s'] eqn:Hg;
      destruct (getopt_fields _ _ _ _ Hg) as (_ & Hst & _).
    + destruct (handle_option tt argv opt s') as [s2|code s2|s2] eqn:Hh;
        try discriminate.
      intros Hloop Hs. apply (IH _ Hloop).
      eapply handle_option_unsettled; [exact Hh|]. rewrite Hst. exact Hs.
    + intros [= <-]. rewrite Hst. auto.
  - intros [= <-]. auto.
Qed.

Lemma exclude_all_unsettled s :
  Forall unsettled (test_status s) ->
  Forall unsettled (test_status (exclude_all tt s)).
Proof.
  intros Hs. unfold exclude_all.
  apply (for_loop_ind (fun _ a => Forall unsettled (test_status a)));
    [exact Hs|].
  intros k a _ Ha. st_simpl. apply Forall_insert; [exact Ha | right; reflexivity].
Qed.

Lemma select_loop_unsettled argv names s :
  Forall unsettled (test_status s) ->
  Forall unsettled (test_status (select_loop tt argv names s)).
Proof.
  revert s. induction names as [|name rest IH]; intros s Hs;
    cbn [select_loop]; [exact Hs|].
  apply IH. destruct (_ <? _)%Z; st_simpl.
  - destruct (ret_usage_vars tt argv
                (fprintf stderr
                   ("Incorrect test name: " +:+ show_ptr (optarg s) +:+ nl) s))
      as (_ & _ & _ & ->).
    exact Hs.
  - apply Forall_insert; [exact Hs | left; reflexivity].
Qed.

Lemma select_tests_unsettled argv s :
  Forall unsettled (test_status s) ->
  Forall unsettled (test_status (select_tests tt argv s)).
Proof.
  intros Hs. unfold select_tests, select_listed.
  assert (Forall unsettled (test_status (stresser_bypass tt s))) as Hsb.
  { unfold stresser_bypass. destruct (_ || _); [|exact Hs].
    apply exclude_all_unsettled. exact Hs. }
  destruct (_ <? _); [|exact Hsb].
  apply select_loop_unsettled, exclude_all_unsettled. exact Hsb.
Qed.

(** X22.  Whatever the command line, the sweep starts from a table of
    [nb_tests] entries each of which is [test_not_run] or
    [test_excluded]: no result is there before a test has run. *)
Theorem sweep_starts_without_results (fuel : nat) (argv : list string)
    (w : World) (s1 : state World) :
  option_loop tt fuel argv (entry_state tt w) = Some (Normal s1) ->
  let s2 := set_debug (select_tests tt argv s1) in
  length (test_status s2) = nb_tests tt /\
  forall i, i < nb_tests tt ->
    test_status s2 !! i = Some test_not_run \/
    test_status s2 !! i = Some test_excluded.
Proof.
  intros Hloop s2.
  assert (test_status s2 = test_status (select_tests tt argv s1)) as Hst.
  { subst s2. destruct (set_debug_effect (select_tests tt argv s1)) as (Hv & _).
    apply (same_vars_fields _ _ Hv). }
  rewrite Hst.
  destruct (quiet_from_entry tt w s1 (option_loop_quiet tt _ _ _ _ Hloop))
    as (_ & _ & Hlen & _).
  destruct (select_tests_effect tt argv s1) as ((_ & _ & Hlen2 & _) & _).
  assert (Forall unsettled (test_status (select_tests tt argv s1))) as Hall.
  { apply select_tests_unsettled.
    apply (option_loop_unsettled _ _ _ _ Hloop).
    unfold entry_state, initial_state. st_simpl.
    apply Forall_replicate. left. reflexivity. }
  split; [congruence|]. intros i Hi.
  destruct (lookup_lt_is_Some_2 (test_status (select_tests tt argv s1)) i)
    as [v Hv]; [lia|].
  rewrite Hv. destruct (proj1 (Forall_lookup _ _) Hall i v Hv) as [-> | ->];
    auto.
Qed.

Lemma filter_first_in_range s n :
  test_status s = replicate (nb_tests tt) test_not_run ->
  first_test s = 0%Z -> n <= nb_tests tt ->
  filter (runs_in_sweep s) (seq 0 n) =
    seq 0 (Nat.min n (Z.to_nat (last_test s + 1))).
Proof.
  intros Hst Hfirst. induction n as [|k IH]; intros Hk; [reflexivity|].
  rewrite filter_seq_snoc, IH by lia.
  assert (test_status s !! k = Some test_not_run) as Hlook.
  { rewrite Hst. apply lookup_replicate_2. lia. }
  destruct (decide (runs_in_sweep s k)) as [[_ Hin]|Hno].
  - unfold in_range in Hin. apply andb_true_iff in Hin as [_ Hin].
    apply Z.leb_le in Hin.
    replace (Nat.min k (Z.to_nat (last_test s + 1))) with k by lia.
    replace (Nat.min (S k) (Z.to_nat (last_test s + 1))) with (S k) by lia.
    rewrite seq_S. reflexivity.
  - rewrite app_nil_r. f_equal.
    assert (~ (Z.of_nat k <= last_test s)%Z) as Hout.
    { intros Hle. apply Hno. split; [exact Hlook|]. unfold in_range.
      apply andb_true_iff. split; apply Z.leb_le; lia. }
    lia.
Qed.

Lemma not_run_count_replicate (n : nat) :
  not_run_count (replicate n test_not_run) = Z.of_nat n.
Proof.
  unfold not_run_count. f_equal. induction n as [|n IH]; [reflexivity|].
  cbn [replicate]. rewrite filter_cons_True by reflexivity.
  cbn [length]. f_equal. exact IH.
Qed.

(** X23.  Run without arguments, [main] returns, having called the first
    10001 tests of the registry (all of them, if they are fewer) once
    each in ordinal order and nothing else; it returns 0 if every call
    returned 0 and -1 otherwise, and it has counted every entry of the
    registry as tried. *)
Theorem run_without_arguments (fuel : nat) (prog : string) (w : World) :
  exists f,
    main tt true (S fuel) [prog] w = Some (Normal f) /\
    map fst (calls_of (trace f))
      = seq 0 (Nat.min (nb_tests tt) (Z.to_nat 10001)) /\
    ret f = (if decide (failures (calls_of (trace f)) = [])
             then 0 else -1)%Z /\
    nb_test_tried f = Z.of_nat (nb_tests tt).
Proof.
  set (s1 := set_optarg None (entry_state tt w)).
  assert (option_loop tt (S fuel) [prog] (entry_state tt w)
          = Some (Normal s1)) as Hloop.
  { cbn [option_loop]. unfold entry_state at 1, initial_state at 1.
    st_simpl. cbn [Z.eqb]. unfold getopt. cbv zeta.
    unfold entry_state at 1, initial_state at 1. st_simpl. reflexivity. }
  exists (run_selected tt [prog] s1). split; [apply main_scanned, Hloop|].
  unfold run_selected.
  assert (select_tests tt [prog] s1 = s1) as ->.
  { unfold select_tests, select_listed, stresser_bypass. reflexivity. }
  set (s3 := set_debug s1).
  assert (test_status s3 = replicate (nb_tests tt) test_not_run /\
          first_test s3 = 0%Z /\ last_test s3 = 10000%Z /\ ret s3 = 0%Z /\
          nb_test_tried s3 = 0%Z /\ nb_test_failed s3 = 0%Z /\
          disable_debug s3 = false /\ calls_of (trace s3) = [])
    as (Hst & Hfirst & Hlast & Hret & Htried & Hfailed & Hdd & Hc3).
  { subst s3 s1. unfold set_debug, entry_state, initial_state. st_simpl.
    cbv iota. st_simpl. auto 10. }
  destruct (sweep_loop_calls tt (nb_tests tt) s3 (Nat.le_refl _))
    as (new & Htr & Hcalls & _ & Hok & Hko).
  pose proof (sweep_loop_tried tt (nb_tests tt) s3 (Nat.le_refl _)) as Htr4.
  cbv zeta in Htr4.
  assert (sweep tt s3 = for_loop (nb_tests tt) (sweep_step tt) s3) as Hsw.
  { unfold sweep. rewrite Hret. reflexivity. }
  rewrite Hsw. set (s4 := for_loop _ _ s3) in *.
  destruct (sweep_loop_config tt (nb_tests tt) s3) as (_ & _ & _ & Hdd4 & _);
    [lia|].
  fold s4 in Hdd4.
  destruct (report_without_retry tt s4) as (Hv & new' & Htr' & Hnew').
  { right. rewrite Hdd4, Hdd. reflexivity. }
  destruct (same_vars_fields _ _ Hv) as (-> & _ & -> & _).
  rewrite Htr', Htr, !calls_of_app, Hc3, Hnew', app_nil_r. cbn [app].
  rewrite Hcalls, (filter_first_in_range s3 _ Hst Hfirst (Nat.le_refl _)), Hlast.
  split; [reflexivity|]. split.
  - destruct (decide (failures (calls_of new) = [])) as [He|Hne].
    + rewrite (Hok He). exact Hret.
    + apply Hko. exact Hne.
  - rewrite Htr4, Htried, Hst, firstn_all2 by (rewrite length_replicate; lia).
    rewrite not_run_count_replicate. lia.
Qed.

End BeforeTheSweep.

(** ** The range of ordinals *)

Section Range.
Context {World : Type} (tt : list (picoquic_test_def_t World)).
Implicit Types s : state World.

Lemma ret_usage_range argv s :
  first_test (ret_usage tt argv s) = first_test s /\
  last_test (ret_usage tt argv s) = last_test s.
Proof. unfold ret_usage, usage. st_simpl. auto. Qed.

Lemma getopt_range argv s o s' :
  getopt argv s = (o, s') ->
  first_test s' = first_test s /\ last_test s' = last_test s.
Proof.
  unfold getopt. cbv zeta. intros H.
  repeat case_match; simplify_eq; st_simpl; auto.
Qed.

Lemma exclude_loop_range argv tokens s :
  first_test (exclude_loop tt argv tokens s) = first_test s /\
  last_test (exclude_loop tt argv tokens s) = last_test s.
Proof.
  revert s. induction tokens as [|t rest IH]; intros s; cbn [exclude_loop];
    [auto|].
  destruct (starts_with_dash t); [auto|].
  destruct (IH (set_optind
                  (S (optind
                        (if (get_test_number tt t <? 0)%Z
                         then ret_usage tt argv
                                (fprintf stderr
                                   ("Incorrect test name: " +:+ t +:+ nl) s)
                         else set_status (Z.to_nat (get_test_number tt t))
                                test_excluded s)))
                  (if (get_test_number tt t <? 0)%Z
                   then ret_usage tt argv
                          (fprintf stderr
                             ("Incorrect test name: " +:+ t +:+ nl) s)
                   else set_status (Z.to_nat (get_test_number tt t))
                          test_excluded s))) as (-> & ->).
  destruct (_ <? _)%Z; st_simpl; [|auto].
  apply (ret_usage_range argv
           (fprintf stderr ("Incorrect test name: " +:+ t +:+ nl) s)).
Qed.

(** No option makes a bound of the range negative. *)
Lemma handle_option_range argv opt s s' :
  handle_option tt argv opt s = Normal s' ->
  (0 <= first_test s)%Z /\ (0 <= last_test s)%Z ->
  (0 <= first_test s')%Z /\ (0 <= last_test s')%Z.
Proof.
  unfold handle_option, option_x, option_o, option_minutes, option_F,
    option_c, option_d, option_S.
  intros H Hs.
  destruct (Ascii.eqb opt "x").
  { simplify_eq.
    destruct (exclude_loop_range argv (drop (optind s - 1) argv)
                (set_optind (optind s - 1) s)) as (-> & ->).
    exact Hs. }
  repeat case_match; simplify_eq;
    repeat (st_simpl;
            rewrite ?(proj1 (ret_usage_range _ _)),
                    ?(proj2 (ret_usage_range _ _)));
    try exact Hs.
  match goal with
  | H : (_ || _) = false |- _ =>
      apply orb_false_elim in H as [?%Z.ltb_ge ?%Z.ltb_ge]
  end.
  auto.
Qed.

Lemma option_loop_range fuel argv s s1 :
  option_loop tt fuel argv s = Some (Normal s1) ->
  (0 <= first_test s)%Z /\ (0 <= last_test s)%Z ->
  (0 <= first_test s1)%Z /\ (0 <= last_test s1)%Z.
Proof.
  revert s. induction fuel as [|fuel IH]; intros s; cbn [option_loop];
    [discriminate|].
  destruct (ret s =? 0)%Z.
  - destruct (getopt argv s) as [[opt|] s'] eqn:Hg;
      destruct (getopt_range _ _ _ _ Hg) as (Hf & Hl).
    + destruct (handle_option tt argv opt s') as [s2|code s2|s2] eqn:Hh;
        try discriminate.
      intros Hloop Hs. apply (IH _ Hloop).
      eapply handle_option_range; [exact Hh|]. rewrite Hf, Hl. exact Hs.
    + intros [= <-]. rewrite Hf, Hl. auto.
  - intros [= <-]. auto.
Qed.

(** X24.  Whatever the command line, the sweep starts with a range whose
    bounds are not negative: a [-o] with a negative number is a usage
    error and leaves the range as it was. *)
Theorem range_bounds_are_never_negative (fuel : nat) (argv : list string)
    (w : World) (s1 : state World) :
  option_loop tt fuel argv (entry_state tt w) = Some (Normal s1) ->
  let s2 := set_debug (select_tests tt argv s1) in
  (0 <= first_test s2)%Z /\ (0 <= last_test s2)%Z.
Proof.
  intros Hloop s2.
  destruct (set_debug_effect (select_tests tt argv s1)) as (Hv & _).
  destruct (same_vars_fields _ _ Hv) as (_ & _ & _ & _ & _ & _ & _ & Hf & Hl & _).
  destruct (select_tests_effect tt argv s1) as (_ & Hf2 & Hl2 & _).
  subst s2. rewrite Hf, Hl, Hf2, Hl2.
  apply (option_loop_range _ _ _ _ Hloop).
  unfold entry_state, initial_state. st_simpl. lia.
Qed.

End Range.

(** ** The call records of a run *)

Section Records.
Context {World : Type} (tt : list (picoquic_test_def_t World)).
Implicit Types s : state World.

Lemma report_genuine s :
  exists new,
    trace (report tt s) = trace s ++ new /\
    genuine tt (world s) (calls_of new) (world (report tt s)).
Proof.
  destruct (Z_lt_le_dec 0 (nb_test_failed s)) as [Hf|Hf];
    [destruct (disable_debug s) eqn:Hdd;
       [destruct (retry_failed_test s) eqn:Hrf|]|].
  - destruct (report_with_retry tt s Hf Hdd Hrf)
      as (s3 & pre & post & Hv3 & Htr3 & Hpre & Hv & Htr & Hpost & _).
    destruct (same_vars_fields _ _ Hv3) as (_ & _ & _ & _ & _ & _ & Hw3 & _).
    destruct (same_vars_fields _ _ Hv) as (_ & _ & _ & _ & _ & _ & Hwf & _).
    destruct (retry_loop_genuine tt (nb_tests tt) s3 (Nat.le_refl _))
      as (new & Hnew & Hgen).
    fold (retry_pass tt s3) in Hnew, Hgen. st_simpl.
    exists (pre ++ new ++ post).
    rewrite Htr, Hnew, Htr3, <- !app_assoc. split; [reflexivity|].
    rewrite !calls_of_app, Hpre, Hpost, app_nil_r. cbn [app].
    rewrite Hwf, <- Hw3. exact Hgen.
  - destruct (report_without_retry tt s) as (Hv & new & Htr & Hnew).
    { right. rewrite Hdd, Hrf. apply andb_false_r. }
    exists new. split; [exact Htr|]. rewrite Hnew. apply (same_vars_fields _ _ Hv).
  - destruct (report_without_retry tt s) as (Hv & new & Htr & Hnew).
    { right. rewrite Hdd. reflexivity. }
    exists new. split; [exact Htr|]. rewrite Hnew. apply (same_vars_fields _ _ Hv).
  - destruct (report_without_retry tt s) as (Hv & new & Htr & Hnew).
    { left. lia. }
    exists new. split; [exact Htr|]. rewrite Hnew. apply (same_vars_fields _ _ Hv).
Qed.

(** X25.  Whenever [main] returns, the call records of the run are those
    of the test functions themselves: each test recorded was applied to
    the world left by the calls before it, starting from the world in
    which [main] was entered, and returned the result recorded; the world
    in which [main] returns is the one left by the last call.  So no
    record is written without its call, no call is made without its
    record, and no result is made up. *)
Theorem main_calls_are_genuine (calloc_ok : bool) (fuel : nat)
    (argv : list string) (w : World) (f : state World) :
  main tt calloc_ok fuel argv w = Some (Normal f) ->
  genuine tt w (calls_of (trace f)) (world f).
Proof.
  unfold main. destruct calloc_ok.
  2:{ intros [= <-]. st_simpl. rewrite calls_of_app.
      destruct (entry_state_facts tt w) as (_ & _ & _ & _ & -> & ->).
      reflexivity. }
  destruct (option_loop tt fuel argv (entry_state tt w))
    as [[s1|c s1|s1]|] eqn:Hloop; intros [= <-].
  unfold run_selected.
  destruct (quiet_from_entry tt w s1 (option_loop_quiet tt _ _ _ _ Hloop))
    as (_ & _ & _ & Hc1 & Hw1).
  destruct (select_tests_effect tt argv s1)
    as ((_ & _ & _ & Hw2 & new2 & Htr2 & Hnew2) & _).
  set (s2 := select_tests tt argv s1) in *.
  destruct (set_debug_effect s2) as (Hv3 & new3 & Htr3 & Hnew3).
  destruct (same_vars_fields _ _ Hv3) as (_ & _ & _ & _ & _ & _ & Hw3 & _).
  set (s3 := set_debug s2) in *.
  destruct (sweep_genuine tt s3) as (new4 & Htr4 & Hg4).
  destruct (report_genuine (sweep tt s3)) as (new5 & Htr5 & Hg5).
  rewrite Htr5, Htr4, Htr3, Htr2, !calls_of_app, Hc1, Hnew2, Hnew3. cbn [app].
  rewrite Hw3, Hw2, Hw1 in Hg4. eapply genuine_app; eauto.
Qed.

End Records.

(** * The further properties on sample runs *)

Ltac distinct_names :=
  repeat (apply NoDup_cons_2;
          [ let H := fresh in
            intros H;
            repeat (apply elem_of_cons in H as [H|H]; [discriminate|]);
            inversion H | ]);
  apply NoDup_nil_2.

Ltac listed_name :=
  repeat first [apply list_elem_of_here | apply list_elem_of_further].

Lemma get_test_number_of_entry_witness :
  NoDup (map test_name all_pass) /\
  all_pass !! 2 = Some (mk_test_def "dtn_silence" passes) /\
  get_test_number all_pass "dtn_silence" = 2%Z.
Proof.
  assert (NoDup (map test_name all_pass)) as Hnd.
  { change (NoDup ["dtn_basic"; "dtn_data"; "dtn_silence"; "dtn_twenty"]).
    distinct_names. }
  split; [exact Hnd|]. split; [reflexivity|].
  exact (get_test_number_of_entry all_pass 2
           (mk_test_def "dtn_silence" passes) Hnd eq_refl).
Defined.

Lemma usage_shows_name_witness :
  all_pass !! 1 = Some (mk_test_def "dtn_data" passes) /\ 1 mod 5 <> 4 /\
  ev_fprintf stderr "dtn_data, " ∈ usage_text all_pass "picoquic_sp".
Proof.
  assert (1 mod 5 <> 4) as Hk by (vm_compute; discriminate).
  split; [reflexivity|]. split; [exact Hk|].
  exact (usage_shows_name all_pass "picoquic_sp" 1
           (mk_test_def "dtn_data" passes) eq_refl Hk).
Defined.

Lemma usage_skips_every_fifth_name_witness :
  NoDup (map test_name five_table) /\
  five_table !! 4 = Some (mk_test_def "dtn_fifth" passes) /\ 4 mod 5 = 4 /\
  ev_fprintf stderr "dtn_fifth, " ∉ usage_text five_table "picoquic_sp".
Proof.
  assert (NoDup (map test_name five_table)) as Hnd.
  { change (NoDup ["dtn_basic"; "dtn_data"; "dtn_silence"; "dtn_twenty";
                   "dtn_fifth"]).
    distinct_names. }
  split; [exact Hnd|]. split; [reflexivity|]. split; [reflexivity|].
  exact (usage_skips_every_fifth_name five_table "picoquic_sp" 4
           (mk_test_def "dtn_fifth" passes) Hnd eq_refl eq_refl).
Defined.

Lemma sweep_counts_failures_witness :
  let s := selected flaky_table 5 argv_plain 0 in
  ret s = 0%Z /\
  exists new,
    trace (sweep flaky_table s) = trace s ++ new /\
    nb_test_failed (sweep flaky_table s) =
      (nb_test_failed s + Z.of_nat (length (failures (calls_of new))))%Z /\
    ret (sweep flaky_table s) =
      if decide (failures (calls_of new) = []) then 0%Z else (-1)%Z.
Proof.
  intros s. split; [vm_compute; reflexivity|].
  apply (sweep_counts_failures flaky_table s). vm_compute. reflexivity.
Defined.

Lemma sweep_settles_every_selected_entry_witness :
  let s := selected flaky_table 5 argv_plain 0 in
  (ret s = 0%Z /\ 1 < nb_tests flaky_table) /\
  test_status (sweep flaky_table s) !! 1 <> Some test_not_run /\
  match test_status s !! 1 with
  | Some test_not_run =>
      test_status (sweep flaky_table s) !! 1 = Some test_success \/
      test_status (sweep flaky_table s) !! 1 = Some test_failed
  | v => test_status (sweep flaky_table s) !! 1 = v
  end.
Proof.
  intros s. split; [split; [vm_compute; reflexivity | vm_compute; lia]|].
  apply (sweep_settles_every_selected_entry flaky_table s 1);
    [vm_compute; reflexivity | vm_compute; lia].
Defined.

Lemma sweep_status_follows_result_witness :
  let s := selected flaky_table 5 argv_plain 0 in
  (ret s = 0%Z /\
   flaky_table !! 1 = Some (mk_test_def "dtn_data" (heisenbug 3 4)) /\
   runs_in_sweep s 1) /\
  exists new r,
    trace (sweep flaky_table s) = trace s ++ new /\
    calls_to 1 new = [(1, r)] /\
    (exists pre post wb wa,
       calls_of new = pre ++ (1, r) :: post /\
       genuine flaky_table (world s) pre wb /\
       heisenbug 3 4 wb = (r, wa) /\
       genuine flaky_table wa post (world (sweep flaky_table s))) /\
    test_status (sweep flaky_table s) !! 1 =
      Some (if (r =? 0)%Z then test_success else test_failed).
Proof.
  intros s.
  assert (runs_in_sweep s 1) as Hrun by (split; vm_compute; reflexivity).
  split; [split; [vm_compute; reflexivity | split; [reflexivity|exact Hrun]]|].
  apply (sweep_status_follows_result flaky_table s 1
           (mk_test_def "dtn_data" (heisenbug 3 4)));
    [vm_compute; reflexivity | reflexivity | exact Hrun].
Defined.

Lemma sweep_reports_excluded_entry_witness :
  let s := selected all_pass 5 argv_exclude_first 0 in
  (ret s = 0%Z /\ auto_bypass s = false /\
   test_status s !! 0 = Some test_excluded) /\
  ev_fprintf stdout ("Test number 0 (dtn_basic) is bypassed." +:+ nl)
  ∈ trace (sweep all_pass s).
Proof.
  intros s.
  split; [split; [|split]; vm_compute; reflexivity|].
  apply (sweep_reports_excluded_entry all_pass s 0
           (mk_test_def "dtn_basic" passes));
    vm_compute; reflexivity.
Defined.

Lemma report_retries_only_on_request_witness :
  let s := swept flaky_table 5 argv_plain 0 in
  ((0 < nb_test_failed s)%Z /\ disable_debug s = false) /\
  same_vars s (report flaky_table s) /\
  exists new,
    trace (report flaky_table s) = trace s ++ new /\ calls_of new = [].
Proof.
  intros s. split; [split; vm_compute; reflexivity|].
  apply (report_retries_only_on_request flaky_table s).
  right. left. vm_compute. reflexivity.
Defined.

Lemma report_names_every_failed_test_witness :
  let s := swept flaky_table 5 argv_plain 0 in
  (0 < nb_test_failed s)%Z /\
  failed_names flaky_table (test_status s) (nb_tests flaky_table)
    = ["dtn_data"] /\
  exists rest,
    trace (report flaky_table s) =
      trace s
      ++ (if (1 <? nb_test_tried s)%Z
          then [ev_fprintf stdout
                  (summary_line (nb_test_tried s) (nb_test_failed s))]
          else [])
      ++ [ev_fprintf stdout "Failed test(s): "]
      ++ map (fun nm => ev_fprintf stdout (nm +:+ " "))
             (failed_names flaky_table (test_status s) (nb_tests flaky_table))
      ++ [ev_fprintf stdout nl] ++ rest.
Proof.
  intros s. split; [vm_compute; reflexivity|].
  split; [vm_compute; reflexivity|].
  apply (report_names_every_failed_test flaky_table s).
  vm_compute. reflexivity.
Defined.

Lemma retry_result_reflects_remaining_failures_witness :
  let s := swept flaky_table 5 argv_retry 0 in
  ((0 < nb_test_failed s)%Z /\ disable_debug s = true /\
   retry_failed_test s = true) /\
  (ret (report flaky_table s) = 0%Z \/ ret (report flaky_table s) = (-1)%Z) /\
  (ret (report flaky_table s) = 0%Z <->
   forall j, j < nb_tests flaky_table ->
     test_status (report flaky_table s) !! j <> Some test_failed).
Proof.
  intros s. split; [split; [|split]; vm_compute; reflexivity|].
  apply (retry_result_reflects_remaining_failures flaky_table s);
    vm_compute; reflexivity.
Defined.

Lemma retry_calls_in_ordinal_order_witness :
  let s := swept flaky_table 5 argv_retry 0 in
  ((0 < nb_test_failed s)%Z /\ disable_debug s = true /\
   retry_failed_test s = true) /\
  exists new,
    trace (report flaky_table s) = trace s ++ new /\
    map fst (calls_of new) =
      filter (retried_in_pass flaky_table s) (seq 0 (nb_tests flaky_table)).
Proof.
  intros s. split; [split; [|split]; vm_compute; reflexivity|].
  apply (retry_calls_in_ordinal_order flaky_table s);
    vm_compute; reflexivity.
Defined.

Lemma main_exit_status_witness :
  let o := Normal (report flaky_table (swept flaky_table 5 argv_plain 0)) in
  main flaky_table true 5 argv_plain 0 = Some o /\
  exit_status o = Some (-1)%Z /\
  ((-1)%Z = 0%Z \/ (-1)%Z = (-1)%Z).
Proof.
  intros o.
  assert (main flaky_table true 5 argv_plain 0 = Some o) as Hmain
    by (vm_compute; reflexivity).
  assert (exit_status o = Some (-1)%Z) as Hexit by (vm_compute; reflexivity).
  split; [exact Hmain|]. split; [exact Hexit|].
  exact (main_exit_status flaky_table true 5 argv_plain 0 o (-1) Hmain Hexit).
Defined.

Lemma usage_error_in_options_is_fatal_witness :
  let s1 := scanned all_pass 5 argv_short_range 0 in
  (option_loop all_pass 5 argv_short_range (entry_state all_pass 0)
     = Some (Normal s1) /\ ret s1 <> 0%Z) /\
  exists f,
    main all_pass true 5 argv_short_range 0 = Some (Normal f) /\
    ret f = (-1)%Z /\
    usage_printed all_pass argv_short_range (trace f) /\
    calls_of (trace f) = [].
Proof.
  intros s1.
  assert (option_loop all_pass 5 argv_short_range (entry_state all_pass 0)
          = Some (Normal s1)) as Hloop by (vm_compute; reflexivity).
  assert (ret s1 <> 0%Z) as Herr by (vm_compute; discriminate).
  split; [split; assumption|].
  exact (usage_error_in_options_is_fatal all_pass 5 argv_short_range 0 s1
           Hloop Herr).
Defined.

Lemma help_exits_with_status_0_witness :
  exists f,
    main all_pass true 5 argv_help_first 0 = Some (Exited 0 f) /\
    0%Z = 0%Z /\ ret f = 0%Z /\
    (exists before,
       trace f = before
                 ++ usage_text all_pass (show_ptr (argv_help_first !! 0))) /\
    nb_test_tried f = 0%Z /\
    calls_of (trace f) = [] /\ world f = 0.
Proof.
  eexists. split; [vm_compute; reflexivity|].
  apply (help_exits_with_status_0 all_pass true 5 argv_help_first 0 0).
  vm_compute. reflexivity.
Defined.

Lemma undefined_only_after_short_c_or_d_witness :
  exists f,
    main all_pass true 5 argv_short_cnx 0 = Some (Undefined f) /\
    exists h opt s1,
      loop_head all_pass argv_short_cnx 0 h /\
      getopt argv_short_cnx h = (Some opt, s1) /\
      handle_option all_pass argv_short_cnx opt s1 = Undefined f /\
      (opt = "c" \/ opt = "d")%char /\ length argv_short_cnx <= optind s1 /\
      ret f = (-1)%Z /\ usage_printed all_pass argv_short_cnx (trace f) /\
      calls_of (trace f) = [].
Proof.
  eexists. split; [vm_compute; reflexivity|].
  apply (undefined_only_after_short_c_or_d all_pass true 5 argv_short_cnx 0).
  vm_compute. reflexivity.
Defined.

Lemma attached_exclusion_never_ends_witness :
  let s := entry_state all_pass 0 in
  (loop_head all_pass argv_attached 0 s /\ ret s = 0%Z /\ nextchar s = 0 /\
   argv_attached !! optind s = Some ("-x" +:+ "dtn_basic")) /\
  main all_pass true 1000 argv_attached 0 = None.
Proof.
  intros s.
  assert (loop_head all_pass argv_attached 0 s) as Hhead
    by apply loop_head_entry.
  split; [split; [exact Hhead | split; [|split]; reflexivity]|].
  apply (attached_exclusion_never_ends all_pass 1000 argv_attached 0 s
           "dtn_basic" Hhead); [reflexivity | reflexivity | reflexivity |].
  discriminate.
Defined.

Lemma exclusion_marks_its_group_witness :
  let s := snd (getopt argv_exclude_group (entry_state all_pass 0)) in
  let group := x_group (drop (optind s - 1) argv_exclude_group) in
  group = ["dtn_basic"; "dtn_twenty"] /\
  exists s',
    handle_option all_pass argv_exclude_group "x" s = Normal s' /\
    ret s' = ret s /\ trace s' = trace s /\
    optind s' = optind s - 1 + length group /\
    (forall i, i < length (test_status s) ->
       (exists tn, tn ∈ group /\ get_test_number all_pass tn = Z.of_nat i) ->
       test_status s' !! i = Some test_excluded) /\
    (forall i,
       (forall tn, tn ∈ group -> get_test_number all_pass tn <> Z.of_nat i) ->
       test_status s' !! i = test_status s !! i).
Proof.
  intros s group.
  assert (group = ["dtn_basic"; "dtn_twenty"]) as Hgroup
    by (vm_compute; reflexivity).
  split; [exact Hgroup|].
  apply (exclusion_marks_its_group all_pass argv_exclude_group s).
  fold group. rewrite Hgroup. intros tn Hin.
  apply elem_of_cons in Hin as [->|Hin];
    [|apply list_elem_of_singleton in Hin as ->];
    change (map test_name all_pass)
      with ["dtn_basic"; "dtn_data"; "dtn_silence"; "dtn_twenty"];
    listed_name.
Defined.

Lemma ddos_interval_is_not_checked_witness :
  let s := entry_state all_pass 0 in
  let s1 := snd (getopt argv_ddos s) in
  (loop_head all_pass argv_ddos 0 s /\ ret s = 0%Z /\
   getopt argv_ddos s = (Some "d"%char, s1) /\
   optarg s1 = Some "5" /\ argv_ddos !! optind s1 = Some "-7" /\
   optind s1 + 2 <= length argv_ddos /\ (0 < atoi "5")%Z /\
   atoi "-7" = (-7)%Z) /\
  exists s2,
    handle_option all_pass argv_ddos "d" s1 = Normal s2 /\
    ret s2 = 0%Z /\ trace s2 = trace s1 /\
    cnx_ddos_packets s2 = atoi "5" /\ cnx_ddos_interval s2 = atoi "-7" /\
    cnx_ddos_dir s2 = argv_ddos !! S (optind s1) /\
    optind s2 = optind s1 + 2.
Proof.
  intros s s1.
  assert (loop_head all_pass argv_ddos 0 s) as Hhead by apply loop_head_entry.
  assert (getopt argv_ddos s = (Some "d"%char, s1)) as Hg
    by (vm_compute; reflexivity).
  assert (optarg s1 = Some "5") as Ha by (vm_compute; reflexivity).
  assert (argv_ddos !! optind s1 = Some "-7") as Hb by (vm_compute; reflexivity).
  assert (optind s1 + 2 <= length argv_ddos) as Hlen by (vm_compute; lia).
  assert (0 < atoi "5")%Z as Hpk by (vm_compute; reflexivity).
  split.
  { repeat (split; [first [assumption | vm_compute; reflexivity]|]).
    vm_compute. reflexivity. }
  exact (ddos_interval_is_not_checked all_pass argv_ddos 0 s s1 "5" "-7"
           Hhead eq_refl Hg Ha Hb Hlen Hpk).
Defined.

Lemma sweep_starts_without_results_witness :
  let s1 := scanned all_pass 5 argv_exclude_first 0 in
  let s2 := set_debug (select_tests all_pass argv_exclude_first s1) in
  option_loop all_pass 5 argv_exclude_first (entry_state all_pass 0)
    = Some (Normal s1) /\
  length (test_status s2) = nb_tests all_pass /\
  forall i, i < nb_tests all_pass ->
    test_status s2 !! i = Some test_not_run \/
    test_status s2 !! i = Some test_excluded.
Proof.
  intros s1 s2.
  assert (option_loop all_pass 5 argv_exclude_first (entry_state all_pass 0)
          = Some (Normal s1)) as Hloop by (vm_compute; reflexivity).
  split; [exact Hloop|].
  exact (sweep_starts_without_results all_pass 5 argv_exclude_first 0 s1 Hloop).
Defined.

Lemma range_bounds_are_never_negative_witness :
  let s1 := scanned all_pass 5 argv_range 0 in
  let s2 := set_debug (select_tests all_pass argv_range s1) in
  option_loop all_pass 5 argv_range (entry_state all_pass 0)
    = Some (Normal s1) /\
  (0 <= first_test s2)%Z /\ (0 <= last_test s2)%Z.
Proof.
  intros s1 s2.
  assert (option_loop all_pass 5 argv_range (entry_state all_pass 0)
          = Some (Normal s1)) as Hloop by (vm_compute; reflexivity).
  split; [exact Hloop|].
  exact (range_bounds_are_never_negative all_pass 5 argv_range 0 s1 Hloop).
Defined.

Lemma main_calls_are_genuine_witness :
  exists f,
    main flaky_table true 5 argv_retry 0 = Some (Normal f) /\
    genuine flaky_table 0 (calls_of (trace f)) (world f).
Proof.
  eexists. split; [vm_compute; reflexivity|].
  apply (main_calls_are_genuine flaky_table true 5 argv_retry 0).
  vm_compute. reflexivity.
Defined.
